(** * Verification of the EBM native wrapper
      (interpret/glassbox/ebm/internal.py)

    The Python module drives an external boosting engine through ctypes.
    The engine is a black box: it is modelled as a record of functions over an
    abstract engine state, and every call through [lib] is logged in a trace so
    that "how many engine calls were made" is an observable of the model.
    Python floats (and [c_double]) are IEEE binary64 numbers: they are Rocq's
    primitive floats.  Python ints are unbounded: they are [Z].  Exceptions are
    values of an error type threaded through a state-and-error monad.
    Logging calls ([log.info], [log.debug]) have no effect on the results and
    are left out. *)

From Stdlib Require Import ZArith List String Bool Lia.
From Stdlib Require Import Permutation Sorted.
From Stdlib Require Import Floats.
From Stdlib Require Ascii DecimalString.
From Stdlib.Strings Require Byte.
Import ListNotations.

Set Warnings "-inexact-float".
Open Scope Z_scope.

(** ** Python values *)

(** Python's built-in exceptions raised by the module. *)
Inductive exn : Type :=
| MemoryError (msg : string)
| AttributeError (msg : string)
| IndexError (msg : string)
| Exception (msg : string).

(** The error kinds of the specification. *)
Inductive error_kind : Type :=
| AllocationFailure
| InvalidArgument
| EngineFailure.

Definition kind_of (e : exn) : error_kind :=
  match e with
  | MemoryError _ => AllocationFailure
  | AttributeError _ => InvalidArgument
  | IndexError _ => InvalidArgument
  | Exception _ => EngineFailure
  end.

(** [l[i]] on a Python list: negative indexes count from the end, anything
    else out of range raises [IndexError]. *)
Definition py_getitem {A : Type} (l : list A) (i : Z) : option A :=
  let n := Z.of_nat (List.length l) in
  if (0 <=? i) && (i <? n) then nth_error l (Z.to_nat i)
  else if (- n <=? i) && (i <? 0) then nth_error l (Z.to_nat (n + i))
  else None.

(** [range(n)]: empty when [n <= 0]. *)
Definition range (n : Z) : list Z :=
  map Z.of_nat (seq 0 (Z.to_nat n)).

(** [l[0:n]] on a Python list: a negative [n] counts from the end. *)
Definition py_slice_to {A : Type} (l : list A) (n : Z) : list A :=
  let len := Z.of_nat (List.length l) in
  if 0 <=? n then firstn (Z.to_nat n) l
  else firstn (Z.to_nat (len + n)) l.

(** Built-in [min(a, b)] on floats: the first argument unless the second is
    strictly smaller. *)
Definition py_min (a b : float) : float :=
  if (b <? a)%float then b else a.

(** ** Data model *)

(** A feature: the dictionary with keys 'type', 'has_missing', 'n_bins'. *)
Record feature : Type := {
  type : string;
  has_missing : bool;
  n_bins : Z
}.

(** A feature combination: the dictionary with key 'attributes'. *)
Record feature_combination : Type := {
  attributes : list Z
}.

(** [Native.EbmCoreFeature] and [Native.EbmCoreFeatureCombination]. *)
Record EbmCoreFeature : Type := {
  featureType : Z;
  hasMissing : Z;
  countBins : Z
}.

Record EbmCoreFeatureCombination : Type := {
  countFeaturesInCombination : Z
}.

Definition FeatureTypeOrdinal : Z := 0.
Definition FeatureTypeNominal : Z := 1.

(** numpy arrays crossing the boundary: a shape and flat row-major data. *)
Inductive nd_data : Type :=
| NdInt64 (l : list Z)
| NdFloat64 (l : list float).

Record ndarray : Type := {
  shape : list Z;
  data : nd_data
}.

(** [len(a)]: the length of the first axis. *)
Definition len (a : ndarray) : Z := hd 0 (shape a).

(** [np.zeros(n, dtype=np.float64, order='C')]. *)
Definition np_zeros (n : Z) : ndarray :=
  {| shape := [n]; data := NdFloat64 (repeat 0%float (Z.to_nat n)) |}.

(** Pointers returned by the engine; the null pointer is falsy. *)
Definition pointer : Type := Z.
Definition is_null (p : pointer) : bool := p =? 0.

(** The arguments handed to the engine's initialisers. *)
Record training_args : Type := {
  ta_features : list EbmCoreFeature;
  ta_feature_combinations : list EbmCoreFeatureCombination;
  ta_feature_combination_indexes : list Z;
  ta_X_train : ndarray;
  ta_y_train : ndarray;
  ta_scores_train : ndarray;
  ta_X_val : ndarray;
  ta_y_val : ndarray;
  ta_scores_val : ndarray;
  ta_n_inner_bags : Z;
  ta_random_state : Z
}.

Record interaction_args : Type := {
  ia_features : list EbmCoreFeature;
  ia_X : ndarray;
  ia_y : ndarray;
  ia_scores : ndarray
}.

(** ** The engine boundary *)

(** One entry of the trace per call through [self._native.lib]. *)
Inductive call : Type :=
| CallInitializeTrainingClassification (n_classes : Z) (a : training_args)
| CallInitializeTrainingRegression (a : training_args)
| CallFreeTraining (p : pointer)
| CallGenerateModelFeatureCombinationUpdate
    (p : pointer) (index : Z) (learning_rate : float)
    (max_tree_splits min_cases_for_split : Z)
| CallApplyModelFeatureCombinationUpdate (p : pointer) (index : Z) (tensor : pointer)
| CallGetBestModelFeatureCombination (p : pointer) (index : Z)
| CallGetCurrentModelFeatureCombination (p : pointer) (index : Z)
| CallInitializeInteractionClassification (n_classes : Z) (a : interaction_args)
| CallInitializeInteractionRegression (a : interaction_args)
| CallFreeInteraction (p : pointer)
| CallGetInteractionScore (p : pointer) (features : list Z).

(** The engine: what each exported function answers and how it moves the
    engine's own state [E].  Out-parameters passed with [ct.byref] are given
    their current value and answered with their new one.  [read_doubles] is
    the view of engine memory that [PyMemoryView_FromMemory] gives. *)
Record native_lib (E : Type) : Type := {
  InitializeTrainingClassification : Z -> training_args -> E -> pointer * E;
  InitializeTrainingRegression : training_args -> E -> pointer * E;
  FreeTraining : pointer -> E -> E;
  GenerateModelFeatureCombinationUpdate :
    pointer -> Z -> float -> Z -> Z -> float -> E -> (pointer * float) * E;
  ApplyModelFeatureCombinationUpdate :
    pointer -> Z -> pointer -> float -> E -> (Z * float) * E;
  GetBestModelFeatureCombination : pointer -> Z -> E -> pointer * E;
  GetCurrentModelFeatureCombination : pointer -> Z -> E -> pointer * E;
  InitializeInteractionClassification : Z -> interaction_args -> E -> pointer * E;
  InitializeInteractionRegression : interaction_args -> E -> pointer * E;
  FreeInteraction : pointer -> E -> E;
  GetInteractionScore : pointer -> list Z -> float -> E -> (Z * float) * E;
  read_doubles : pointer -> Z -> E -> option (list float)
}.

Arguments InitializeTrainingClassification {E}.
Arguments InitializeTrainingRegression {E}.
Arguments FreeTraining {E}.
Arguments GenerateModelFeatureCombinationUpdate {E}.
Arguments ApplyModelFeatureCombinationUpdate {E}.
Arguments GetBestModelFeatureCombination {E}.
Arguments GetCurrentModelFeatureCombination {E}.
Arguments InitializeInteractionClassification {E}.
Arguments InitializeInteractionRegression {E}.
Arguments FreeInteraction {E}.
Arguments GetInteractionScore {E}.
Arguments read_doubles {E}.

(** The world: the engine's state and the calls made so far, oldest first. *)
Record world (E : Type) : Type := {
  eng : E;
  trace : list call
}.

Arguments eng {E}.
Arguments trace {E}.

(** ** The state-and-error monad *)

Definition M (E A : Type) : Type := world E -> (exn + A) * world E.

Definition ret {E A : Type} (a : A) : M E A := fun w => (inr a, w).

Definition raise {E A : Type} (e : exn) : M E A := fun w => (inl e, w).

Definition bind {E A B : Type} (m : M E A) (k : A -> M E B) : M E B :=
  fun w =>
    match m w with
    | (inl e, w') => (inl e, w')
    | (inr a, w') => k a w'
    end.

Declare Scope monad_scope.
Delimit Scope monad_scope with monad.
Notation "x <- m ;; k" := (bind m (fun x => k))
  (at level 61, m at next level, right associativity) : monad_scope.
Notation "' p <- m ;; k" := (bind m (fun p => k))
  (at level 61, p pattern, m at next level, right associativity) : monad_scope.
Open Scope monad_scope.

(** A call through the library: run the engine and log the call. *)
Definition lib_call {E A : Type} (c : call) (f : E -> A * E) : M E A :=
  fun w =>
    let (a, e') := f (eng w) in
    (inr a, {| eng := e'; trace := trace w ++ [c] |}).

(** [with closing(acquire) as x: body]: the object is built first (a failure
    there means nothing to close); [close] then runs on every way out of the
    body, and the body's result or exception is what the caller sees. *)
Definition closing {E R A : Type}
    (acquire : M E R) (close : R -> M E unit) (body : R -> M E A) : M E A :=
  r <- acquire ;;
  fun w =>
    match body r w with
    | (res, w') =>
        match close r w' with
        | (inl e, w'') => (inl e, w'')
        | (inr _, w'') => (res, w'')
        end
    end.

(** ** The wrapper classes *)

(** A model tensor copied out of engine memory by [Native.make_ndarray]. *)
Record tensor : Type := {
  tensor_shape : list Z;
  tensor_data : list float
}.

(** The object built by [NativeEBMTraining.__init__]. *)
Record NativeEBMTraining : Type := {
  _model_pointer : pointer;
  _model_type : string;
  _n_classes : Z;
  _features : list feature;
  _feature_combinations : list feature_combination
}.

(** The object built by [NativeEBMInteraction.__init__]. *)
Record NativeEBMInteraction : Type := {
  _interaction_pointer : pointer
}.

(** The running variables of the boosting loop of [cyclic_gradient_boost]. *)
Record boost_state : Type := {
  min_metric : float;
  episode_index : Z;
  no_change_run_length : Z;
  bp_metric : float
}.

(** Modelled from the spec: [EBMUtils.get_count_scores_c] lives in
    [interpret/glassbox/ebm/utils.py]; the prior-score vector has one score
    per instance, or [n_classes] per instance for multiclass. *)
Definition get_count_scores_c (n_classes : Z) : Z :=
  if 2 <? n_classes then n_classes else 1.

(** [sorted(l, key=key, reverse=True)]: Python's sort is stable and compares
    keys with [<] only; with [reverse=True] elements with equal keys keep
    their input order.  [insert_desc] puts an element in front of the first
    one whose key is not strictly greater. *)
Fixpoint insert_desc {A : Type} (key : A -> float) (x : A) (l : list A) : list A :=
  match l with
  | [] => [x]
  | y :: ys =>
      if (key x <? key y)%float then y :: insert_desc key x ys
      else x :: y :: ys
  end.

Definition sorted_reverse {A : Type} (key : A -> float) (l : list A) : list A :=
  fold_right (insert_desc key) [] l.

Section Wrapper.

Context {E : Type} (lib : native_lib E).

#[local] Abbreviation M := (M E).

(** *** class Native *)

(** [Native.convert_features_to_c].  The message of the source,
    [Unrecognized feature[type]], is written without its inner quotes. *)
Fixpoint convert_features_to_c (features : list feature) : M (list EbmCoreFeature) :=
  match features with
  | [] => ret []
  | f :: rest =>
      ft <- (if (type f =? "categorical")%string then ret FeatureTypeNominal
             else if (type f =? "continuous")%string then ret FeatureTypeOrdinal
             else raise (AttributeError "Unrecognized feature[type]")) ;;
      rest_ar <- convert_features_to_c rest ;;
      ret ({| featureType := ft;
              hasMissing := 1 * (if has_missing f then 1 else 0);
              countBins := n_bins f |} :: rest_ar)
  end.

(** [Native.convert_feature_combinations_to_c]. *)
Definition convert_feature_combinations_to_c
    (feature_combinations : list feature_combination)
    : list EbmCoreFeatureCombination * list Z :=
  (map (fun fc =>
          {| countFeaturesInCombination := Z.of_nat (List.length (attributes fc)) |})
       feature_combinations,
   flat_map attributes feature_combinations).

(** [Native.make_ndarray(c_pointer, shape, dtype=np.double)] with
    [copy_data=True]: [np.prod(shape)] doubles are read at the pointer and
    copied. *)
Definition make_ndarray (c_pointer : pointer) (shape : list Z) : M tensor :=
  fun w =>
    match read_doubles lib c_pointer (fold_right Z.mul 1 shape) (eng w) with
    | None => raise (MemoryError "Out of memory in PyMemoryView_FromMemory") w
    | Some buffer => ret {| tensor_shape := shape; tensor_data := buffer |} w
    end.

(** *** class NativeEBMTraining *)

Definition default_scores (scores : option ndarray) (n_classes : Z) (y : ndarray)
    : ndarray :=
  match scores with
  | Some s => s
  | None => np_zeros (len y * get_count_scores_c n_classes)
  end.

(** The arguments [__init__] passes to the engine's initialiser. *)
Definition training_init_args (n_classes : Z)
    (feature_array : list EbmCoreFeature)
    (feature_combinations : list feature_combination)
    (X_train y_train : ndarray) (scores_train : option ndarray)
    (X_val y_val : ndarray) (scores_val : option ndarray)
    (n_inner_bags random_state : Z) : training_args :=
  let '(feature_combinations_array, feature_combination_indexes) :=
    convert_feature_combinations_to_c feature_combinations in
  {| ta_features := feature_array;
     ta_feature_combinations := feature_combinations_array;
     ta_feature_combination_indexes := feature_combination_indexes;
     ta_X_train := X_train; ta_y_train := y_train;
     ta_scores_train := default_scores scores_train n_classes y_train;
     ta_X_val := X_val; ta_y_val := y_val;
     ta_scores_val := default_scores scores_val n_classes y_val;
     ta_n_inner_bags := n_inner_bags;
     ta_random_state := random_state |}.

(** [NativeEBMTraining.__init__]. *)
Definition NativeEBMTraining_init
    (model_type : string) (n_classes : Z)
    (features : list feature) (feature_combinations : list feature_combination)
    (X_train y_train : ndarray) (scores_train : option ndarray)
    (X_val y_val : ndarray) (scores_val : option ndarray)
    (n_inner_bags random_state : Z) : M NativeEBMTraining :=
  feature_array <- convert_features_to_c features ;;
  let args :=
    training_init_args n_classes feature_array feature_combinations
      X_train y_train scores_train X_val y_val scores_val
      n_inner_bags random_state in
  let self p :=
    {| _model_pointer := p; _model_type := model_type; _n_classes := n_classes;
       _features := features; _feature_combinations := feature_combinations |} in
  if (model_type =? "classification")%string then
    p <- lib_call (CallInitializeTrainingClassification n_classes args)
                  (InitializeTrainingClassification lib n_classes args) ;;
    if is_null p then
      raise (MemoryError "Out of memory in InitializeTrainingClassification")
    else ret (self p)
  else if (model_type =? "regression")%string then
    p <- lib_call (CallInitializeTrainingRegression args)
                  (InitializeTrainingRegression lib args) ;;
    if is_null p then
      raise (MemoryError "Out of memory in InitializeTrainingRegression")
    else ret (self p)
  else raise (AttributeError "Unrecognized model_type").

(** [NativeEBMTraining.close]. *)
Definition NativeEBMTraining_close (self : NativeEBMTraining) : M unit :=
  lib_call (CallFreeTraining (_model_pointer self))
           (fun e => (tt, FreeTraining lib (_model_pointer self) e)).

(** The [for i in range(training_step_episodes)] loop of [training_step];
    [gain] and [metric_output] are the two [c_double] cells passed by
    reference. *)
Fixpoint training_step_episodes_loop (self : NativeEBMTraining)
    (feature_combination_index : Z) (learning_rate : float)
    (max_tree_splits min_cases_for_split : Z)
    (episodes : nat) (gain metric_output : float) : M float :=
  match episodes with
  | O => ret metric_output
  | S episodes' =>
      '(model_update_tensor_pointer, gain') <-
        lib_call (CallGenerateModelFeatureCombinationUpdate
                    (_model_pointer self) feature_combination_index
                    learning_rate max_tree_splits min_cases_for_split)
                 (GenerateModelFeatureCombinationUpdate lib
                    (_model_pointer self) feature_combination_index
                    learning_rate max_tree_splits min_cases_for_split gain) ;;
      if is_null model_update_tensor_pointer then
        raise (MemoryError "Out of memory in GenerateModelFeatureCombinationUpdate")
      else
        '(return_code, metric_output') <-
          lib_call (CallApplyModelFeatureCombinationUpdate
                      (_model_pointer self) feature_combination_index
                      model_update_tensor_pointer)
                   (ApplyModelFeatureCombinationUpdate lib
                      (_model_pointer self) feature_combination_index
                      model_update_tensor_pointer metric_output) ;;
        if negb (return_code =? 0) then
          raise (Exception "Out of memory in ApplyModelFeatureCombinationUpdate")
        else
          training_step_episodes_loop self feature_combination_index learning_rate
            max_tree_splits min_cases_for_split episodes' gain' metric_output'
  end.

(** [NativeEBMTraining.training_step]. *)
Definition training_step (self : NativeEBMTraining)
    (feature_combination_index : Z) (learning_rate : float)
    (max_tree_splits min_cases_for_split : Z)
    (training_step_episodes : Z) : M float :=
  let metric_output := 0%float in
  if negb (_model_type self =? "classification")%string || (2 <=? _n_classes self) then
    let gain := 0%float in
    training_step_episodes_loop self feature_combination_index learning_rate
      max_tree_splits min_cases_for_split
      (Z.to_nat training_step_episodes) gain metric_output
  else ret metric_output.

(** The [for] loop of [_get_feature_combination_shape] appending bin counts. *)
Fixpoint shape_dimensions (features : list feature) (attrs : list Z)
    (dimensions : list Z) : M (list Z) :=
  match attrs with
  | [] => ret dimensions
  | feature_idx :: rest =>
      match py_getitem features feature_idx with
      | None => raise (IndexError "list index out of range")
      | Some f => shape_dimensions features rest (dimensions ++ [n_bins f])
      end
  end.

(** [NativeEBMTraining._get_feature_combination_shape]. *)
Definition _get_feature_combination_shape (self : NativeEBMTraining)
    (feature_combination_index : Z) : M (list Z) :=
  match py_getitem (_feature_combinations self) feature_combination_index with
  | None => raise (IndexError "list index out of range")
  | Some feature_combination =>
      dimensions <- shape_dimensions (_features self)
                      (attributes feature_combination) [] ;;
      let dimensions := rev dimensions in
      if (_model_type self =? "classification")%string && (_n_classes self >? 2) then
        ret (dimensions ++ [_n_classes self])
      else ret dimensions
  end.

(** [NativeEBMTraining._get_best_model_feature_combination]; [None] is the
    source's marker for "no tensor". *)
Definition _get_best_model_feature_combination (self : NativeEBMTraining)
    (feature_combination_index : Z) : M (option tensor) :=
  if (_model_type self =? "classification")%string && (_n_classes self <=? 1) then
    ret None
  else
    array_p <- lib_call (CallGetBestModelFeatureCombination
                           (_model_pointer self) feature_combination_index)
                        (GetBestModelFeatureCombination lib
                           (_model_pointer self) feature_combination_index) ;;
    if is_null array_p then
      raise (MemoryError "Out of memory in GetBestModelFeatureCombination")
    else
      shape <- _get_feature_combination_shape self feature_combination_index ;;
      array <- make_ndarray array_p shape ;;
      ret (Some array).

(** [NativeEBMTraining._get_current_model_feature_combination]. *)
Definition _get_current_model_feature_combination (self : NativeEBMTraining)
    (feature_combination_index : Z) : M (option tensor) :=
  if (_model_type self =? "classification")%string && (_n_classes self <=? 1) then
    ret None
  else
    array_p <- lib_call (CallGetCurrentModelFeatureCombination
                           (_model_pointer self) feature_combination_index)
                        (GetCurrentModelFeatureCombination lib
                           (_model_pointer self) feature_combination_index) ;;
    if is_null array_p then
      raise (MemoryError "Out of memory in GetCurrentModelFeatureCombination")
    else
      shape <- _get_feature_combination_shape self feature_combination_index ;;
      array <- make_ndarray array_p shape ;;
      ret (Some array).

(** The [for index in range(...)] loop shared by [get_best_model] and
    [get_current_model]: each tensor is appended to [model]. *)
Fixpoint collect_model (get : Z -> M (option tensor)) (indexes : list Z)
    (model : list (option tensor)) : M (list (option tensor)) :=
  match indexes with
  | [] => ret model
  | index :: rest =>
      model_feature_combination <- get index ;;
      collect_model get rest (model ++ [model_feature_combination])
  end.

(** [NativeEBMTraining.get_best_model]. *)
Definition get_best_model (self : NativeEBMTraining) : M (list (option tensor)) :=
  collect_model (_get_best_model_feature_combination self)
    (range (Z.of_nat (List.length (_feature_combinations self)))) [].

(** [NativeEBMTraining.get_current_model]. *)
Definition get_current_model (self : NativeEBMTraining) : M (list (option tensor)) :=
  collect_model (_get_current_model_feature_combination self)
    (range (Z.of_nat (List.length (_feature_combinations self)))) [].

(** *** class NativeEBMInteraction *)

(** The arguments [__init__] passes to the engine's initialiser. *)
Definition interaction_init_args (n_classes : Z)
    (feature_array : list EbmCoreFeature)
    (X y : ndarray) (scores : option ndarray) : interaction_args :=
  {| ia_features := feature_array; ia_X := X; ia_y := y;
     ia_scores := default_scores scores n_classes y |}.

(** [NativeEBMInteraction.__init__]. *)
Definition NativeEBMInteraction_init
    (model_type : string) (n_classes : Z) (features : list feature)
    (X y : ndarray) (scores : option ndarray) : M NativeEBMInteraction :=
  feature_array <- convert_features_to_c features ;;
  let args := interaction_init_args n_classes feature_array X y scores in
  if (model_type =? "classification")%string then
    p <- lib_call (CallInitializeInteractionClassification n_classes args)
                  (InitializeInteractionClassification lib n_classes args) ;;
    if is_null p then
      raise (MemoryError "Out of memory in InitializeInteractionClassification")
    else ret {| _interaction_pointer := p |}
  else if (model_type =? "regression")%string then
    p <- lib_call (CallInitializeInteractionRegression args)
                  (InitializeInteractionRegression lib args) ;;
    if is_null p then
      raise (MemoryError "Out of memory in InitializeInteractionRegression")
    else ret {| _interaction_pointer := p |}
  else raise (AttributeError "Unrecognized model_type").

(** [NativeEBMInteraction.close]. *)
Definition NativeEBMInteraction_close (self : NativeEBMInteraction) : M unit :=
  lib_call (CallFreeInteraction (_interaction_pointer self))
           (fun e => (tt, FreeInteraction lib (_interaction_pointer self) e)).

(** [NativeEBMInteraction.get_interaction_score]. *)
Definition get_interaction_score (self : NativeEBMInteraction)
    (feature_index_tuple : list Z) : M float :=
  let score := 0%float in
  '(return_code, score') <-
    lib_call (CallGetInteractionScore (_interaction_pointer self) feature_index_tuple)
             (GetInteractionScore lib (_interaction_pointer self)
                feature_index_tuple score) ;;
  if negb (return_code =? 0) then
    raise (Exception "Out of memory in GetInteractionScore")
  else ret score'.

(** *** class NativeHelper *)

Section Boosting.

Variable native_ebm_training : NativeEBMTraining.
Variable n_feature_combinations : Z.
Variable learning_rate : float.
Variables max_tree_splits min_cases_for_splits training_step_episodes : Z.
Variable early_stopping_tolerance : float.
Variable early_stopping_run_length : Z.

(** The inner loop [for feature_combination_index in range(len(feature_combinations))]
    of [cyclic_gradient_boost]. *)
Fixpoint boost_sweep (indexes : list Z) (min_metric : float) : M float :=
  match indexes with
  | [] => ret min_metric
  | feature_combination_index :: rest =>
      curr_metric <- training_step native_ebm_training feature_combination_index
                       learning_rate max_tree_splits min_cases_for_splits
                       training_step_episodes ;;
      boost_sweep rest (py_min curr_metric min_metric)
  end.

(** The early-stopping bookkeeping at the end of a round: the new stall
    counter, the new baseline, and whether [break] is taken. *)
Definition early_stopping (min_metric : float) (no_change_run_length : Z)
    (bp_metric : float) : Z * float * bool :=
  let bp_metric := if no_change_run_length =? 0 then min_metric else bp_metric in
  let no_change_run_length :=
    if (min_metric + early_stopping_tolerance <? bp_metric)%float then 0
    else no_change_run_length + 1 in
  (no_change_run_length, bp_metric,
   (early_stopping_run_length >=? 0)
   && (no_change_run_length >=? early_stopping_run_length)).

(** One round of the outer loop; the boolean says whether the round ends in
    [break]. *)
Definition boost_round (index : Z) (st : boost_state) : M (boost_state * bool) :=
  min_metric' <- boost_sweep (range n_feature_combinations) (min_metric st) ;;
  let es := early_stopping min_metric' (no_change_run_length st) (bp_metric st) in
  ret ({| min_metric := min_metric'; episode_index := index;
          no_change_run_length := fst (fst es); bp_metric := snd (fst es) |},
       snd es).

(** The outer loop [for episode_index in range(data_n_episodes)]; the boolean
    says whether the loop was left through [break]. *)
Fixpoint boost_loop (episodes : list Z) (st : boost_state) : M (boost_state * bool) :=
  match episodes with
  | [] => ret (st, false)
  | index :: rest =>
      '(st', brk) <- boost_round index st ;;
      if brk then ret (st', true) else boost_loop rest st'
  end.

End Boosting.

(** The variables of [cyclic_gradient_boost] before the loop is entered. *)
Definition boost_start : boost_state :=
  {| min_metric := infinity; episode_index := 0;
     no_change_run_length := 0; bp_metric := infinity |}.

(** [NativeHelper.cyclic_gradient_boost]. *)
Definition cyclic_gradient_boost
    (model_type : string) (n_classes : Z)
    (features : list feature) (feature_combinations : list feature_combination)
    (X_train y_train : ndarray) (scores_train : option ndarray)
    (X_val y_val : ndarray) (scores_val : option ndarray)
    (n_inner_bags random_state : Z)
    (learning_rate : float)
    (max_tree_splits min_cases_for_splits training_step_episodes : Z)
    (data_n_episodes : Z)
    (early_stopping_tolerance : float) (early_stopping_run_length : Z)
    (name : string) : M (list (option tensor) * float * Z) :=
  closing
    (NativeEBMTraining_init model_type n_classes features feature_combinations
       X_train y_train scores_train X_val y_val scores_val
       n_inner_bags random_state)
    NativeEBMTraining_close
    (fun native_ebm_training =>
       '(st, _) <- boost_loop native_ebm_training
                     (Z.of_nat (List.length feature_combinations))
                     learning_rate max_tree_splits min_cases_for_splits
                     training_step_episodes
                     early_stopping_tolerance early_stopping_run_length
                     (range data_n_episodes) boost_start ;;
       model_update <- get_best_model native_ebm_training ;;
       ret (model_update, min_metric st, episode_index st)).

(** The scoring loop of [get_interactions]: one engine call per candidate,
    in the order the candidates come. *)
Fixpoint score_interactions (native_ebm_interactions : NativeEBMInteraction)
    (iter_feature_combinations : list (list Z))
    (interaction_scores : list (list Z * float)) : M (list (list Z * float)) :=
  match iter_feature_combinations with
  | [] => ret interaction_scores
  | feature_combination :: rest =>
      score <- get_interaction_score native_ebm_interactions feature_combination ;;
      score_interactions native_ebm_interactions rest
        (interaction_scores ++ [(feature_combination, score)])
  end.

(** [NativeHelper.get_interactions]. *)
Definition get_interactions
    (n_interactions : Z) (iter_feature_combinations : list (list Z))
    (model_type : string) (n_classes : Z) (features : list feature)
    (X y : ndarray) (scores : option ndarray) : M (list (list Z) * list float) :=
  interaction_scores <-
    closing
      (NativeEBMInteraction_init model_type n_classes features X y scores)
      NativeEBMInteraction_close
      (fun native_ebm_interactions =>
         score_interactions native_ebm_interactions iter_feature_combinations []) ;;
  let ranked_scores := sorted_reverse snd interaction_scores in
  let n_interactions :=
    Z.min (Z.of_nat (List.length ranked_scores)) n_interactions in
  let final_ranked_scores := py_slice_to ranked_scores n_interactions in
  let final_indices := map fst final_ranked_scores in
  let final_scores := map snd final_ranked_scores in
  ret (final_indices, final_scores).

End Wrapper.

(** ** Loading the library and forwarding its log (class Native) *)

Module Native.

(** What the module reads from the process it runs in: [sys.platform],
    [struct.calcsize("P")], the directory of the module's file,
    the effective level of the "interpret" logger, and whether
    [ct.cdll.LoadLibrary] finds a library at a path.  A path is the list of
    its components; [os.path.join] on relative components appends them. *)
Record environment : Type := {
  platform : string;
  pointer_size : Z;
  script_path : list string;
  effective_level : Z;
  loadable : list string -> bool
}.

(** A logging level as callers give it: one of the numbers of the [logging]
    module or a name. *)
Inductive level : Type :=
| IntLevel (n : Z)
| StrLevel (s : string).

Definition level_eqb (a b : level) : bool :=
  match a, b with
  | IntLevel n, IntLevel m => n =? m
  | StrLevel s, StrLevel t => (s =? t)%string
  | _, _ => false
  end.

(** The constants of Python's [logging] module. *)
Definition DEBUG : Z := 10.
Definition INFO : Z := 20.
Definition WARNING : Z := 30.
Definition ERROR : Z := 40.
Definition CRITICAL : Z := 50.
Definition NOTSET : Z := 0.

Definition TraceLevelOff : Z := 0.
Definition TraceLevelError : Z := 1.
Definition TraceLevelWarning : Z := 2.
Definition TraceLevelInfo : Z := 3.
Definition TraceLevelVerbose : Z := 4.

(** What can be raised while the library is loaded. *)
Inductive load_exn : Type :=
| Raised (e : exn)
| OSError (path : list string)
| KeyError (key : level).

(** The calls made on the way: loading, and the two calls of [_set_logging]
    into the library. *)
Inductive load_call : Type :=
| CallLoadLibrary (path : list string)
| CallSetLogMessageFunction
| CallSetTraceLevel (trace_level : Z).

(** A [Native] object after [_initialize]. *)
Record native : Type := {
  is_debug : bool;
  log_level : option level;
  lib : list string
}.

(** The class attribute [Native._native] and the calls made so far. *)
Record process : Type := {
  _native : option native;
  calls : list load_call
}.

(** [Native._get_ebm_lib_path]; [and] binds tighter than [or] in the first
    test. *)
Definition _get_ebm_lib_path (env : environment) (debug : bool)
    : exn + list string :=
  let bitsize := pointer_size env * 8 in
  let is_64_bit := bitsize =? 64 in
  let package_path := script_path env ++ [".."; ".."]%string in
  let debug_str := if debug then "_debug"%string else ""%string in
  if (platform env =? "linux")%string
     || ((platform env =? "linux2")%string && is_64_bit) then
    inr (package_path
         ++ ["lib"; "lib_ebmcore_linux_x64" ++ debug_str ++ ".so"]%string)
  else if (platform env =? "win32")%string && is_64_bit then
    inr (package_path
         ++ ["lib"; "lib_ebmcore_win_x64" ++ debug_str ++ ".dll"]%string)
  else if (platform env =? "darwin")%string && is_64_bit then
    inr (package_path
         ++ ["lib"; "lib_ebmcore_mac_x64" ++ debug_str ++ ".dylib"]%string)
  else
    inl (Exception ("Platform " ++ platform env ++ " at "
                    ++ DecimalString.NilZero.string_of_int (Z.to_int bitsize)
                    ++ " bit not supported for EBM")%string).

(** The dictionary [level_dict] of [_set_logging], in the order it is
    written. *)
Definition level_dict : list (level * Z) :=
  [ (IntLevel DEBUG, TraceLevelVerbose);
    (IntLevel INFO, TraceLevelInfo);
    (IntLevel WARNING, TraceLevelWarning);
    (IntLevel ERROR, TraceLevelError);
    (IntLevel CRITICAL, TraceLevelError);
    (IntLevel NOTSET, TraceLevelOff);
    (StrLevel "DEBUG", TraceLevelVerbose);
    (StrLevel "INFO", TraceLevelInfo);
    (StrLevel "WARNING", TraceLevelWarning);
    (StrLevel "ERROR", TraceLevelError);
    (StrLevel "CRITICAL", TraceLevelError);
    (StrLevel "NOTSET", TraceLevelOff) ].

(** [d[key]] on a dictionary written as its list of items. *)
Definition dict_getitem (d : list (level * Z)) (key : level) : option Z :=
  match find (fun item => level_eqb (fst item) key) d with
  | Some item => Some (snd item)
  | None => None
  end.

(** What [native_log] does with a message: the method of the module's
    logger it calls, and the text. *)
Inductive log_record : Type :=
| log_error (message : string)
| log_warning (message : string)
| log_info (message : string)
| log_debug (message : string).

(** [bytes.decode("ascii")]: every byte must be below 128. *)
Fixpoint decode_ascii (bs : list Byte.byte) : option string :=
  match bs with
  | [] => Some EmptyString
  | b :: rest =>
      if (Byte.to_N b <? 128)%N then
        match decode_ascii rest with
        | Some s => Some (String (Ascii.ascii_of_byte b) s)
        | None => None
        end
      else None
  end.

(** The body of the [try] of [native_log]: [trace_level] arrives as a
    [bytes] object and [message] as [bytes], or [None] for a null pointer.
    [inl] names the exception raised. *)
Definition native_log_try (trace_level : list Byte.byte)
    (message : option (list Byte.byte)) : string + option log_record :=
  match trace_level with
  | [] => inl "IndexError"%string
  | b :: _ =>
      let trace_level := Z.of_N (Byte.to_N b) in
      match message with
      | None => inl "AttributeError"%string
      | Some bs =>
          match decode_ascii bs with
          | None => inl "UnicodeDecodeError"%string
          | Some message =>
              if trace_level =? TraceLevelError then inr (Some (log_error message))
              else if trace_level =? TraceLevelWarning then
                inr (Some (log_warning message))
              else if trace_level =? TraceLevelInfo then inr (Some (log_info message))
              else if trace_level =? TraceLevelVerbose then
                inr (Some (log_debug message))
              else inr None
          end
      end
  end.

(** [native_log], the callback handed to the library: whatever the body
    raises is swallowed by the bare [except]. *)
Definition native_log (trace_level : list Byte.byte)
    (message : option (list Byte.byte)) : option log_record :=
  match native_log_try trace_level message with
  | inl _ => None
  | inr r => r
  end.

(** [Native._set_logging]: the callback is registered before the level is
    looked up in [level_dict]. *)
Definition _set_logging (env : environment) (level : option level) (p : process)
    : (load_exn + unit) * process :=
  let level :=
    match level with
    | None => IntLevel (effective_level env)
    | Some l => l
    end in
  let p := {| _native := _native p;
              calls := calls p ++ [CallSetLogMessageFunction] |} in
  match dict_getitem level_dict level with
  | None => (inl (KeyError level), p)
  | Some trace_level =>
      (inr tt, {| _native := _native p;
                  calls := calls p ++ [CallSetTraceLevel trace_level] |})
  end.

(** [Native._initialize] on a fresh object; [_harden_function_signatures]
    only annotates the library's functions with their types. *)
Definition _initialize (env : environment) (is_debug : bool)
    (log_level : option level) (p : process) : (load_exn + native) * process :=
  match _get_ebm_lib_path env is_debug with
  | inl e => (inl (Raised e), p)
  | inr path =>
      if loadable env path then
        let p := {| _native := _native p;
                    calls := calls p ++ [CallLoadLibrary path] |} in
        match _set_logging env log_level p with
        | (inl e, p') => (inl e, p')
        | (inr _, p') =>
            (inr {| is_debug := is_debug; log_level := log_level; lib := path |}, p')
        end
      else (inl (OSError path), p)
  end.

(** [Native.get_native_singleton]. *)
Definition get_native_singleton (env : environment) (is_debug : bool)
    (log_level : option level) (p : process) : (load_exn + native) * process :=
  match _native p with
  | None =>
      match _initialize env is_debug log_level p with
      | (inl e, p') => (inl e, p')
      | (inr native, p') =>
          (inr native, {| _native := Some native; calls := calls p' |})
      end
  | Some native => (inr native, p)
  end.

(** The level at which a record is logged. *)
Definition levelno (r : log_record) : Z :=
  match r with
  | log_error _ => ERROR
  | log_warning _ => WARNING
  | log_info _ => INFO
  | log_debug _ => DEBUG
  end.

Definition text (r : log_record) : string :=
  match r with
  | log_error m | log_warning m | log_info m | log_debug m => m
  end.

(** The number a level stands for. *)
Definition level_number (l : level) : option Z :=
  match l with
  | IntLevel n => Some n
  | StrLevel s =>
      if (s =? "DEBUG")%string then Some DEBUG
      else if (s =? "INFO")%string then Some INFO
      else if (s =? "WARNING")%string then Some WARNING
      else if (s =? "ERROR")%string then Some ERROR
      else if (s =? "CRITICAL")%string then Some CRITICAL
      else if (s =? "NOTSET")%string then Some NOTSET
      else None
  end.

(** The platforms for which a library path exists. *)
Definition supported (env : environment) : bool :=
  (platform env =? "linux")%string
  || ((pointer_size env =? 8)
      && ((platform env =? "linux2")%string
          || (platform env =? "win32")%string
          || (platform env =? "darwin")%string)).

(** An environment for the examples: 64-bit Linux, everything loadable. *)
Definition linux64 : environment :=
  {| platform := "linux"; pointer_size := 8;
     script_path := ["interpret"; "glassbox"; "ebm"]%string;
     effective_level := WARNING; loadable := fun _ => true |}.

Definition fresh : process := {| _native := None; calls := [] |}.

End Native.

(** ** A replaying engine

    A test double for the engine: it hands out a fixed handle and answers
    [ApplyModelFeatureCombinationUpdate] and [GetInteractionScore] from a list,
    one answer per call: [Some x] is status 0 with value [x], [None] is a
    nonzero status.  Once the list is used up the status is 0 and the
    out-parameter is left as it was. *)
Module Replay.

Record replay : Type := {
  handle : pointer;
  answers : list (option float)
}.

Definition next_answer (out : float) (e : replay) : (Z * float) * replay :=
  match answers e with
  | [] => ((0, out), e)
  | Some x :: rest => ((0, x), {| handle := handle e; answers := rest |})
  | None :: rest => ((1, out), {| handle := handle e; answers := rest |})
  end.

Definition lib : native_lib replay :=
  {| InitializeTrainingClassification := fun _ _ e => (handle e, e);
     InitializeTrainingRegression := fun _ e => (handle e, e);
     FreeTraining := fun _ e => e;
     GenerateModelFeatureCombinationUpdate := fun _ _ _ _ _ gain e => ((2, gain), e);
     ApplyModelFeatureCombinationUpdate := fun _ _ _ out e => next_answer out e;
     GetBestModelFeatureCombination := fun _ _ e => (3, e);
     GetCurrentModelFeatureCombination := fun _ _ e => (3, e);
     InitializeInteractionClassification := fun _ _ e => (handle e, e);
     InitializeInteractionRegression := fun _ e => (handle e, e);
     FreeInteraction := fun _ e => e;
     GetInteractionScore := fun _ _ out e => next_answer out e;
     read_doubles := fun _ n _ => Some (repeat 0%float (Z.to_nat n)) |}.

Definition start (h : pointer) (l : list (option float)) : world replay :=
  {| eng := {| handle := h; answers := l |}; trace := [] |}.

(** Small inputs shared by the examples. *)
Definition no_data : ndarray := {| shape := [0]; data := NdInt64 [] |}.

Definition continuous (bins : Z) : feature :=
  {| type := "continuous"; has_missing := false; n_bins := bins |}.

Definition main_effect (i : Z) : feature_combination := {| attributes := [i] |}.

(** A training session as [__init__] leaves it. *)
Definition session (model_type : string) (n_classes : Z)
    (features : list feature) (feature_combinations : list feature_combination)
    : NativeEBMTraining :=
  {| _model_pointer := 1; _model_type := model_type; _n_classes := n_classes;
     _features := features; _feature_combinations := feature_combinations |}.

(** One training run on one main effect over one feature, with one episode
    per training step, replaying [metrics] as validation metrics. *)
Definition boost (model_type : string) (n_classes : Z) (metrics : list float)
    (training_step_episodes data_n_episodes : Z)
    (early_stopping_tolerance : float) (early_stopping_run_length : Z)
    : (exn + (list (option tensor) * float * Z)) * world replay :=
  cyclic_gradient_boost lib model_type n_classes [continuous 3] [main_effect 0]
    no_data no_data None no_data no_data None 0 0
    0.01%float 2 2 training_step_episodes data_n_episodes
    early_stopping_tolerance early_stopping_run_length "replay"
    (start 1 (map Some metrics)).

End Replay.

(** ** Vocabulary of the properties *)

(** Whether a trace entry is a release of a training handle. *)
Definition is_free_training (c : call) : bool :=
  match c with
  | CallFreeTraining _ => true
  | _ => false
  end.

Definition count_free_training (tr : list call) : nat :=
  List.length (filter is_free_training tr).

(** The classification problems with at most one class. *)
Definition degenerate (self : NativeEBMTraining) : Prop :=
  _model_type self = "classification"%string /\ _n_classes self <= 1.

(** The world after [NativeEBMTraining.close]. *)
Definition released {E : Type} (lib : native_lib E)
    (s : NativeEBMTraining) (w : world E) : world E :=
  {| eng := FreeTraining lib (_model_pointer s) (eng w);
     trace := trace w ++ [CallFreeTraining (_model_pointer s)] |}.

(** [p] is a candidate with a score the engine answered for it: some call
    of [get_interaction_score] on the candidate returned the score. *)
Definition scored_by {E : Type} (lib : native_lib E) (s : NativeEBMInteraction)
    (p : list Z * float) : Prop :=
  exists w w', get_interaction_score lib s (fst p) w = (inr (snd p), w').

(** The world after [NativeEBMInteraction.close]. *)
Definition released_interaction {E : Type} (lib : native_lib E)
    (s : NativeEBMInteraction) (w : world E) : world E :=
  {| eng := FreeInteraction lib (_interaction_pointer s) (eng w);
     trace := trace w ++ [CallFreeInteraction (_interaction_pointer s)] |}.

(** [w'] continues [w] with engine calls none of which releases a training
    handle. *)
Definition continues {E : Type} (w w' : world E) : Prop :=
  exists tr, trace w' = trace w ++ tr /\ count_free_training tr = O.

(** A computation that never releases a training handle. *)
Definition keeps_handle {E A : Type} (m : M E A) : Prop :=
  forall w, continues w (snd (m w)).

(** The running minimum after a sweep of steps that all answer 0.0. *)
Definition settle (indexes : list Z) (m : float) : float :=
  fold_left (fun m _ => py_min 0%float m) indexes m.

(** The feature types [convert_features_to_c] accepts, and the structure it
    builds for a feature it accepts. *)
Definition recognized (f : feature) : bool :=
  (type f =? "categorical")%string || (type f =? "continuous")%string.

Definition feature_to_c (f : feature) : EbmCoreFeature :=
  {| featureType :=
       if (type f =? "categorical")%string then FeatureTypeNominal
       else FeatureTypeOrdinal;
     hasMissing := 1 * (if has_missing f then 1 else 0);
     countBins := n_bins f |}.

(** The handle the engine answers when asked to initialise training for
    [model_type]; there is no initialiser for an unrecognised model type. *)
Definition training_handle {E : Type} (lib : native_lib E) (model_type : string)
    (n_classes : Z) (args : training_args) (e : E) : option pointer :=
  if (model_type =? "classification")%string then
    Some (fst (InitializeTrainingClassification lib n_classes args e))
  else if (model_type =? "regression")%string then
    Some (fst (InitializeTrainingRegression lib args e))
  else None.

(** The same for interaction scoring. *)
Definition interaction_handle {E : Type} (lib : native_lib E) (model_type : string)
    (n_classes : Z) (args : interaction_args) (e : E) : option pointer :=
  if (model_type =? "classification")%string then
    Some (fst (InitializeInteractionClassification lib n_classes args e))
  else if (model_type =? "regression")%string then
    Some (fst (InitializeInteractionRegression lib args e))
  else None.

(** How a construction ended: the kind of its failure, or the handle the
    new session holds. *)
Definition construction_outcome {A : Type} (handle_of : A -> pointer) (r : exn + A)
    : error_kind + pointer :=
  match r with
  | inl e => inl (kind_of e)
  | inr s => inr (handle_of s)
  end.

(** What the outcome of a construction is, from the features and the
    engine's answer. *)
Definition expected_outcome (features : list feature) (answer : option pointer)
    : error_kind + pointer :=
  if forallb recognized features then
    match answer with
    | None => inl InvalidArgument
    | Some p => if p =? 0 then inl AllocationFailure else inr p
    end
  else inl InvalidArgument.

(** The rounds [first], ..., [stop - 1]: Python's [range(first, stop)] for
    [0 <= first]. *)
Definition later_rounds (first stop : Z) : list Z :=
  map Z.of_nat (seq (Z.to_nat first) (Z.to_nat (stop - first))).

(** The round index a run returns, when it returns. *)
Definition returned_round {W : Type}
    (run : (exn + (list (option tensor) * float * Z)) * W) : option Z :=
  match fst run with
  | inr (_, _, index) => Some index
  | inl _ => None
  end.

(** The per-round metrics of the early-stopping scenario. *)
Definition scenario_metrics : list float :=
  [1.0; 0.995; 0.994; 0.994]%float.

(** The candidates and scores of the ranking scenario. *)
Definition scenario_candidates : list (list Z) :=
  [[0; 1]; [0; 2]; [1; 2]; [0; 3]; [1; 3]].

Definition scenario_scores : list float := [0.9; 0.9; 0.5; 0.2; 0.1]%float.

(** A strictly decreasing sequence whose every step exceeds the tolerance,
    as the loop tests it: [b < a] and [b + tolerance < a] for neighbours
    [a], [b]. *)
Fixpoint improving (tolerance : float) (metrics : list float) : bool :=
  match metrics with
  | a :: (b :: _) as rest =>
      (b <? a)%float && (b + tolerance <? a)%float && improving tolerance rest
  | _ => true
  end.

(** Adding the tolerance to a metric does not take it below itself, as is
    the case for every tolerance that is not negative. *)
Definition tolerated (tolerance : float) (metrics : list float) : bool :=
  forallb (fun m => negb (m + tolerance <? m)%float) metrics.

(** A regression session on one main effect over one feature. *)
Definition replay_session : NativeEBMTraining :=
  Replay.session "regression" 0 [Replay.continuous 3] [Replay.main_effect 0].

(** The boosting loop alone, on that session with one episode per training
    step, replaying [metrics]. *)
Definition replay_rounds (metrics : list float) (tolerance : float)
    (run_length : Z) (rounds : list Z) (st : boost_state)
    (w : world Replay.replay) :=
  boost_loop Replay.lib replay_session
    1 0.01%float 2 2 1 tolerance run_length rounds st w.

(** The invariant between rounds of an improving run: before an even round
    the counter is 0; before an odd round it is 1 and the baseline is the
    running minimum [p]. *)
Definition between_rounds (even_round : bool) (p : float) (st : boost_state) : Prop :=
  min_metric st = p
  /\ (if even_round then no_change_run_length st = 0
      else no_change_run_length st = 1 /\ bp_metric st = p).

(** [a] does not come after [b] in descending order of keys. *)
Definition not_below {A : Type} (key : A -> float) (a b : A) : Prop :=
  (key a <? key b)%float = false.

(** The pairs [get_interactions] keeps: the first [n] of the ranking. *)
Definition top (n : Z) (scored : list (list Z * float)) : list (list Z * float) :=
  firstn (Z.to_nat n) (sorted_reverse snd scored).

(** Cutting a flat list of indexes by successive counts, as the reader of
    [feature_combination_indexes] does. *)
Fixpoint split_by_counts (counts : list Z) (flat : list Z) : list (list Z) :=
  match counts with
  | [] => []
  | c :: rest =>
      firstn (Z.to_nat c) flat :: split_by_counts rest (skipn (Z.to_nat c) flat)
  end.

(** The call [__init__] makes into the engine for a model type it knows. *)
Definition training_init_call (model_type : string) (n_classes : Z)
    (args : training_args) : call :=
  if (model_type =? "classification")%string then
    CallInitializeTrainingClassification n_classes args
  else CallInitializeTrainingRegression args.

Definition interaction_init_call (model_type : string) (n_classes : Z)
    (args : interaction_args) : call :=
  if (model_type =? "classification")%string then
    CallInitializeInteractionClassification n_classes args
  else CallInitializeInteractionRegression args.

(** The calls of the updates of one training step: each tensor the engine
    proposed is applied next. *)
Definition update_calls (self : NativeEBMTraining) (index : Z)
    (learning_rate : float) (max_tree_splits min_cases_for_split : Z)
    (tensors : list pointer) : list call :=
  flat_map
    (fun tensor =>
       [CallGenerateModelFeatureCombinationUpdate (_model_pointer self) index
          learning_rate max_tree_splits min_cases_for_split;
        CallApplyModelFeatureCombinationUpdate (_model_pointer self) index tensor])
    tensors.

(** The sessions whose training steps update the model. *)
Definition updating (self : NativeEBMTraining) : bool :=
  negb (_model_type self =? "classification")%string || (2 <=? _n_classes self).

(** The sessions whose models are tensors. *)
Definition has_tensors (self : NativeEBMTraining) : bool :=
  negb ((_model_type self =? "classification")%string && (_n_classes self <=? 1)).

(** The number of elements of a tensor of a given shape: [np.prod(shape)]. *)
Definition size_of (shape : list Z) : Z := fold_right Z.mul 1 shape.

(** Whether a list index is in range: [-len <= i < len]. *)
Definition in_range {A : Type} (l : list A) (i : Z) : Prop :=
  - Z.of_nat (List.length l) <= i < Z.of_nat (List.length l).

(** What reading one model tensor amounts to: [outcome] is the result of
    asking the engine once ([c], answered by [answer]) for the tensor of
    combination [i] in world [w].  The world is moved by that one call; a
    null answer is a [MemoryError]; a result is never the "no tensor" marker,
    and a tensor has the shape of the combination and the data read at the
    pointer the engine answered. *)
Definition tensor_read {E : Type} (lib : native_lib E) (self : NativeEBMTraining)
    (i : Z) (w : world E) (c : call) (answer : pointer * E)
    (outcome : (exn + option tensor) * world E) : Prop :=
  snd outcome = {| eng := snd answer; trace := trace w ++ [c] |}
  /\ (fst answer = 0 -> exists msg, fst outcome = inl (MemoryError msg))
  /\ match fst outcome with
     | inr None => False
     | inr (Some t) =>
         fst answer <> 0
         /\ fst (_get_feature_combination_shape self i w) = inr (tensor_shape t)
         /\ read_doubles lib (fst answer) (size_of (tensor_shape t)) (snd answer)
            = Some (tensor_data t)
     | inl e => kind_of e <> EngineFailure
     end.

(** What extracting a whole model amounts to: one call [c i] per
    combination, in order; on success one tensor per combination, of the
    combination's shape; on failure the calls stop with the failing
    combination. *)
Definition model_read {E : Type} (self : NativeEBMTraining) (w : world E)
    (c : Z -> call) (outcome : (exn + list (option tensor)) * world E) : Prop :=
  let indexes := range (Z.of_nat (List.length (_feature_combinations self))) in
  match outcome with
  | (inr model, w') =>
      trace w' = trace w ++ map c indexes
      /\ Forall2 (fun i t =>
                    exists array,
                      t = Some array
                      /\ fst (_get_feature_combination_shape self i w)
                         = inr (tensor_shape array))
                 indexes model
  | (inl e, w') =>
      exists k,
        (k < List.length indexes)%nat
        /\ trace w' = trace w ++ map c (firstn (S k) indexes)
        /\ kind_of e <> EngineFailure
  end.

(** The running minimum of the loop: [min(curr_metric, min_metric)] over
    the metrics of successive training steps. *)
Definition running_min (metrics : list float) (m : float) : float :=
  fold_left (fun m curr_metric => py_min curr_metric m) metrics m.

(** [c] is a metric some training step of the session returned. *)
Definition step_metric {E : Type} (lib : native_lib E) (self : NativeEBMTraining)
    (learning_rate : float) (max_tree_splits min_cases_for_split : Z)
    (training_step_episodes : Z) (c : float) : Prop :=
  exists i w w',
    training_step lib self i learning_rate max_tree_splits min_cases_for_split
      training_step_episodes w = (inr c, w').

(** [m] is in [l] and nothing in [l] is below it. *)
Definition least (m : float) (l : list float) : Prop :=
  In m l /\ Forall (fun x => (x <? m)%float = false) l.

Definition no_nan (l : list float) : bool :=
  forallb (fun x => negb (is_nan x)) l.

(** The calls made between two worlds of one run. *)
Definition calls_since {E : Type} (w w' : world E) : list call :=
  skipn (List.length (trace w)) (trace w').

Definition is_generate (c : call) : bool :=
  match c with
  | CallGenerateModelFeatureCombinationUpdate _ _ _ _ _ => true
  | _ => false
  end.

Definition is_apply (c : call) : bool :=
  match c with
  | CallApplyModelFeatureCombinationUpdate _ _ _ => true
  | _ => false
  end.

Definition count_calls (f : call -> bool) (tr : list call) : nat :=
  List.length (filter f tr).

(** The world [w'] continues [w] with calls of which [k] are proposals of
    an update and [k] are applications of one. *)
Definition updates {E : Type} (k : nat) (w w' : world E) : Prop :=
  exists tr,
    trace w' = trace w ++ tr
    /\ count_calls is_generate tr = k /\ count_calls is_apply tr = k.

(** ** Sentences of the specification that the code does not satisfy *)

(** C1 as the specification words it: the returned [min_metric] of a
    single-class classification run is still +infinity. *)
Definition single_class_metric_stays_infinite : Prop :=
  forall (E : Type) (lib : native_lib E)
         nc fs fcs Xt yt st Xv yv sv bags seed lr mts mcs tse episodes tol rl name
         (w : world E) model m index w',
    nc <= 1 ->
    cyclic_gradient_boost lib "classification" nc fs fcs Xt yt st Xv yv sv bags seed
      lr mts mcs tse episodes tol rl name w = (inr (model, m, index), w') ->
    m = infinity.

(** C2 as the specification words it: the scenario stops at round 3. *)
Definition scenario_stops_at_round_three : Prop :=
  returned_round (Replay.boost "regression" 0 scenario_metrics 1 4 0.01 2) = Some 3.

(** C3 as the specification words it: the stall counter is 0 at the end of
    every round. *)
Definition stall_counter_stays_zero : Prop :=
  forall metrics tolerance run_length n,
    improving tolerance metrics = true ->
    0 < n <= Z.of_nat (List.length metrics) ->
    exists st brk w,
      replay_rounds metrics tolerance run_length (range n) boost_start
        (Replay.start 1 (map Some metrics)) = (inr (st, brk), w)
      /\ no_change_run_length st = 0.

(** C9 as the specification words it: the only InvalidArgument-kind failure
    of a construction is an unrecognised model type, and the only
    AllocationFailure-kind failure is a null handle from the engine. *)
Definition construction_fails_as_specified : Prop :=
  forall (E : Type) (lib : native_lib E)
         mt nc fs fcs Xt yt st Xv yv sv bags seed (w : world E),
    let trained :=
      construction_outcome _model_pointer
        (fst (NativeEBMTraining_init lib mt nc fs fcs Xt yt st Xv yv sv bags seed w)) in
    (trained = inl AllocationFailure <->
     training_handle lib mt nc
       (training_init_args nc (map feature_to_c fs) fcs Xt yt st Xv yv sv bags seed)
       (eng w) = Some 0)
    /\ (trained = inl InvalidArgument <->
        mt <> "classification"%string /\ mt <> "regression"%string)
    /\ (forall p, trained = inr p -> p <> 0).

(** * Properties *)

(** ** The monad *)

Lemma bind_inr {E A B : Type} (m : M E A) (k : A -> M E B) w a w' :
  m w = (inr a, w') -> bind m k w = k a w'.
Proof. intros H. unfold bind. rewrite H. reflexivity. Qed.

Lemma bind_inl {E A B : Type} (m : M E A) (k : A -> M E B) w e w' :
  m w = (inl e, w') -> bind m k w = (inl e, w').
Proof. intros H. unfold bind. rewrite H. reflexivity. Qed.

Lemma bind_inv_inr {E A B : Type} (m : M E A) (k : A -> M E B) w b w' :
  bind m k w = (inr b, w') ->
  exists a w1, m w = (inr a, w1) /\ k a w1 = (inr b, w').
Proof.
  unfold bind. destruct (m w) as [[e | a] w1]; intros H.
  - discriminate.
  - exists a, w1. split; [reflexivity | exact H].
Qed.

(** ** Training steps that do nothing *)

Section NoStep.

Context {E : Type} (lib : native_lib E).

Lemma degenerate_guard (self : NativeEBMTraining) :
  degenerate self ->
  negb (_model_type self =? "classification")%string || (2 <=? _n_classes self) = false.
Proof.
  intros [Hty Hn]. rewrite Hty. simpl.
  apply Z.leb_gt. lia.
Qed.

Lemma degenerate_marker (self : NativeEBMTraining) :
  degenerate self ->
  (_model_type self =? "classification")%string && (_n_classes self <=? 1) = true.
Proof.
  intros [Hty Hn]. rewrite Hty. simpl.
  apply Z.leb_le. exact Hn.
Qed.

Lemma training_step_degenerate (self : NativeEBMTraining) i lr mts mcs tse w :
  degenerate self ->
  training_step lib self i lr mts mcs tse w = (inr 0%float, w).
Proof.
  intros Hd. unfold training_step.
  rewrite (degenerate_guard self Hd). reflexivity.
Qed.

Lemma training_step_no_episode (self : NativeEBMTraining) i lr mts mcs tse w :
  tse <= 0 ->
  training_step lib self i lr mts mcs tse w = (inr 0%float, w).
Proof.
  intros Hle. unfold training_step.
  replace (Z.to_nat tse) with O by lia.
  destruct (negb _ || _); reflexivity.
Qed.

Lemma settle_zero indexes : settle indexes 0%float = 0%float.
Proof.
  induction indexes as [| i rest IH]; simpl; [reflexivity | exact IH].
Qed.

Lemma settle_infinity indexes :
  indexes <> [] -> settle indexes infinity = 0%float.
Proof.
  destruct indexes as [| i rest]; [congruence | intros _].
  simpl. apply settle_zero.
Qed.

Lemma boost_sweep_still (self : NativeEBMTraining) lr mts mcs tse :
  (forall i w, training_step lib self i lr mts mcs tse w = (inr 0%float, w)) ->
  forall indexes m w,
    boost_sweep lib self lr mts mcs tse indexes m w = (inr (settle indexes m), w).
Proof.
  intros Hstep. induction indexes as [| i rest IH]; intros m w; simpl.
  - reflexivity.
  - rewrite (bind_inr _ _ _ _ _ (Hstep i w)). apply IH.
Qed.

Lemma boost_round_inr (self : NativeEBMTraining) nfc lr mts mcs tse tol rl i st w m w' :
  boost_sweep lib self lr mts mcs tse (range nfc) (min_metric st) w = (inr m, w') ->
  boost_round lib self nfc lr mts mcs tse tol rl i st w =
  (inr ({| min_metric := m; episode_index := i;
           no_change_run_length :=
             fst (fst (early_stopping tol rl m (no_change_run_length st) (bp_metric st)));
           bp_metric :=
             snd (fst (early_stopping tol rl m (no_change_run_length st) (bp_metric st))) |},
        snd (early_stopping tol rl m (no_change_run_length st) (bp_metric st))), w').
Proof.
  intros H. unfold boost_round. rewrite (bind_inr _ _ _ _ _ H). reflexivity.
Qed.

Lemma boost_round_inl (self : NativeEBMTraining) nfc lr mts mcs tse tol rl i st w e w' :
  boost_sweep lib self lr mts mcs tse (range nfc) (min_metric st) w = (inl e, w') ->
  boost_round lib self nfc lr mts mcs tse tol rl i st w = (inl e, w').
Proof.
  intros H. unfold boost_round. apply bind_inl. exact H.
Qed.

Lemma boost_loop_break (self : NativeEBMTraining) nfc lr mts mcs tse tol rl i rest st w st' w' :
  boost_round lib self nfc lr mts mcs tse tol rl i st w = (inr (st', true), w') ->
  boost_loop lib self nfc lr mts mcs tse tol rl (i :: rest) st w = (inr (st', true), w').
Proof.
  intros H. cbn [boost_loop]. rewrite (bind_inr _ _ _ _ _ H). reflexivity.
Qed.

Lemma boost_loop_continue (self : NativeEBMTraining) nfc lr mts mcs tse tol rl i rest st w st' w' :
  boost_round lib self nfc lr mts mcs tse tol rl i st w = (inr (st', false), w') ->
  boost_loop lib self nfc lr mts mcs tse tol rl (i :: rest) st w =
  boost_loop lib self nfc lr mts mcs tse tol rl rest st' w'.
Proof.
  intros H. cbn [boost_loop]. rewrite (bind_inr _ _ _ _ _ H). reflexivity.
Qed.

Lemma boost_loop_raise (self : NativeEBMTraining) nfc lr mts mcs tse tol rl i rest st w e w' :
  boost_round lib self nfc lr mts mcs tse tol rl i st w = (inl e, w') ->
  boost_loop lib self nfc lr mts mcs tse tol rl (i :: rest) st w = (inl e, w').
Proof.
  intros H. cbn [boost_loop]. apply bind_inl. exact H.
Qed.

(** With steps that do nothing the whole loop runs without touching the
    world, and once a sweep over at least one combination has run the
    running minimum is 0.0. *)
Lemma boost_loop_still (self : NativeEBMTraining) nfc lr mts mcs tse tol rl :
  (forall i w, training_step lib self i lr mts mcs tse w = (inr 0%float, w)) ->
  forall episodes st w,
    (min_metric st = infinity \/ min_metric st = 0%float) ->
    exists st' brk,
      boost_loop lib self nfc lr mts mcs tse tol rl episodes st w = (inr (st', brk), w)
      /\ (min_metric st' = infinity \/ min_metric st' = 0%float)
      /\ (episodes = [] -> st' = st)
      /\ (episodes <> [] -> range nfc <> [] -> min_metric st' = 0%float)
      /\ (range nfc = [] -> min_metric st' = min_metric st).
Proof.
  intros Hstep. induction episodes as [| i rest IH]; intros st w Hst.
  - exists st, false. simpl. repeat split; try congruence; auto.
  - assert (Hm : settle (range nfc) (min_metric st) = infinity
                 \/ settle (range nfc) (min_metric st) = 0%float).
    { destruct (range nfc) as [| j l] eqn:Hr.
      - exact Hst.
      - right. destruct Hst as [-> | ->].
        + apply settle_infinity. discriminate.
        + apply settle_zero. }
    assert (Hz : range nfc <> [] -> settle (range nfc) (min_metric st) = 0%float).
    { intros Hne. destruct Hst as [-> | ->].
      - apply settle_infinity. exact Hne.
      - apply settle_zero. }
    assert (He : range nfc = [] -> settle (range nfc) (min_metric st) = min_metric st).
    { intros ->. reflexivity. }
    pose proof (boost_round_inr self nfc lr mts mcs tse tol rl i st w _ _
                  (boost_sweep_still self lr mts mcs tse Hstep _ _ w)) as Hround.
    destruct (snd (early_stopping tol rl _ _ _)) eqn:Hbrk.
    + eexists _, true. split; [apply boost_loop_break; exact Hround |]. simpl.
      repeat split; try congruence; auto.
    + rewrite (boost_loop_continue _ _ _ _ _ _ _ _ _ _ _ _ _ _ Hround).
      match goal with
      | |- context [boost_loop _ _ _ _ _ _ _ _ _ rest ?s _] =>
          destruct (IH s w Hm) as (st' & brk & Hrun & Hmin & Hnil & Hpos & Hemp)
      end.
      exists st', brk. split; [exact Hrun |].
      split; [exact Hmin |].
      split; [congruence |].
      split.
      * intros _ Hne. destruct rest as [| j l].
        -- rewrite (Hnil eq_refl). simpl. auto.
        -- apply Hpos; [discriminate | exact Hne].
      * intros Hr. rewrite (Hemp Hr). simpl. auto.
Qed.

End NoStep.

(** ** Construction and release of a training session *)

Section Session.

Context {E : Type} (lib : native_lib E).

Lemma convert_features_recognized features w :
  forallb recognized features = true ->
  convert_features_to_c (E := E) features w = (inr (map feature_to_c features), w).
Proof.
  induction features as [| f rest IH]; intros H; simpl in *.
  - reflexivity.
  - apply andb_true_iff in H. destruct H as [Hf Hrest].
    unfold recognized in Hf. unfold feature_to_c at 1.
    destruct (type f =? "categorical")%string eqn:Hc.
    + unfold bind at 1. unfold ret at 1.
      rewrite (bind_inr _ _ _ _ _ (IH Hrest)). reflexivity.
    + simpl in Hf. rewrite Hf.
      unfold bind at 1. unfold ret at 1.
      rewrite (bind_inr _ _ _ _ _ (IH Hrest)). reflexivity.
Qed.

Lemma convert_features_unrecognized features w :
  forallb recognized features = false ->
  convert_features_to_c (E := E) features w =
  (inl (AttributeError "Unrecognized feature[type]"), w).
Proof.
  induction features as [| f rest IH]; intros H; simpl in *.
  - discriminate.
  - apply andb_false_iff in H. unfold recognized in H.
    destruct (type f =? "categorical")%string eqn:Hc.
    + destruct H as [H | H]; [discriminate |].
      unfold bind at 1. unfold ret at 1.
      rewrite (bind_inl _ _ _ _ _ (IH H)). reflexivity.
    + destruct (type f =? "continuous")%string eqn:Hk.
      * destruct H as [H | H]; [discriminate |].
        unfold bind at 1. unfold ret at 1.
        rewrite (bind_inl _ _ _ _ _ (IH H)). reflexivity.
      * reflexivity.
Qed.

(** What a successful construction leaves in the session. *)
Lemma init_fields mt nc fs fcs Xt yt st Xv yv sv bags seed w s w1 :
  NativeEBMTraining_init lib mt nc fs fcs Xt yt st Xv yv sv bags seed w = (inr s, w1) ->
  _model_type s = mt /\ _n_classes s = nc /\ _features s = fs
  /\ _feature_combinations s = fcs /\ _model_pointer s <> 0.
Proof.
  unfold NativeEBMTraining_init. intros H.
  apply bind_inv_inr in H. destruct H as (fa & w0 & _ & H).
  destruct (mt =? "classification")%string.
  - apply bind_inv_inr in H. destruct H as (p & w2 & _ & H).
    destruct (is_null p) eqn:Hp; [discriminate |].
    inversion H; subst; simpl. repeat split; try reflexivity.
    unfold is_null in Hp. apply Z.eqb_neq. exact Hp.
  - destruct (mt =? "regression")%string; [| discriminate].
    apply bind_inv_inr in H. destruct H as (p & w2 & _ & H).
    destruct (is_null p) eqn:Hp; [discriminate |].
    inversion H; subst; simpl. repeat split; try reflexivity.
    unfold is_null in Hp. apply Z.eqb_neq. exact Hp.
Qed.

Lemma closing_training {A : Type} (acquire : M E NativeEBMTraining)
    (body : NativeEBMTraining -> M E A) w s w1 res w2 :
  acquire w = (inr s, w1) ->
  body s w1 = (res, w2) ->
  closing acquire (NativeEBMTraining_close lib) body w = (res, released lib s w2).
Proof.
  intros Ha Hb. unfold closing. rewrite (bind_inr _ _ _ _ _ Ha).
  rewrite Hb. reflexivity.
Qed.

Lemma closing_not_acquired {R A : Type} (acquire : M E R) (close : R -> M E unit)
    (body : R -> M E A) w e w1 :
  acquire w = (inl e, w1) ->
  closing acquire close body w = (inl e, w1).
Proof.
  intros Ha. unfold closing. apply bind_inl. exact Ha.
Qed.

(** ** Model extraction *)

Lemma range_length n : List.length (range (Z.of_nat n)) = n.
Proof.
  unfold range. rewrite length_map, length_seq. apply Nat2Z.id.
Qed.

Lemma range_nonempty n : 0 < n -> range n <> [].
Proof.
  intros H. unfold range.
  destruct (Z.to_nat n) eqn:Hn; [lia | simpl; discriminate].
Qed.

Lemma range_of_nat_empty n : range (Z.of_nat n) = [] -> n = O.
Proof.
  intros H. rewrite <- (range_length n), H. reflexivity.
Qed.

Lemma collect_model_markers (get : Z -> M E (option tensor)) :
  (forall i w, get i w = (inr None, w)) ->
  forall indexes model w,
    collect_model get indexes model w =
    (inr (model ++ repeat None (List.length indexes)), w).
Proof.
  intros Hget. induction indexes as [| i rest IH]; intros model w; simpl.
  - rewrite app_nil_r. reflexivity.
  - rewrite (bind_inr _ _ _ _ _ (Hget i w)), IH, <- app_assoc. reflexivity.
Qed.

Lemma best_model_marker (self : NativeEBMTraining) i w :
  degenerate self ->
  _get_best_model_feature_combination lib self i w = (inr None, w).
Proof.
  intros Hd. unfold _get_best_model_feature_combination.
  rewrite (degenerate_marker self Hd). reflexivity.
Qed.

Lemma current_model_marker (self : NativeEBMTraining) i w :
  degenerate self ->
  _get_current_model_feature_combination lib self i w = (inr None, w).
Proof.
  intros Hd. unfold _get_current_model_feature_combination.
  rewrite (degenerate_marker self Hd). reflexivity.
Qed.

Lemma get_best_model_degenerate (self : NativeEBMTraining) w :
  degenerate self ->
  get_best_model lib self w =
  (inr (repeat None (List.length (_feature_combinations self))), w).
Proof.
  intros Hd. unfold get_best_model.
  rewrite (collect_model_markers _ (fun i w => best_model_marker self i w Hd)).
  rewrite range_length. reflexivity.
Qed.

Lemma get_current_model_degenerate (self : NativeEBMTraining) w :
  degenerate self ->
  get_current_model lib self w =
  (inr (repeat None (List.length (_feature_combinations self))), w).
Proof.
  intros Hd. unfold get_current_model.
  rewrite (collect_model_markers _ (fun i w => current_model_marker self i w Hd)).
  rewrite range_length. reflexivity.
Qed.

(** C6: for a classification model with [n_classes <= 1], [get_best_model]
    and [get_current_model] answer the "no tensor" marker [None] for every
    feature combination, and the world (the engine's state and the trace of
    engine calls) is left as it was: no engine call is made. *)
Theorem degenerate_model_is_all_markers (self : NativeEBMTraining) (w : world E) :
  _model_type self = "classification"%string ->
  _n_classes self <= 1 ->
  (forall i, _get_best_model_feature_combination lib self i w = (inr None, w))
  /\ (forall i, _get_current_model_feature_combination lib self i w = (inr None, w))
  /\ get_best_model lib self w =
     (inr (repeat None (List.length (_feature_combinations self))), w)
  /\ get_current_model lib self w =
     (inr (repeat None (List.length (_feature_combinations self))), w).
Proof.
  intros Hty Hn.
  assert (Hd : degenerate self) by (split; assumption).
  split; [intros i; apply best_model_marker; exact Hd |].
  split; [intros i; apply current_model_marker; exact Hd |].
  split.
  - apply get_best_model_degenerate. exact Hd.
  - apply get_current_model_degenerate. exact Hd.
Qed.

End Session.

(** C6 on a single-class session with two feature combinations: both
    models are two markers, and the world is untouched. *)
Lemma degenerate_model_is_all_markers_witness :
  let self := Replay.session "classification" 1
                [Replay.continuous 3; Replay.continuous 4]
                [Replay.main_effect 0; Replay.main_effect 1] in
  let w := Replay.start 1 [] in
  (_model_type self = "classification"%string /\ _n_classes self <= 1)
  /\ get_best_model Replay.lib self w = (inr [None; None], w)
  /\ get_current_model Replay.lib self w = (inr [None; None], w).
Proof.
  intros self w.
  split; [split; [reflexivity | simpl; lia] |].
  apply (degenerate_model_is_all_markers Replay.lib self w); [reflexivity | simpl; lia].
Defined.

(** ** Runs whose training steps do nothing *)

Section StillRuns.

Context {E : Type} (lib : native_lib E).

(** A run whose training steps leave the world alone and answer 0.0: the
    loop makes no engine call; what the run returns is decided by
    [get_best_model] alone, and the metric is 0.0 as soon as one sweep over
    at least one combination has run. *)
Lemma still_run mt nc fs fcs Xt yt st Xv yv sv bags seed lr mts mcs tse
    episodes tol rl name w s w1 :
  NativeEBMTraining_init lib mt nc fs fcs Xt yt st Xv yv sv bags seed w = (inr s, w1) ->
  (forall i w, training_step lib s i lr mts mcs tse w = (inr 0%float, w)) ->
  exists last brk,
    boost_loop lib s (Z.of_nat (List.length fcs)) lr mts mcs tse tol rl
      (range episodes) boost_start w1 = (inr (last, brk), w1)
    /\ min_metric last =
       (if (0 <? episodes) && negb (Nat.eqb (List.length fcs) 0) then 0%float
        else infinity)
    /\ cyclic_gradient_boost lib mt nc fs fcs Xt yt st Xv yv sv bags seed
         lr mts mcs tse episodes tol rl name w =
       (let (res, w2) := get_best_model lib s w1 in
        (match res with
         | inl e => inl e
         | inr model => inr (model, min_metric last, episode_index last)
         end, released lib s w2)).
Proof.
  intros Hinit Hstep.
  destruct (boost_loop_still lib s (Z.of_nat (List.length fcs)) lr mts mcs tse tol rl
              Hstep (range episodes) boost_start w1 (or_introl eq_refl))
    as (last & brk & Hrun & _ & Hnil & Hpos & Hemp).
  exists last, brk. split; [exact Hrun |]. split.
  - destruct (0 <? episodes) eqn:Hep; simpl.
    + apply Z.ltb_lt in Hep. destruct (List.length fcs) eqn:Hlen; simpl.
      * rewrite Hemp; reflexivity.
      * apply Hpos; [apply range_nonempty; exact Hep |].
        apply range_nonempty. lia.
    + apply Z.ltb_ge in Hep. rewrite Hnil; [reflexivity |].
      unfold range. replace (Z.to_nat episodes) with O by lia. reflexivity.
  - unfold cyclic_gradient_boost.
    destruct (get_best_model lib s w1) as [res w2] eqn:Hbest.
    apply closing_training with (w1 := w1); [exact Hinit |].
    rewrite (bind_inr _ _ _ _ _ Hrun).
    unfold bind. rewrite Hbest. destruct res; reflexivity.
Qed.

(** C10: with [training_step_episodes = 0], a training step on any feature
    combination makes no engine call (the world is unchanged) and returns the
    metric 0.0 it was initialised with; in a run the boosting loop then makes
    no engine call either and, once a round over at least one combination has
    run, its running minimum (the [min_metric] that is returned) is 0.0. *)
Theorem no_episode_step_returns_zero :
  (forall (self : NativeEBMTraining) i lr mts mcs (w : world E),
      training_step lib self i lr mts mcs 0 w = (inr 0%float, w))
  /\ (forall mt nc fs fcs Xt yt st Xv yv sv bags seed lr mts mcs
        episodes tol rl name w s w1,
         NativeEBMTraining_init lib mt nc fs fcs Xt yt st Xv yv sv bags seed w
         = (inr s, w1) ->
         0 < episodes -> fcs <> [] ->
         (exists last brk,
            boost_loop lib s (Z.of_nat (List.length fcs)) lr mts mcs 0 tol rl
              (range episodes) boost_start w1 = (inr (last, brk), w1)
            /\ min_metric last = 0%float)
         /\ (forall model m index w',
               cyclic_gradient_boost lib mt nc fs fcs Xt yt st Xv yv sv bags seed
                 lr mts mcs 0 episodes tol rl name w = (inr (model, m, index), w') ->
               m = 0%float)).
Proof.
  split.
  - intros. apply training_step_no_episode. lia.
  - intros mt nc fs fcs Xt yt st Xv yv sv bags seed lr mts mcs
      episodes tol rl name w s w1 Hinit Hep Hfcs.
    destruct (still_run mt nc fs fcs Xt yt st Xv yv sv bags seed lr mts mcs 0
                episodes tol rl name w s w1 Hinit
                (fun i w => training_step_no_episode lib s i lr mts mcs 0 w (Z.le_refl 0)))
      as (last & brk & Hrun & Hmin & Hcgb).
    assert (Hzero : min_metric last = 0%float).
    { rewrite Hmin. apply Z.ltb_lt in Hep. rewrite Hep.
      destruct fcs; [congruence | reflexivity]. }
    split.
    + exists last, brk. split; assumption.
    + intros model m index w' Hres. rewrite Hcgb in Hres.
      destruct (get_best_model lib s w1) as [[e | model'] w2]; [discriminate |].
      inversion Hres; subst. exact Hzero.
Qed.

(** C1 (as amended): in a classification run with at most one class
    ([n_classes <= 1]) no update step is performed: every training step makes
    no engine call, and between the construction of the session and its
    release the run makes no engine call at all.  Every combination's model is
    the "no tensor" marker.  The returned [min_metric] is the 0.0 that the
    training steps answer as soon as one round over at least one combination
    has run; it is still +infinity only when no training step ran at all. *)
Theorem single_class_run_makes_no_update
    nc fs fcs Xt yt st Xv yv sv bags seed lr mts mcs tse episodes tol rl name
    (w : world E) s w1 :
  nc <= 1 ->
  NativeEBMTraining_init lib "classification" nc fs fcs Xt yt st Xv yv sv bags seed w
  = (inr s, w1) ->
  (forall i w', training_step lib s i lr mts mcs tse w' = (inr 0%float, w'))
  /\ exists index,
       cyclic_gradient_boost lib "classification" nc fs fcs Xt yt st Xv yv sv bags seed
         lr mts mcs tse episodes tol rl name w =
       (inr (repeat None (List.length fcs),
             (if (0 <? episodes) && negb (Nat.eqb (List.length fcs) 0) then 0%float
              else infinity),
             index),
        released lib s w1).
Proof.
  intros Hnc Hinit.
  destruct (init_fields lib _ _ _ _ _ _ _ _ _ _ _ _ _ _ _ Hinit)
    as (Hty & Hn & _ & Hfcs & _).
  assert (Hd : degenerate s) by (split; [exact Hty | rewrite Hn; exact Hnc]).
  assert (Hstep : forall i w', training_step lib s i lr mts mcs tse w' = (inr 0%float, w')).
  { intros i w'. apply training_step_degenerate. exact Hd. }
  split; [exact Hstep |].
  destruct (still_run _ _ _ _ _ _ _ _ _ _ _ _ lr mts mcs tse episodes tol rl name
              _ _ _ Hinit Hstep) as (last & brk & _ & Hmin & Hcgb).
  exists (episode_index last). rewrite Hcgb.
  rewrite (get_best_model_degenerate lib s w1 Hd), Hfcs, Hmin. reflexivity.
Qed.

End StillRuns.

(** C1 (as amended) on a single-class run of five rounds over one
    combination: the metric returned is 0.0 and the only engine calls are the
    construction and the release. *)
Lemma single_class_run_makes_no_update_witness :
  exists index,
    Replay.boost "classification" 1 [] 1 5 0.01 2 =
    (inr ([None], 0%float, index),
     released Replay.lib (Replay.session "classification" 1
                            [Replay.continuous 3] [Replay.main_effect 0])
       (snd (NativeEBMTraining_init Replay.lib "classification" 1
               [Replay.continuous 3] [Replay.main_effect 0]
               Replay.no_data Replay.no_data None Replay.no_data Replay.no_data None
               0 0 (Replay.start 1 [])))).
Proof.
  refine (proj2 (single_class_run_makes_no_update Replay.lib 1
            [Replay.continuous 3] [Replay.main_effect 0]
            Replay.no_data Replay.no_data None Replay.no_data Replay.no_data None 0 0
            0.01%float 2 2 1 5 0.01%float 2 "replay" (Replay.start 1 [])
            (Replay.session "classification" 1
               [Replay.continuous 3] [Replay.main_effect 0])
            _ _ _)).
  - lia.
  - reflexivity.
Defined.

Lemma float_zero_is_not_infinity : 0%float <> infinity.
Proof.
  intros H.
  assert (H' : (0 <? 1)%float = (infinity <? 1)%float) by (rewrite H; reflexivity).
  vm_compute in H'. discriminate.
Qed.

(** C1, counterexample: one class, one combination, one round, and the run
    returns the metric 0.0. *)
Lemma single_class_metric_is_zero : ~ single_class_metric_stays_infinite.
Proof.
  intros H.
  apply float_zero_is_not_infinity.
  refine (H _ Replay.lib 1 [Replay.continuous 3] [Replay.main_effect 0]
            Replay.no_data Replay.no_data None Replay.no_data Replay.no_data None 0 0
            0.01%float 2 2 1 1 0%float (-1) "replay"%string (Replay.start 1 [])
            [None] 0%float 0 _ _ _).
  - lia.
  - vm_compute. reflexivity.
Qed.

(** ** Early stopping *)

Section EarlyStopping.

Context {E : Type} (lib : native_lib E).

Lemma early_stopping_break tol rl m nc bp :
  snd (early_stopping tol rl m nc bp) =
  (rl >=? 0) && (fst (fst (early_stopping tol rl m nc bp)) >=? rl).
Proof. reflexivity. Qed.

Lemma boost_round_inv (self : NativeEBMTraining) nfc lr mts mcs tse tol rl i st w st1 b w1 :
  boost_round lib self nfc lr mts mcs tse tol rl i st w = (inr (st1, b), w1) ->
  episode_index st1 = i
  /\ boost_sweep lib self lr mts mcs tse (range nfc) (min_metric st) w
     = (inr (min_metric st1), w1)
  /\ no_change_run_length st1 =
     fst (fst (early_stopping tol rl (min_metric st1)
                 (no_change_run_length st) (bp_metric st)))
  /\ bp_metric st1 =
     snd (fst (early_stopping tol rl (min_metric st1)
                 (no_change_run_length st) (bp_metric st)))
  /\ b = (rl >=? 0) && (no_change_run_length st1 >=? rl).
Proof.
  unfold boost_round. intros H.
  apply bind_inv_inr in H. destruct H as (m & w0 & Hsweep & H).
  unfold ret in H. inversion H; subst; clear H. simpl.
  repeat split; try reflexivity. exact Hsweep.
Qed.

Lemma boost_loop_inv_cons (self : NativeEBMTraining) nfc lr mts mcs tse tol rl
    i rest st w st' brk w' :
  boost_loop lib self nfc lr mts mcs tse tol rl (i :: rest) st w = (inr (st', brk), w') ->
  (brk = true /\ boost_round lib self nfc lr mts mcs tse tol rl i st w
                 = (inr (st', true), w'))
  \/ exists st1 w1,
       boost_round lib self nfc lr mts mcs tse tol rl i st w = (inr (st1, false), w1)
       /\ boost_loop lib self nfc lr mts mcs tse tol rl rest st1 w1 = (inr (st', brk), w').
Proof.
  cbn [boost_loop]. intros H.
  apply bind_inv_inr in H. destruct H as ([st1 b] & w1 & Hround & H).
  destruct b.
  - unfold ret in H. inversion H; subst. left. split; [reflexivity | exact Hround].
  - right. exists st1, w1. split; assumption.
Qed.

(** The outcome of the loop over any list of round indexes. *)
Lemma boost_loop_outcome (self : NativeEBMTraining) nfc lr mts mcs tse tol rl :
  forall episodes st w st' brk w',
    boost_loop lib self nfc lr mts mcs tse tol rl episodes st w = (inr (st', brk), w') ->
    (brk = true <-> episodes <> [] /\ 0 <= rl /\ rl <= no_change_run_length st')
    /\ (episodes <> [] ->
        (brk = false -> episode_index st' = List.last episodes 0)
        /\ In (episode_index st') episodes)
    /\ (episodes = [] -> st' = st).
Proof.
  induction episodes as [| i rest IH]; intros st w st' brk w' H.
  - simpl in H. unfold ret in H. inversion H; subst.
    split; [| split]; try congruence.
    split; [discriminate | intros [Hne _]; congruence].
  - apply boost_loop_inv_cons in H.
    destruct H as [[-> Hround] | (st1 & w1 & Hround & Hrest)].
    + apply boost_round_inv in Hround.
      destruct Hround as (Hi & _ & _ & _ & Hb).
      symmetry in Hb. apply andb_true_iff in Hb. destruct Hb as [Hb1 Hb2].
      split; [| split]; try discriminate.
      * split; [intros _ | reflexivity].
        split; [discriminate | lia].
      * intros _. split; [discriminate | left; congruence].
    + apply boost_round_inv in Hround.
      destruct Hround as (Hi & _ & _ & _ & Hb).
      destruct (IH _ _ _ _ _ Hrest) as (Hbrk & Hlast & Hnil).
      destruct rest as [| j rest'].
      * clear Hbrk Hlast Hnil.
        simpl in Hrest. unfold ret in Hrest.
        injection Hrest as Hst Hbf Hw. subst st' brk w'.
        symmetry in Hb. apply andb_false_iff in Hb.
        split; [| split]; try discriminate.
        -- split; [discriminate | intros (_ & H1 & H2); destruct Hb; lia].
        -- intros _. split; [intros _; exact Hi | left; congruence].
      * assert (Hne : j :: rest' <> []) by discriminate.
        destruct (Hlast Hne) as [Hl Hin].
        split; [| split]; try discriminate.
        -- rewrite Hbrk. split; intros (_ & H1 & H2); repeat split; auto; discriminate.
        -- intros _. split; [exact Hl | right; exact Hin].
Qed.

Lemma range_last n : 0 < n -> List.last (range n) 0 = n - 1.
Proof.
  intros H. unfold range.
  replace (Z.to_nat n) with (S (Z.to_nat (n - 1))) by lia.
  rewrite seq_S, map_app. cbn [map]. rewrite last_last. lia.
Qed.

Lemma range_empty n : n <= 0 -> range n = [].
Proof.
  intros H. unfold range. replace (Z.to_nat n) with O by lia. reflexivity.
Qed.

Lemma boost_loop_app (self : NativeEBMTraining) nfc lr mts mcs tse tol rl :
  forall first rest st w,
    boost_loop lib self nfc lr mts mcs tse tol rl (first ++ rest) st w =
    match boost_loop lib self nfc lr mts mcs tse tol rl first st w with
    | (inr (st1, false), w1) => boost_loop lib self nfc lr mts mcs tse tol rl rest st1 w1
    | stopped => stopped
    end.
Proof.
  induction first as [| i first IH]; intros rest st w.
  - reflexivity.
  - cbn [app boost_loop]. unfold bind.
    destruct (boost_round lib self nfc lr mts mcs tse tol rl i st w)
      as [[e | [st1 brk]] w1].
    + reflexivity.
    + destruct brk; [reflexivity | apply IH].
Qed.

Lemma range_split k n :
  0 <= k <= n -> range n = range k ++ later_rounds k n.
Proof.
  intros H. unfold range, later_rounds.
  replace (Z.to_nat n) with (Z.to_nat k + Z.to_nat (n - k))%nat by lia.
  rewrite seq_app, map_app. reflexivity.
Qed.

(** C4: whatever metrics the training steps yield, the boosting loop over
    [data_n_episodes] rounds is left through [break] if and only if
    [early_stopping_run_length >= 0] and, at the end of the round it stops in,
    the stall counter has reached [early_stopping_run_length]; a loop that is
    not left through [break] has run its last round, [data_n_episodes - 1];
    in particular, with a negative [early_stopping_run_length] such as -1 the
    loop never breaks and runs all rounds.  (A run in which an engine call
    raises has no outcome to speak of.)  The same holds of every prefix of the
    rounds, and the loop is its first [k] rounds, continued with the later
    rounds only when those [k] rounds ended without [break]: the loop stops
    at the first round at whose end the counter has reached the run length. *)
Theorem break_iff_stall_counter_reaches_run_length
    (self : NativeEBMTraining) nfc lr mts mcs tse tol
    (early_stopping_run_length data_n_episodes : Z) st (w : world E) :
  match boost_loop lib self nfc lr mts mcs tse tol early_stopping_run_length
          (range data_n_episodes) st w with
  | (inl _, _) => True
  | (inr (st', brk), _) =>
      (brk = true <->
       0 < data_n_episodes /\ 0 <= early_stopping_run_length
       /\ early_stopping_run_length <= no_change_run_length st')
      /\ (brk = false -> 0 < data_n_episodes ->
          episode_index st' = data_n_episodes - 1)
      /\ (early_stopping_run_length < 0 -> brk = false)
      /\ (data_n_episodes <= 0 -> st' = st)
  end
  /\ (forall k, 0 <= k <= data_n_episodes ->
        boost_loop lib self nfc lr mts mcs tse tol early_stopping_run_length
          (range data_n_episodes) st w =
        match boost_loop lib self nfc lr mts mcs tse tol early_stopping_run_length
                (range k) st w with
        | (inr (st_k, false), w_k) =>
            boost_loop lib self nfc lr mts mcs tse tol early_stopping_run_length
              (later_rounds k data_n_episodes) st_k w_k
        | stopped => stopped
        end).
Proof.
  split.
  - destruct (boost_loop _ _ _ _ _ _ _ _ _ _ _ _) as [[e | [st' brk]] w'] eqn:Hrun;
      [exact I |].
    destruct (boost_loop_outcome _ _ _ _ _ _ _ _ _ _ _ _ _ _ Hrun)
      as (Hbrk & Hlast & Hnil).
    assert (Hne : 0 < data_n_episodes <-> range data_n_episodes <> []).
    { split; [apply range_nonempty |].
      intros H. destruct (Z.ltb_spec 0 data_n_episodes) as [Hlt | Hge]; [exact Hlt |].
      exfalso. apply H. apply range_empty. exact Hge. }
    split; [| split; [| split]].
    + rewrite Hbrk, Hne. reflexivity.
    + intros Hb Hpos. destruct (Hlast (proj1 Hne Hpos)) as [Hl _].
      rewrite (Hl Hb). apply range_last. exact Hpos.
    + intros Hneg. destruct brk; [| reflexivity].
      destruct (proj1 Hbrk eq_refl) as (_ & H0 & _). lia.
    + intros Hle. apply Hnil. apply range_empty. exact Hle.
  - intros k Hk. rewrite (range_split k data_n_episodes Hk).
    apply boost_loop_app.
Qed.

End EarlyStopping.

(** Runs of the replaying engine on the metrics [1.0, 0.995, 0.994, 0.994]
    with tolerance 0.01: with early stopping disabled all four rounds run,
    the counter going up to 4; with a run length of 2 the loop breaks at
    round 1; with a run length of 0 it breaks at round 0. *)
Example early_stopping_disabled_runs_all_rounds :
  fst (replay_rounds scenario_metrics 0.01 (-1) (range 4) boost_start
         (Replay.start 1 (map Some scenario_metrics))) =
  inr ({| min_metric := 0.994; episode_index := 3;
          no_change_run_length := 4; bp_metric := 1 |}, false).
Proof. reflexivity. Qed.

Example run_length_two_breaks_at_round_one :
  fst (replay_rounds scenario_metrics 0.01 2 (range 4) boost_start
         (Replay.start 1 (map Some scenario_metrics))) =
  inr ({| min_metric := 0.995; episode_index := 1;
          no_change_run_length := 2; bp_metric := 1 |}, true).
Proof. reflexivity. Qed.

Example run_length_zero_breaks_at_round_zero :
  fst (replay_rounds scenario_metrics 0.01 0 (range 4) boost_start
         (Replay.start 1 (map Some scenario_metrics))) =
  inr ({| min_metric := 1; episode_index := 0;
          no_change_run_length := 1; bp_metric := 1 |}, true).
Proof. reflexivity. Qed.

(** ** Release on every way out *)

Section Release.

Context {E : Type} (lib : native_lib E).

Lemma continues_refl (w : world E) : continues w w.
Proof. exists []. rewrite app_nil_r. split; reflexivity. Qed.

Lemma continues_trans (w1 w2 w3 : world E) :
  continues w1 w2 -> continues w2 w3 -> continues w1 w3.
Proof.
  intros (t1 & H1 & C1) (t2 & H2 & C2). exists (t1 ++ t2). split.
  - rewrite H2, H1, app_assoc. reflexivity.
  - unfold count_free_training in *. rewrite filter_app, length_app. lia.
Qed.

Lemma keeps_ret {A : Type} (a : A) : keeps_handle (E := E) (ret a).
Proof. intros w. apply continues_refl. Qed.

Lemma keeps_raise {A : Type} (e : exn) : keeps_handle (E := E) (raise (A := A) e).
Proof. intros w. apply continues_refl. Qed.

Lemma keeps_bind {A B : Type} (m : M E A) (k : A -> M E B) :
  keeps_handle m -> (forall a, keeps_handle (k a)) -> keeps_handle (bind m k).
Proof.
  intros Hm Hk w. unfold bind. specialize (Hm w).
  destruct (m w) as [[e | a] w1]; simpl in *.
  - exact Hm.
  - apply continues_trans with w1; [exact Hm | apply Hk].
Qed.

Lemma keeps_lib_call {A : Type} (c : call) (f : E -> A * E) :
  is_free_training c = false -> keeps_handle (lib_call c f).
Proof.
  intros Hc w. unfold lib_call. destruct (f (eng w)) as [a e']. simpl.
  exists [c]. split; [reflexivity |].
  unfold count_free_training. simpl. rewrite Hc. reflexivity.
Qed.

Lemma keeps_if {A : Type} (b : bool) (m1 m2 : M E A) :
  keeps_handle m1 -> keeps_handle m2 -> keeps_handle (if b then m1 else m2).
Proof. destruct b; auto. Qed.

Create HintDb keeps.
#[local] Hint Resolve keeps_ret keeps_raise keeps_lib_call keeps_if : keeps.

Lemma keeps_training_step_episodes_loop (self : NativeEBMTraining) i lr mts mcs n :
  forall gain out,
    keeps_handle (training_step_episodes_loop lib self i lr mts mcs n gain out).
Proof.
  induction n as [| n IH]; intros gain out; simpl.
  - auto with keeps.
  - apply keeps_bind; [auto with keeps |]. intros [p gain'].
    apply keeps_if; [auto with keeps |].
    apply keeps_bind; [auto with keeps |]. intros [rc out'].
    apply keeps_if; [auto with keeps | apply IH].
Qed.

Lemma keeps_training_step (self : NativeEBMTraining) i lr mts mcs tse :
  keeps_handle (training_step lib self i lr mts mcs tse).
Proof.
  unfold training_step.
  apply keeps_if; [apply keeps_training_step_episodes_loop | auto with keeps].
Qed.

Lemma keeps_boost_sweep (self : NativeEBMTraining) lr mts mcs tse indexes :
  forall m, keeps_handle (boost_sweep lib self lr mts mcs tse indexes m).
Proof.
  induction indexes as [| i rest IH]; intros m; simpl.
  - auto with keeps.
  - apply keeps_bind; [apply keeps_training_step | intros c; apply IH].
Qed.

Lemma keeps_boost_round (self : NativeEBMTraining) nfc lr mts mcs tse tol rl i st :
  keeps_handle (boost_round lib self nfc lr mts mcs tse tol rl i st).
Proof.
  unfold boost_round.
  apply keeps_bind; [apply keeps_boost_sweep | intros m; auto with keeps].
Qed.

Lemma keeps_boost_loop (self : NativeEBMTraining) nfc lr mts mcs tse tol rl episodes :
  forall st, keeps_handle (boost_loop lib self nfc lr mts mcs tse tol rl episodes st).
Proof.
  induction episodes as [| i rest IH]; intros st; cbn [boost_loop].
  - auto with keeps.
  - apply keeps_bind; [apply keeps_boost_round |]. intros [st' brk].
    apply keeps_if; [auto with keeps | apply IH].
Qed.

Lemma keeps_shape_dimensions features attrs :
  forall dims, keeps_handle (shape_dimensions (E := E) features attrs dims).
Proof.
  induction attrs as [| a rest IH]; intros dims; simpl.
  - auto with keeps.
  - destruct (py_getitem features a); [apply IH | auto with keeps].
Qed.

Lemma keeps_get_feature_combination_shape (self : NativeEBMTraining) i :
  keeps_handle (_get_feature_combination_shape (E := E) self i).
Proof.
  unfold _get_feature_combination_shape.
  destruct (py_getitem _ i); [| auto with keeps].
  apply keeps_bind; [apply keeps_shape_dimensions | intros d; auto with keeps].
Qed.

Lemma keeps_make_ndarray p shape : keeps_handle (make_ndarray lib p shape).
Proof.
  intros w. unfold make_ndarray.
  destruct (read_doubles lib p _ (eng w)); apply continues_refl.
Qed.

Lemma keeps_get_best_model_feature_combination (self : NativeEBMTraining) i :
  keeps_handle (_get_best_model_feature_combination lib self i).
Proof.
  unfold _get_best_model_feature_combination.
  apply keeps_if; [auto with keeps |].
  apply keeps_bind; [auto with keeps |]. intros p.
  apply keeps_if; [auto with keeps |].
  apply keeps_bind; [apply keeps_get_feature_combination_shape |]. intros shape.
  apply keeps_bind; [apply keeps_make_ndarray | intros a; auto with keeps].
Qed.

Lemma keeps_collect_model (get : Z -> M E (option tensor)) indexes :
  (forall i, keeps_handle (get i)) ->
  forall model, keeps_handle (collect_model get indexes model).
Proof.
  intros Hget. induction indexes as [| i rest IH]; intros model; simpl.
  - auto with keeps.
  - apply keeps_bind; [apply Hget | intros t; apply IH].
Qed.

Lemma keeps_get_best_model (self : NativeEBMTraining) :
  keeps_handle (get_best_model lib self).
Proof.
  unfold get_best_model. apply keeps_collect_model.
  intros i. apply keeps_get_best_model_feature_combination.
Qed.

(** The body of the [with] block of [cyclic_gradient_boost]. *)
Lemma keeps_boosting_body (self : NativeEBMTraining) nfc lr mts mcs tse tol rl episodes st :
  keeps_handle
    ('(st', _) <- boost_loop lib self nfc lr mts mcs tse tol rl episodes st ;;
     model_update <- get_best_model lib self ;;
     ret (model_update, min_metric st', episode_index st')).
Proof.
  apply keeps_bind; [apply keeps_boost_loop |]. intros [st' brk].
  apply keeps_bind; [apply keeps_get_best_model | intros m; auto with keeps].
Qed.

(** A failing call ends the training step at once. *)
Lemma training_step_generate_fails (self : NativeEBMTraining) i lr mts mcs n gain out w :
  fst (fst (GenerateModelFeatureCombinationUpdate lib
              (_model_pointer self) i lr mts mcs gain (eng w))) = 0 ->
  training_step_episodes_loop lib self i lr mts mcs (S n) gain out w =
  (inl (MemoryError "Out of memory in GenerateModelFeatureCombinationUpdate"),
   {| eng := snd (GenerateModelFeatureCombinationUpdate lib
                    (_model_pointer self) i lr mts mcs gain (eng w));
      trace := trace w ++
               [CallGenerateModelFeatureCombinationUpdate
                  (_model_pointer self) i lr mts mcs] |}).
Proof.
  intros H. simpl. unfold bind at 1. unfold lib_call at 1.
  destruct (GenerateModelFeatureCombinationUpdate lib _ _ _ _ _ _ _)
    as [[p gain'] e']. simpl in *. subst p. reflexivity.
Qed.

Lemma training_step_apply_fails (self : NativeEBMTraining) i lr mts mcs n gain out w :
  let generated := GenerateModelFeatureCombinationUpdate lib
                     (_model_pointer self) i lr mts mcs gain (eng w) in
  let applied := ApplyModelFeatureCombinationUpdate lib
                   (_model_pointer self) i (fst (fst generated)) out (snd generated) in
  fst (fst generated) <> 0 ->
  fst (fst applied) <> 0 ->
  training_step_episodes_loop lib self i lr mts mcs (S n) gain out w =
  (inl (Exception "Out of memory in ApplyModelFeatureCombinationUpdate"),
   {| eng := snd applied;
      trace := trace w ++
               [CallGenerateModelFeatureCombinationUpdate
                  (_model_pointer self) i lr mts mcs;
                CallApplyModelFeatureCombinationUpdate
                  (_model_pointer self) i (fst (fst generated))] |}).
Proof.
  intros generated applied Hg Ha. subst applied generated. simpl.
  unfold bind at 1. unfold lib_call at 1.
  destruct (GenerateModelFeatureCombinationUpdate lib _ _ _ _ _ _ _)
    as [[p gain'] e']. simpl in *.
  apply Z.eqb_neq in Hg. unfold is_null. rewrite Hg.
  unfold bind at 1. unfold lib_call at 1. simpl.
  destruct (ApplyModelFeatureCombinationUpdate lib _ _ _ _ _)
    as [[rc out'] e'']. simpl in *.
  apply Z.eqb_neq in Ha. rewrite Ha. simpl. unfold raise.
  rewrite <- app_assoc. reflexivity.
Qed.

End Release.

Section ReleaseOnExit.

Context {E : Type} (lib : native_lib E).


End ReleaseOnExit.

(** A run whose second update is refused by the engine: the exception is the
    result, and the release is the last call. *)
Example refused_update_aborts_the_run :
  let run := cyclic_gradient_boost Replay.lib "regression" 0
               [Replay.continuous 3] [Replay.main_effect 0]
               Replay.no_data Replay.no_data None Replay.no_data Replay.no_data None 0 0
               0.01%float 2 2 1 5 0.01%float (-1) "replay"
               (Replay.start 1 [Some 1%float; None; Some 0.5%float]) in
  fst run = inl (Exception "Out of memory in ApplyModelFeatureCombinationUpdate")
  /\ map is_free_training (trace (snd run)) = [false; false; false; false; false; true]
  /\ Replay.answers (eng (snd run)) = [Some 0.5%float].
Proof. vm_compute. repeat split. Qed.

(** ** Construction failures *)

Section Construction.

Context {E : Type} (lib : native_lib E).

Lemma training_construction mt nc fs fcs Xt yt st Xv yv sv bags seed (w : world E) :
  construction_outcome _model_pointer
    (fst (NativeEBMTraining_init lib mt nc fs fcs Xt yt st Xv yv sv bags seed w)) =
  expected_outcome fs
    (training_handle lib mt nc
       (training_init_args nc (map feature_to_c fs) fcs Xt yt st Xv yv sv bags seed)
       (eng w)).
Proof.
  unfold NativeEBMTraining_init, expected_outcome, training_handle.
  destruct (forallb recognized fs) eqn:Hfs.
  - rewrite (bind_inr _ _ _ _ _ (convert_features_recognized fs w Hfs)).
    destruct (mt =? "classification")%string.
    + unfold bind, lib_call.
      destruct (InitializeTrainingClassification lib _ _ _) as [p e']. simpl.
      unfold is_null. destruct (p =? 0); reflexivity.
    + destruct (mt =? "regression")%string; [| reflexivity].
      unfold bind, lib_call.
      destruct (InitializeTrainingRegression lib _ _) as [p e']. simpl.
      unfold is_null. destruct (p =? 0); reflexivity.
  - rewrite (bind_inl _ _ _ _ _ (convert_features_unrecognized fs w Hfs)).
    reflexivity.
Qed.

Lemma interaction_construction mt nc fs X y scores (w : world E) :
  construction_outcome _interaction_pointer
    (fst (NativeEBMInteraction_init lib mt nc fs X y scores w)) =
  expected_outcome fs
    (interaction_handle lib mt nc
       (interaction_init_args nc (map feature_to_c fs) X y scores) (eng w)).
Proof.
  unfold NativeEBMInteraction_init, expected_outcome, interaction_handle.
  destruct (forallb recognized fs) eqn:Hfs.
  - rewrite (bind_inr _ _ _ _ _ (convert_features_recognized fs w Hfs)).
    destruct (mt =? "classification")%string.
    + unfold bind, lib_call.
      destruct (InitializeInteractionClassification lib _ _ _) as [p e']. simpl.
      unfold is_null. destruct (p =? 0); reflexivity.
    + destruct (mt =? "regression")%string; [| reflexivity].
      unfold bind, lib_call.
      destruct (InitializeInteractionRegression lib _ _) as [p e']. simpl.
      unfold is_null. destruct (p =? 0); reflexivity.
  - rewrite (bind_inl _ _ _ _ _ (convert_features_unrecognized fs w Hfs)).
    reflexivity.
Qed.

(** Reading the three cases off [expected_outcome]. *)
Lemma expected_outcome_cases fs answer :
  (expected_outcome fs answer = inl AllocationFailure <->
   forallb recognized fs = true /\ answer = Some 0)
  /\ (expected_outcome fs answer = inl InvalidArgument <->
      forallb recognized fs = false \/ answer = None)
  /\ (forall p, expected_outcome fs answer = inr p ->
        forallb recognized fs = true /\ answer = Some p /\ p <> 0)
  /\ expected_outcome fs answer <> inl EngineFailure.
Proof.
  unfold expected_outcome.
  destruct (forallb recognized fs); [destruct answer as [p |] |].
  - destruct (Z.eqb_spec p 0) as [-> | Hp].
    + repeat split; try discriminate; auto.
      intros [H | H]; discriminate.
    + repeat split; try discriminate.
      * intros [_ H]. congruence.
      * intros [H | H]; discriminate.
      * congruence.
      * congruence.
  - repeat split; try discriminate; auto.
    intros [_ H]; discriminate.
  - repeat split; try discriminate; auto.
    intros [H _]; discriminate.
Qed.

Lemma handle_none_training mt nc args (e : E) :
  training_handle lib mt nc args e = None <->
  mt <> "classification"%string /\ mt <> "regression"%string.
Proof.
  unfold training_handle.
  destruct (String.eqb_spec mt "classification");
    [| destruct (String.eqb_spec mt "regression")].
  - split; [discriminate | intros [H _]; contradiction].
  - split; [discriminate | intros [_ H]; contradiction].
  - split; [intros _; split; assumption | reflexivity].
Qed.

Lemma handle_none_interaction mt nc args (e : E) :
  interaction_handle lib mt nc args e = None <->
  mt <> "classification"%string /\ mt <> "regression"%string.
Proof.
  unfold interaction_handle.
  destruct (String.eqb_spec mt "classification");
    [| destruct (String.eqb_spec mt "regression")].
  - split; [discriminate | intros [H _]; contradiction].
  - split; [discriminate | intros [_ H]; contradiction].
  - split; [intros _; split; assumption | reflexivity].
Qed.


End Construction.


(** ** Shapes of model tensors *)

Section Shape.

Context {E : Type}.

Lemma shape_dimensions_lookup features attrs fs :
  Forall2 (fun a f => py_getitem features a = Some f) attrs fs ->
  forall dims (w : world E),
    shape_dimensions features attrs dims w = (inr (dims ++ map n_bins fs), w).
Proof.
  induction 1 as [| a f attrs fs Ha _ IH]; intros dims w; simpl.
  - rewrite app_nil_r. reflexivity.
  - rewrite Ha, IH, <- app_assoc. reflexivity.
Qed.

(** C5: for every feature combination of the session and every feature
    table, the computed shape lists the bin counts of the combination's
    features in reverse feature order, one axis per feature of the
    combination, and for classification with [n_classes > 2] one trailing
    axis of length [n_classes] is appended. *)
Theorem shape_is_reversed_bin_counts
    (self : NativeEBMTraining) (feature_combination_index : Z)
    (feature_combination : feature_combination) (fs : list feature) (w : world E) :
  py_getitem (_feature_combinations self) feature_combination_index
  = Some feature_combination ->
  Forall2 (fun a f => py_getitem (_features self) a = Some f)
          (attributes feature_combination) fs ->
  _get_feature_combination_shape self feature_combination_index w =
  (inr (rev (map n_bins fs)
        ++ (if (_model_type self =? "classification")%string && (_n_classes self >? 2)
            then [_n_classes self] else [])), w)
  /\ List.length (rev (map n_bins fs)) = List.length (attributes feature_combination).
Proof.
  intros Hfc Hfs. split.
  - unfold _get_feature_combination_shape. rewrite Hfc.
    rewrite (bind_inr _ _ _ _ _ (shape_dimensions_lookup _ _ _ Hfs [] w)).
    simpl. destruct (_ && _).
    + reflexivity.
    + rewrite app_nil_r. reflexivity.
  - rewrite length_rev, length_map. symmetry. eapply Forall2_length. exact Hfs.
Qed.

End Shape.

(** The scenario of the specification: combinations [[0],[1]] over bin
    counts [3,4] under regression have shapes [3] and [4]. *)
Lemma shape_is_reversed_bin_counts_witness :
  let self := Replay.session "regression" 0
                [Replay.continuous 3; Replay.continuous 4]
                [Replay.main_effect 0; Replay.main_effect 1] in
  let w := Replay.start 1 [] in
  _get_feature_combination_shape self 0 w = (inr [3], w)
  /\ _get_feature_combination_shape self 1 w = (inr [4], w).
Proof.
  intros self w. split.
  - refine (proj1 (shape_is_reversed_bin_counts self 0 (Replay.main_effect 0)
                     [Replay.continuous 3] w _ _)).
    + reflexivity.
    + repeat constructor.
  - refine (proj1 (shape_is_reversed_bin_counts self 1 (Replay.main_effect 1)
                     [Replay.continuous 4] w _ _)).
    + reflexivity.
    + repeat constructor.
Defined.

(** An interaction of features 0 and 1 with three classes: the axes are the
    bin counts 4 and 3, then the class axis. *)
Example shape_of_multiclass_interaction :
  let self := Replay.session "classification" 3
                [Replay.continuous 3; Replay.continuous 4]
                [{| attributes := [0; 1] |}] in
  fst (_get_feature_combination_shape self 0 (Replay.start 1 [])) = inr [4; 3; 3].
Proof. reflexivity. Qed.

(** ** The order of binary64 numbers

    What the proofs need of [<] on floats, derived from the specification of
    the primitive comparison ([ltb_spec], [eqb_spec]) over [spec_float]. *)

Section FloatOrder.

Ltac compare_cases :=
  repeat match goal with
    | H : context [Z.compare ?a ?b] |- _ => destruct (Z.compare_spec a b)
    | |- context [Z.compare ?a ?b] => destruct (Z.compare_spec a b)
    | H : context [Pos.compare_cont Eq ?a ?b] |- _ =>
        change (Pos.compare_cont Eq a b) with (Pos.compare a b) in H
    | |- context [Pos.compare_cont Eq ?a ?b] =>
        change (Pos.compare_cont Eq a b) with (Pos.compare a b)
    | H : context [Pos.compare ?a ?b] |- _ => destruct (Pos.compare_spec a b)
    | |- context [Pos.compare ?a ?b] => destruct (Pos.compare_spec a b)
    end;
  subst; simpl in *; try discriminate; try reflexivity; try lia.

Lemma SFltb_asym x y : SFltb x y = true -> SFltb y x = false.
Proof.
  unfold SFltb.
  destruct x as [sx | sx | | sx mx ex], y as [sy | sy | | sy my ey];
    simpl; try discriminate; try reflexivity;
    try (destruct sx; simpl; try discriminate; try reflexivity);
    try (destruct sy; simpl; try discriminate; try reflexivity);
    compare_cases.
Qed.

Lemma SFltb_neg_trans x y z :
  y <> S754_nan ->
  SFltb x y = false -> SFltb y z = false -> SFltb x z = false.
Proof.
  unfold SFltb. intros Hy.
  destruct x as [sx | sx | | sx mx ex], y as [sy | sy | | sy my ey],
           z as [sz | sz | | sz mz ez];
    try congruence; simpl; try discriminate; try reflexivity;
    try (destruct sx; simpl; try discriminate; try reflexivity);
    try (destruct sy; simpl; try discriminate; try reflexivity);
    try (destruct sz; simpl; try discriminate; try reflexivity);
    intros; compare_cases.
Qed.

Lemma SFeqb_refl x : x <> S754_nan -> SFeqb x x = true.
Proof.
  unfold SFeqb. intros Hx.
  destruct x as [sx | sx | | sx mx ex]; try congruence; simpl;
    try (destruct sx; simpl; try reflexivity); compare_cases.
Qed.

Lemma is_nan_false x : is_nan x = false -> Prim2SF x <> S754_nan.
Proof.
  unfold is_nan. rewrite eqb_spec. intros H Hn. rewrite Hn in H. discriminate.
Qed.

Lemma ltb_asym (a b : float) : (a <? b)%float = true -> (b <? a)%float = false.
Proof. rewrite !ltb_spec. apply SFltb_asym. Qed.

Lemma ltb_irrefl (a : float) : (a <? a)%float = false.
Proof.
  destruct (a <? a)%float eqn:H; [| reflexivity].
  rewrite (ltb_asym a a H) in H. discriminate.
Qed.

Lemma ltb_neg_trans (a b c : float) :
  is_nan b = false ->
  (a <? b)%float = false -> (b <? c)%float = false -> (a <? c)%float = false.
Proof.
  intros Hb. rewrite !ltb_spec. apply SFltb_neg_trans. apply is_nan_false. exact Hb.
Qed.

Lemma infinity_not_below (a : float) : (infinity <? a)%float = false.
Proof.
  rewrite ltb_spec. change (Prim2SF infinity) with (S754_infinity false).
  unfold SFltb. destruct (Prim2SF a) as [s | s | | s m e]; simpl;
    try reflexivity; destruct s; reflexivity.
Qed.

End FloatOrder.

(** ** The early-stopping scenario *)

(** C2, counterexample: the run of the scenario returns round 1, not 3. *)
Lemma scenario_does_not_reach_round_three : ~ scenario_stops_at_round_three.
Proof.
  unfold scenario_stops_at_round_three. vm_compute. discriminate.
Qed.

Lemma range_two n :
  2 <= n -> exists rest, range n = 0 :: 1 :: rest.
Proof.
  intros H. unfold range.
  replace (Z.to_nat n) with (S (S (Z.to_nat (n - 2)))) by lia.
  simpl. eexists. reflexivity.
Qed.

(** C2 (as amended): with [early_stopping_tolerance = 0.01],
    [early_stopping_run_length = 2] and the per-round metrics
    [1.0, 0.995, 0.994, 0.994], the run stops after round index 1: round 0
    re-anchors the baseline to its own metric 1.0 and so counts as a stall,
    round 1 improves on 1.0 by less than the tolerance and is the second
    stall.  The returned round index is 1 and the returned metric 0.995; the
    engine is asked for two updates only. *)
Theorem scenario_stops_at_round_one (data_n_episodes : Z) :
  2 <= data_n_episodes ->
  let run := Replay.boost "regression" 0 scenario_metrics 1 data_n_episodes 0.01 2 in
  returned_round run = Some 1
  /\ fst run = inr ([Some {| tensor_shape := [3];
                            tensor_data := [0; 0; 0]%float |}], 0.995%float, 1)
  /\ Replay.answers (eng (snd run)) = [Some 0.994; Some 0.994]%float.
Proof.
  intros H. destruct (range_two data_n_episodes H) as [rest Hr].
  unfold Replay.boost, cyclic_gradient_boost. rewrite Hr.
  cbv zeta. vm_compute. repeat split.
Qed.

(** C2 (as amended) with four rounds allowed. *)
Lemma scenario_stops_at_round_one_witness :
  returned_round (Replay.boost "regression" 0 scenario_metrics 1 4 0.01 2) = Some 1.
Proof.
  refine (proj1 (scenario_stops_at_round_one 4 _)). lia.
Defined.

(** ** The stall counter on improving metrics *)


Section Alternation.

Lemma replay_round tolerance run_length index st w m rest :
  Replay.answers (eng w) = Some m :: rest ->
  exists w',
    boost_round Replay.lib replay_session 1 0.01%float 2 2 1 tolerance run_length index st w =
    (inr ({| min_metric := py_min m (min_metric st);
             episode_index := index;
             no_change_run_length :=
               fst (fst (early_stopping tolerance run_length (py_min m (min_metric st))
                           (no_change_run_length st) (bp_metric st)));
             bp_metric :=
               snd (fst (early_stopping tolerance run_length (py_min m (min_metric st))
                           (no_change_run_length st) (bp_metric st))) |},
          snd (early_stopping tolerance run_length (py_min m (min_metric st))
                 (no_change_run_length st) (bp_metric st))), w')
    /\ Replay.answers (eng w') = rest.
Proof.
  intros Hw. destruct w as [[h a] tr]. simpl in Hw. subst a.
  eexists. split.
  - apply boost_round_inr. reflexivity.
  - reflexivity.
Qed.

Lemma alternation tolerance run_length :
  forall metrics n k p st w,
    between_rounds (Z.even (Z.of_nat k)) p st ->
    Replay.answers (eng w) = map Some metrics ->
    match metrics with
    | a :: _ => (p <? a)%float = false
                /\ (Z.even (Z.of_nat k) = false -> (a + tolerance <? p)%float = true)
    | [] => True
    end ->
    improving tolerance metrics = true ->
    tolerated tolerance metrics = true ->
    (0 < n <= List.length metrics)%nat ->
    exists st' brk w',
      replay_rounds metrics tolerance run_length (map Z.of_nat (seq k n)) st w
      = (inr (st', brk), w')
      /\ no_change_run_length st' = (if Z.even (episode_index st') then 1 else 0)
      /\ (run_length < 0 \/ 2 <= run_length ->
          brk = false /\ episode_index st' = Z.of_nat (k + n - 1)).
Proof.
  induction metrics as [| a metrics IH]; intros n k p st w Hinv Hw Hfirst Himp Htol Hn.
  - simpl in Hn. lia.
  - destruct n as [| n]; [lia |].
    destruct Hfirst as [Hpa Hstep]. destruct Hinv as [Hmin Hcnt].
    simpl in Htol. apply andb_true_iff in Htol. destruct Htol as [Ha Htol].
    apply negb_true_iff in Ha.
    destruct (replay_round tolerance run_length (Z.of_nat k) st w a (map Some metrics) Hw)
      as (w1 & Hround & Hw1).
    assert (Hpm : py_min a (min_metric st) = a).
    { unfold py_min. rewrite Hmin, Hpa. reflexivity. }
    rewrite Hpm in Hround.
    (* the counter at the end of round k *)
    assert (Hnc : fst (fst (early_stopping tolerance run_length a
                              (no_change_run_length st) (bp_metric st)))
                  = if Z.even (Z.of_nat k) then 1 else 0).
    { unfold early_stopping. simpl. destruct (Z.even (Z.of_nat k)).
      - rewrite Hcnt. simpl. rewrite Ha. reflexivity.
      - destruct Hcnt as [Hc Hbp]. rewrite Hc, Hbp. simpl.
        rewrite (Hstep eq_refl). reflexivity. }
    assert (Hbp : Z.even (Z.of_nat k) = true ->
                  snd (fst (early_stopping tolerance run_length a
                              (no_change_run_length st) (bp_metric st))) = a).
    { intros He. unfold early_stopping. simpl. rewrite He in Hcnt. rewrite Hcnt.
      reflexivity. }
    assert (Hbrk : run_length < 0 \/ 2 <= run_length ->
                   snd (early_stopping tolerance run_length a
                          (no_change_run_length st) (bp_metric st)) = false).
    { intros Hrl. rewrite early_stopping_break, Hnc.
      apply andb_false_iff.
      destruct Hrl as [Hrl | Hrl]; [left | right].
      - rewrite Z.geb_leb. apply Z.leb_gt. exact Hrl.
      - rewrite Z.geb_leb. apply Z.leb_gt. destruct (Z.even (Z.of_nat k)); lia. }
    unfold replay_rounds. cbn [seq map].
    destruct (snd (early_stopping tolerance run_length a
                     (no_change_run_length st) (bp_metric st))) eqn:Hb.
    + (* the round ends in break *)
      eexists _, true, w1. split; [apply boost_loop_break; exact Hround |].
      simpl. split; [exact Hnc |].
      intros Hrl. specialize (Hbrk Hrl). discriminate.
    + rewrite (boost_loop_continue _ _ _ _ _ _ _ _ _ _ _ _ _ _ _ Hround).
      destruct n as [| n].
      * (* the last round *)
        eexists _, false, w1. split; [reflexivity |].
        simpl. split; [exact Hnc |].
        intros _. split; [reflexivity | f_equal; lia].
      * destruct metrics as [| b metrics]; [simpl in Hn; lia |].
        simpl in Himp. apply andb_true_iff in Himp. destruct Himp as [Himp Hrest].
        apply andb_true_iff in Himp. destruct Himp as [Hba Hbta].
        assert (Hpar : Z.even (Z.of_nat (S k)) = negb (Z.even (Z.of_nat k))).
        { rewrite Nat2Z.inj_succ, Z.even_succ, <- Z.negb_even. reflexivity. }
        match goal with
        | |- context [boost_loop _ _ _ _ _ _ _ _ _ _ ?s w1] =>
            destruct (IH (S n) (S k) a s w1) as (st' & brk & w' & Hrun & Hc & Hl)
        end.
        -- split; [reflexivity |]. rewrite Hpar.
           destruct (Z.even (Z.of_nat k)) eqn:He; simpl.
           ++ split; [exact Hnc | apply Hbp; reflexivity].
           ++ exact Hnc.
        -- exact Hw1.
        -- split; [apply ltb_asym; exact Hba |]. intros _. exact Hbta.
        -- exact Hrest.
        -- exact Htol.
        -- simpl in *. lia.
        -- exists st', brk, w'. split; [exact Hrun |]. split; [exact Hc |].
           intros Hrl. destruct (Hl Hrl) as [H1 H2]. split; [exact H1 |].
           rewrite H2. f_equal. lia.
Qed.

End Alternation.



(** ** Ranking interactions *)

Section FloatEquality.

Lemma SFeqb_not_ltb v x y :
  SFeqb v x = true -> SFeqb v y = true -> SFltb x y = false.
Proof.
  unfold SFeqb, SFltb.
  destruct v as [sv | sv | | sv mv ev], x as [sx | sx | | sx mx ex],
           y as [sy | sy | | sy my ey];
    simpl; try discriminate; try reflexivity;
    try (destruct sv; simpl; try discriminate; try reflexivity);
    try (destruct sx; simpl; try discriminate; try reflexivity);
    try (destruct sy; simpl; try discriminate; try reflexivity);
    repeat match goal with
      | |- context [Z.compare ?a ?b] => destruct (Z.compare_spec a b)
      | |- context [Pos.compare_cont Eq ?a ?b] =>
          change (Pos.compare_cont Eq a b) with (Pos.compare a b)
      | |- context [Pos.compare ?a ?b] => destruct (Pos.compare_spec a b)
      end;
    subst; simpl; try discriminate; try reflexivity; try lia.
Qed.

Lemma eqb_not_ltb (v x y : float) :
  (v =? x)%float = true -> (v =? y)%float = true -> (x <? y)%float = false.
Proof. rewrite !eqb_spec, ltb_spec. apply SFeqb_not_ltb. Qed.

End FloatEquality.

Section StableSort.

Context {A : Type} (key : A -> float).

Lemma insert_desc_perm x l : Permutation (insert_desc key x l) (x :: l).
Proof.
  induction l as [| y ys IH]; simpl.
  - apply Permutation_refl.
  - destruct (key x <? key y)%float.
    + apply Permutation_trans with (y :: x :: ys).
      * apply perm_skip. exact IH.
      * apply perm_swap.
    + apply Permutation_refl.
Qed.

Lemma sorted_reverse_perm l : Permutation (sorted_reverse key l) l.
Proof.
  induction l as [| x l IH]; simpl.
  - apply Permutation_refl.
  - apply Permutation_trans with (x :: sorted_reverse key l).
    + apply insert_desc_perm.
    + apply perm_skip. exact IH.
Qed.

Lemma sorted_reverse_length l : List.length (sorted_reverse key l) = List.length l.
Proof. apply Permutation_length, sorted_reverse_perm. Qed.

Lemma insert_desc_sorted x l :
  is_nan (key x) = false ->
  Forall (fun y => is_nan (key y) = false) l ->
  StronglySorted (not_below key) l ->
  StronglySorted (not_below key) (insert_desc key x l).
Proof.
  intros Hx Hnan Hs. induction Hs as [| y ys Hs IH Hy]; simpl.
  - constructor; constructor.
  - inversion Hnan as [| ? ? Hny Hnys]; subst.
    destruct (key x <? key y)%float eqn:Hxy.
    + constructor; [apply IH; exact Hnys |].
      apply (Permutation_Forall (Permutation_sym (insert_desc_perm x ys))).
      constructor; [| exact Hy].
      unfold not_below. apply ltb_asym. exact Hxy.
    + constructor; [constructor; assumption |].
      constructor; [exact Hxy |].
      apply (Forall_impl (P := (not_below key) y)); [| exact Hy].
      intros z Hyz. unfold not_below in *.
      apply ltb_neg_trans with (key y); assumption.
Qed.

Lemma sorted_reverse_sorted l :
  Forall (fun y => is_nan (key y) = false) l ->
  StronglySorted (not_below key) (sorted_reverse key l).
Proof.
  induction 1 as [| x l Hx Hl IH]; simpl.
  - constructor.
  - apply insert_desc_sorted; [exact Hx | | exact IH].
    apply (Permutation_Forall (Permutation_sym (sorted_reverse_perm l))). exact Hl.
Qed.

(** Stability: the elements whose key equals [v] keep their order. *)
Lemma insert_desc_stable v x l :
  filter (fun y => (v =? key y)%float) (insert_desc key x l) =
  filter (fun y => (v =? key y)%float) (x :: l).
Proof.
  induction l as [| y ys IH].
  - reflexivity.
  - cbn [insert_desc]. destruct (key x <? key y)%float eqn:Hxy; [| reflexivity].
    cbn [filter]. rewrite IH. cbn [filter].
    destruct (v =? key x)%float eqn:Hvx, (v =? key y)%float eqn:Hvy; try reflexivity.
    rewrite (eqb_not_ltb _ _ _ Hvx Hvy) in Hxy. discriminate.
Qed.

Lemma sorted_reverse_stable v l :
  filter (fun y => (v =? key y)%float) (sorted_reverse key l) =
  filter (fun y => (v =? key y)%float) l.
Proof.
  induction l as [| x l IH].
  - reflexivity.
  - cbn [sorted_reverse fold_right]. fold (sorted_reverse key l).
    rewrite insert_desc_stable. cbn [filter]. rewrite IH. reflexivity.
Qed.

Lemma Forall_firstn (P : A -> Prop) k l :
  Forall P l -> Forall P (firstn k l).
Proof.
  intros H. revert k. induction H as [| x l Hx Hl IH]; intros k.
  - destruct k; constructor.
  - destruct k; simpl; constructor; [exact Hx | apply IH].
Qed.

Lemma StronglySorted_firstn (R : A -> A -> Prop) k l :
  StronglySorted R l -> StronglySorted R (firstn k l).
Proof.
  intros Hs. revert k. induction Hs as [| x l Hs IH Hx]; intros k.
  - destruct k; constructor.
  - destruct k; simpl; [constructor |].
    constructor; [apply IH | apply Forall_firstn; exact Hx].
Qed.

Lemma StronglySorted_keys l :
  StronglySorted (not_below key) l ->
  StronglySorted (fun a b => (a <? b)%float = false) (map key l).
Proof.
  induction 1 as [| x l Hs IH Hx]; simpl; constructor.
  - exact IH.
  - apply Forall_map. exact Hx.
Qed.

End StableSort.

Section Ranking.

Context {E : Type} (lib : native_lib E).

Lemma score_interactions_candidates (s : NativeEBMInteraction) candidates :
  forall acc w scored w',
    score_interactions lib s candidates acc w = (inr scored, w') ->
    map fst scored = map fst acc ++ candidates.
Proof.
  induction candidates as [| c rest IH]; intros acc w scored w' H; simpl in H.
  - unfold ret in H. inversion H; subst. rewrite app_nil_r. reflexivity.
  - apply bind_inv_inr in H. destruct H as (score & w1 & _ & H).
    rewrite (IH _ _ _ _ H), map_app, <- app_assoc. reflexivity.
Qed.

Lemma score_interactions_scored (s : NativeEBMInteraction) candidates :
  forall acc w scored w',
    Forall (scored_by lib s) acc ->
    score_interactions lib s candidates acc w = (inr scored, w') ->
    Forall (scored_by lib s) scored.
Proof.
  induction candidates as [| c rest IH]; intros acc w scored w' Hacc H; simpl in H.
  - unfold ret in H. inversion H; subst. exact Hacc.
  - apply bind_inv_inr in H. destruct H as (score & w1 & Hscore & H).
    eapply IH; [| exact H].
    apply Forall_app. split; [exact Hacc |].
    constructor; [| constructor]. exists w, w1. exact Hscore.
Qed.

Lemma closing_interaction {A : Type} (acquire : M E NativeEBMInteraction)
    (body : NativeEBMInteraction -> M E A) w s w1 res w2 :
  acquire w = (inr s, w1) ->
  body s w1 = (res, w2) ->
  closing acquire (NativeEBMInteraction_close lib) body w
  = (res, released_interaction lib s w2).
Proof.
  intros Ha Hb. unfold closing. rewrite (bind_inr _ _ _ _ _ Ha).
  rewrite Hb. reflexivity.
Qed.

Lemma get_interactions_top n candidates mt nc fs X y sc (w : world E) s w1 scored w2 :
  0 <= n ->
  NativeEBMInteraction_init lib mt nc fs X y sc w = (inr s, w1) ->
  score_interactions lib s candidates [] w1 = (inr scored, w2) ->
  get_interactions lib n candidates mt nc fs X y sc w =
  (inr (map fst (top n scored), map snd (top n scored)), released_interaction lib s w2).
Proof.
  intros Hn Hinit Hscore. unfold get_interactions.
  rewrite (bind_inr _ _ _ _ _
             (closing_interaction
                (NativeEBMInteraction_init lib mt nc fs X y sc)
                (fun s => score_interactions lib s candidates [])
                w s w1 _ w2 Hinit Hscore)).
  unfold ret, top, py_slice_to.
  set (ranked := sorted_reverse snd scored).
  assert (Hmin : 0 <= Z.min (Z.of_nat (List.length ranked)) n) by lia.
  apply Z.leb_le in Hmin. rewrite Hmin.
  assert (Hcut : firstn (Z.to_nat (Z.min (Z.of_nat (List.length ranked)) n)) ranked
                 = firstn (Z.to_nat n) ranked).
  { destruct (Z.le_ge_cases (Z.of_nat (List.length ranked)) n) as [Hle | Hge].
    - rewrite Z.min_l by exact Hle. rewrite Nat2Z.id.
      rewrite firstn_all. symmetry. apply firstn_all2. lia.
    - rewrite Z.min_r by exact Hge. reflexivity. }
  rewrite Hcut. reflexivity.
Qed.

(** C7: for every list of candidates and every count [n >= 0], below or
    above the number of candidates, when the engine scores every candidate
    (and no score is a NaN, for which sorting has no meaning),
    [get_interactions] returns exactly [min(n, len(candidates))] pairs and
    raises nothing; the returned scores are non-increasing; candidates with
    equal scores keep their input order (for every score [v], the returned
    pairs scoring [v] are the first ones of the input scoring [v], in input
    order); and every returned combination comes with the score that was
    computed for it (the returned pairs are among the pairs computed, one per
    candidate in the order of the candidates, each holding the score the
    engine answered for its candidate). *)
Theorem interactions_are_ranked
    n candidates mt nc fs X y sc (w : world E) s w1 scored w2 :
  0 <= n ->
  NativeEBMInteraction_init lib mt nc fs X y sc w = (inr s, w1) ->
  score_interactions lib s candidates [] w1 = (inr scored, w2) ->
  forallb (fun p => negb (is_nan (snd p))) scored = true ->
  exists ranked,
    get_interactions lib n candidates mt nc fs X y sc w =
    (inr (map fst ranked, map snd ranked), released_interaction lib s w2)
    /\ map fst scored = candidates
    /\ Forall (scored_by lib s) scored
    /\ List.length ranked = Z.to_nat (Z.min n (Z.of_nat (List.length candidates)))
    /\ StronglySorted (fun a b => (a <? b)%float = false) (map snd ranked)
    /\ (exists dropped, Permutation (ranked ++ dropped) scored)
    /\ (forall v, exists later,
           filter (fun p => (v =? snd p)%float) ranked ++ later =
           filter (fun p => (v =? snd p)%float) scored).
Proof.
  intros Hn Hinit Hscore Hnan.
  pose proof (score_interactions_candidates _ _ _ _ _ _ Hscore) as Hfst.
  simpl in Hfst.
  exists (top n scored).
  split; [apply get_interactions_top with (w1 := w1); assumption |].
  split; [exact Hfst |].
  split; [apply (score_interactions_scored _ _ _ _ _ _ (Forall_nil _) Hscore) |].
  unfold top. split; [| split; [| split]].
  - rewrite length_firstn, sorted_reverse_length.
    rewrite <- Hfst, length_map. lia.
  - apply StronglySorted_keys. apply StronglySorted_firstn.
    apply sorted_reverse_sorted.
    apply Forall_forall. intros p Hp.
    rewrite forallb_forall in Hnan. specialize (Hnan p Hp).
    apply negb_true_iff in Hnan. exact Hnan.
  - exists (skipn (Z.to_nat n) (sorted_reverse snd scored)).
    rewrite firstn_skipn. apply sorted_reverse_perm.
  - intros v.
    exists (filter (fun p => (v =? snd p)%float)
              (skipn (Z.to_nat n) (sorted_reverse snd scored))).
    rewrite <- filter_app, firstn_skipn. apply sorted_reverse_stable.
Qed.

End Ranking.

(** The scenario of the specification: five candidates scoring
    [0.9, 0.9, 0.5, 0.2, 0.1] in input order, ranked with [n = 3]: the first
    two come back unchanged, then the one scoring 0.5. *)
Lemma interactions_are_ranked_witness :
  let w := Replay.start 1 (map Some scenario_scores) in
  (exists ranked,
      fst (get_interactions Replay.lib 3 scenario_candidates "regression" 0
             [Replay.continuous 3] Replay.no_data Replay.no_data None w)
      = inr (map fst ranked, map snd ranked)
      /\ List.length ranked = 3%nat
      /\ StronglySorted (fun a b => (a <? b)%float = false) (map snd ranked))
  /\ fst (get_interactions Replay.lib 3 scenario_candidates "regression" 0
            [Replay.continuous 3] Replay.no_data Replay.no_data None w)
     = inr ([[0; 1]; [0; 2]; [1; 2]], [0.9; 0.9; 0.5]%float).
Proof.
  intros w. split; [| reflexivity].
  destruct (interactions_are_ranked Replay.lib 3 scenario_candidates "regression" 0
              [Replay.continuous 3] Replay.no_data Replay.no_data None w
              {| _interaction_pointer := 1 |}
              (snd (NativeEBMInteraction_init Replay.lib "regression" 0
                      [Replay.continuous 3] Replay.no_data Replay.no_data None w))
              (combine scenario_candidates scenario_scores)
              (snd (score_interactions Replay.lib {| _interaction_pointer := 1 |}
                      scenario_candidates []
                      (snd (NativeEBMInteraction_init Replay.lib "regression" 0
                              [Replay.continuous 3] Replay.no_data Replay.no_data
                              None w))))
              ltac:(lia) eq_refl eq_refl eq_refl)
    as (ranked & Hrun & _ & _ & Hlen & Hsorted & _).
  exists ranked. split; [rewrite Hrun; reflexivity |].
  split; [exact Hlen | exact Hsorted].
Defined.

(** ** Loading the library *)

Section LibraryPath.

Import Native.

Lemma supported_spec env :
  supported env = true <->
  platform env = "linux"%string
  \/ (pointer_size env * 8 = 64
      /\ (platform env = "linux2"%string \/ platform env = "win32"%string
          \/ platform env = "darwin"%string)).
Proof.
  unfold supported.
  destruct (String.eqb_spec (platform env) "linux") as [Hl | Hl].
  - simpl. split; [intros _; left; exact Hl | reflexivity].
  - simpl. rewrite andb_true_iff, !orb_true_iff.
    rewrite Z.eqb_eq, !String.eqb_eq. split.
    + intros [Hp H]. right. split; [lia | tauto].
    + intros [H | [Hp H]]; [contradiction |]. split; [lia | tauto].
Qed.

(** X2: [_get_ebm_lib_path] answers a path exactly for the platform "linux"
    (whatever the pointer size: the first test reads
    [linux or (linux2 and 64-bit)]) and for "linux2", "win32" and "darwin"
    with 64-bit pointers; otherwise it raises [Exception] with a message
    naming the platform and the bit size.  The path is the module's directory
    followed by "..", "..", "lib" and a file name in which [debug] only
    inserts "_debug" before the extension. *)
Theorem lib_path_by_platform (env : environment) (debug : bool) :
  let suffix := if debug then "_debug"%string else ""%string in
  let package := script_path env ++ [".."; ".."; "lib"]%string in
  (supported env = true ->
   exists system extension,
     _get_ebm_lib_path env debug =
     inr (package ++ [("lib_ebmcore_" ++ system ++ "_x64" ++ suffix ++ extension)%string])
     /\ ((platform env = "linux"%string \/ platform env = "linux2"%string) ->
         system = "linux"%string /\ extension = ".so"%string)
     /\ (platform env = "win32"%string ->
         system = "win"%string /\ extension = ".dll"%string)
     /\ (platform env = "darwin"%string ->
         system = "mac"%string /\ extension = ".dylib"%string))
  /\ (supported env = false ->
      _get_ebm_lib_path env debug =
      inl (Exception ("Platform " ++ platform env ++ " at "
                      ++ DecimalString.NilZero.string_of_int
                           (Z.to_int (pointer_size env * 8))
                      ++ " bit not supported for EBM")%string))
  /\ (platform env = "linux"%string -> supported env = true)
  /\ (pointer_size env <> 8 -> platform env <> "linux"%string ->
      supported env = false).
Proof.
  cbv zeta. unfold _get_ebm_lib_path, supported.
  replace (pointer_size env * 8 =? 64) with (pointer_size env =? 8)
    by (destruct (Z.eqb_spec (pointer_size env) 8);
        [symmetry; apply Z.eqb_eq | symmetry; apply Z.eqb_neq]; lia).
  destruct (String.eqb_spec (platform env) "linux") as [Hl | Hl];
    [| destruct (String.eqb_spec (platform env) "linux2") as [Hl2 | Hl2];
       [| destruct (String.eqb_spec (platform env) "win32") as [Hw | Hw];
          [| destruct (String.eqb_spec (platform env) "darwin") as [Hd | Hd]]]];
    destruct (Z.eqb_spec (pointer_size env) 8) as [Hp | Hp];
    rewrite ?andb_false_r, ?andb_true_r; cbn [orb andb];
    (split; [| split; [| split]]);
    try (intros H; discriminate H);
    try (intros _; reflexivity);
    try (intros; first [reflexivity | contradiction]);
    intros _;
    first [ exists "linux"%string, ".so"%string; split;
            [rewrite <- !app_assoc; reflexivity
            | repeat split; intros; intuition congruence]
          | exists "win"%string, ".dll"%string; split;
            [rewrite <- !app_assoc; reflexivity
            | repeat split; intros; intuition congruence]
          | exists "mac"%string, ".dylib"%string; split;
            [rewrite <- !app_assoc; reflexivity
            | repeat split; intros; intuition congruence] ].
Qed.

End LibraryPath.

Section Singleton.

Import Native.

Lemma set_logging_calls env level p :
  match _set_logging env level p with
  | (inr _, p') =>
      _native p' = _native p
      /\ exists trace_level,
           calls p' = calls p ++ [CallSetLogMessageFunction;
                                  CallSetTraceLevel trace_level]
  | (inl e, p') =>
      _native p' = _native p
      /\ calls p' = calls p ++ [CallSetLogMessageFunction]
      /\ exists key, e = KeyError key
  end.
Proof.
  unfold _set_logging.
  destruct (dict_getitem level_dict _) as [trace_level |]; simpl.
  - split; [reflexivity |]. exists trace_level.
    rewrite <- app_assoc. reflexivity.
  - split; [reflexivity |]. split; [reflexivity |]. eexists. reflexivity.
Qed.

(** X1: [get_native_singleton] initialises at most once.  On a process with
    no singleton a successful call loads the library once, registers the log
    callback, sets the trace level and stores the object it returns; every
    later call returns that same object and does nothing else, whatever
    [is_debug] and [log_level] it is given.  A failing call stores nothing:
    before loading when the platform is unsupported or the library is not
    found, and, for a level that is not in [level_dict], after the library
    was loaded and the callback registered. *)
Theorem singleton_is_initialised_once
    (env : environment) (is_debug later_debug : bool)
    (log_level later_level : option level) (p : process) :
  _native p = None ->
  match get_native_singleton env is_debug log_level p with
  | (inr native, p1) =>
      _native p1 = Some native
      /\ Native.is_debug native = is_debug
      /\ Native.log_level native = log_level
      /\ _get_ebm_lib_path env is_debug = inr (lib native)
      /\ (exists trace_level,
             calls p1 = calls p ++ [CallLoadLibrary (lib native);
                                    CallSetLogMessageFunction;
                                    CallSetTraceLevel trace_level])
      /\ get_native_singleton env later_debug later_level p1 = (inr native, p1)
  | (inl e, p1) =>
      _native p1 = None
      /\ match e with
         | KeyError _ =>
             exists path,
               calls p1 = calls p ++ [CallLoadLibrary path; CallSetLogMessageFunction]
         | _ => p1 = p
         end
  end.
Proof.
  intros Hnone. unfold get_native_singleton. rewrite Hnone.
  unfold _initialize.
  destruct (_get_ebm_lib_path env is_debug) as [e | path] eqn:Hpath.
  - split; [exact Hnone | reflexivity].
  - destruct (loadable env path).
    + pose proof (set_logging_calls env log_level
                    {| _native := _native p;
                       calls := calls p ++ [CallLoadLibrary path] |}) as Hlog.
      destruct (_set_logging env log_level _) as [[e | u] p1].
      * destruct Hlog as (Hn & Hc & key & ->). simpl in Hn, Hc.
        split; [congruence |]. exists path. rewrite Hc, <- app_assoc. reflexivity.
      * destruct Hlog as (Hn & trace_level & Hc). simpl in Hn, Hc. simpl.
        repeat split.
        exists trace_level. rewrite Hc, <- app_assoc. reflexivity.
    + split; [exact Hnone | reflexivity].
Qed.

(** X1 on a fresh process of a 64-bit Linux: the first call asks for the
    debug library at level "INFO"; the second call asks for neither and gets
    the same object. *)
Lemma singleton_is_initialised_once_witness :
  match get_native_singleton linux64 true (Some (StrLevel "INFO")) fresh with
  | (inr native, p1) =>
      _native p1 = Some native
      /\ Native.is_debug native = true
      /\ Native.log_level native = Some (StrLevel "INFO")
      /\ _get_ebm_lib_path linux64 true = inr (lib native)
      /\ (exists trace_level,
             calls p1 = calls fresh ++ [CallLoadLibrary (lib native);
                                        CallSetLogMessageFunction;
                                        CallSetTraceLevel trace_level])
      /\ get_native_singleton linux64 false None p1 = (inr native, p1)
  | (inl e, p1) =>
      _native p1 = None
      /\ match e with
         | KeyError _ =>
             exists path,
               calls p1 = calls fresh ++ [CallLoadLibrary path;
                                          CallSetLogMessageFunction]
         | _ => p1 = fresh
         end
  end.
Proof.
  apply (singleton_is_initialised_once linux64 true false
           (Some (StrLevel "INFO")) None fresh).
  reflexivity.
Defined.

(** A level that [level_dict] does not know: the call fails after the
    library was loaded, and the next call loads it again. *)
Example unknown_level_loads_twice :
  let first := get_native_singleton linux64 false (Some (StrLevel "TRACE")) fresh in
  let second := get_native_singleton linux64 false (Some (StrLevel "DEBUG")) (snd first) in
  fst first = inl (KeyError (StrLevel "TRACE"))
  /\ List.length (filter (fun c => match c with CallLoadLibrary _ => true | _ => false end)
                    (calls (snd second))) = 2%nat.
Proof. split; reflexivity. Qed.

End Singleton.

(** ** Forwarding the library's log *)

Section NativeLog.

Import Native.

Lemma decode_ascii_some bs :
  forallb (fun b => (Byte.to_N b <? 128)%N) bs = true ->
  exists s, decode_ascii bs = Some s /\ String.length s = List.length bs.
Proof.
  induction bs as [| b rest IH]; intros H; simpl in *.
  - exists EmptyString. split; reflexivity.
  - apply andb_true_iff in H. destruct H as [Hb Hrest].
    destruct (IH Hrest) as (s & Hs & Hlen). rewrite Hb, Hs.
    eexists. split; [reflexivity |]. simpl. rewrite Hlen. reflexivity.
Qed.

Lemma decode_ascii_none bs :
  forallb (fun b => (Byte.to_N b <? 128)%N) bs = false ->
  decode_ascii bs = None.
Proof.
  induction bs as [| b rest IH]; intros H; simpl in *.
  - discriminate.
  - destruct (Byte.to_N b <? 128)%N; [| reflexivity].
    simpl in H. rewrite (IH H). reflexivity.
Qed.

(** X4: [native_log] never lets a failure out and forwards exactly the
    well-formed messages at the four trace levels: for a level byte 1, 2, 3
    or 4 and a message of ASCII bytes it calls [log.error], [log.warning],
    [log.info] or [log.debug] with the decoded text; with no level byte, a
    null message, a message holding a byte above 127, or any other level
    (0 is "off") it logs nothing. *)
Theorem native_log_forwards_or_drops
    (trace_level : list Byte.byte) (message : option (list Byte.byte)) :
  match native_log trace_level message with
  | Some r =>
      exists b rest bs,
        trace_level = b :: rest /\ message = Some bs
        /\ forallb (fun b => (Byte.to_N b <? 128)%N) bs = true
        /\ decode_ascii bs = Some (text r)
        /\ String.length (text r) = List.length bs
        /\ 1 <= Z.of_N (Byte.to_N b) <= 4
        /\ levelno r = 50 - 10 * Z.of_N (Byte.to_N b)
  | None =>
      trace_level = [] \/ message = None
      \/ (exists bs, message = Some bs
                     /\ forallb (fun b => (Byte.to_N b <? 128)%N) bs = false)
      \/ (exists b rest, trace_level = b :: rest
                         /\ (Z.of_N (Byte.to_N b) < 1 \/ 4 < Z.of_N (Byte.to_N b)))
  end.
Proof.
  unfold native_log, native_log_try.
  destruct trace_level as [| b rest]; [left; reflexivity |].
  destruct message as [bs |]; [| right; left; reflexivity].
  destruct (forallb (fun b => (Byte.to_N b <? 128)%N) bs) eqn:Hascii.
  - destruct (decode_ascii_some bs Hascii) as (s & Hs & Hlen). rewrite Hs.
    unfold TraceLevelError, TraceLevelWarning, TraceLevelInfo, TraceLevelVerbose.
    destruct (Z.eqb_spec (Z.of_N (Byte.to_N b)) 1) as [H1 | H1];
      [| destruct (Z.eqb_spec (Z.of_N (Byte.to_N b)) 2) as [H2 | H2];
         [| destruct (Z.eqb_spec (Z.of_N (Byte.to_N b)) 3) as [H3 | H3];
            [| destruct (Z.eqb_spec (Z.of_N (Byte.to_N b)) 4) as [H4 | H4]]]].
    + exists b, rest, bs. cbn [text levelno]. unfold ERROR. repeat split; auto; lia.
    + exists b, rest, bs. cbn [text levelno]. unfold WARNING. repeat split; auto; lia.
    + exists b, rest, bs. cbn [text levelno]. unfold INFO. repeat split; auto; lia.
    + exists b, rest, bs. cbn [text levelno]. unfold DEBUG. repeat split; auto; lia.
    + right. right. right. exists b, rest. split; [reflexivity | lia].
  - rewrite (decode_ascii_none bs Hascii).
    right. right. left. exists bs. split; [reflexivity | exact Hascii].
Qed.

(** X3: the level the library is given and the level its messages come
    back at agree.  For every key of [level_dict], a message the library
    emits at the trace level the key maps to is logged at the key's own
    level when that is DEBUG, INFO, WARNING or ERROR, at ERROR when it is
    CRITICAL, and not at all when it is NOTSET. *)
Theorem log_level_round_trip
    (key : level) (trace_level : Z) (b : Byte.byte) (rest bs : list Byte.byte)
    (message : string) :
  dict_getitem level_dict key = Some trace_level ->
  Z.of_N (Byte.to_N b) = trace_level ->
  decode_ascii bs = Some message ->
  exists n,
    level_number key = Some n
    /\ match native_log (b :: rest) (Some bs) with
       | Some r => text r = message /\ levelno r = Z.min n ERROR /\ n <> NOTSET
       | None => n = NOTSET
       end.
Proof.
  intros Hkey Hb Hmsg.
  unfold native_log, native_log_try. rewrite Hmsg, Hb. clear Hb Hmsg.
  unfold dict_getitem, level_dict in Hkey. cbn [find fst snd level_eqb] in Hkey.
  destruct key as [n | s].
  - cbn [level_eqb] in Hkey. exists n. split; [reflexivity |].
    unfold DEBUG, INFO, WARNING, ERROR, CRITICAL, NOTSET in *.
    repeat match type of Hkey with
      | context [Z.eqb ?a ?b] => destruct (Z.eqb_spec a b); subst
      end;
      try discriminate;
      injection Hkey as <-; cbn; repeat split; try lia; discriminate.
  - cbn [level_eqb] in Hkey. unfold level_number.
    repeat match type of Hkey with
      | context [String.eqb ?a ?b] =>
          destruct (String.eqb_spec a b); subst
      end;
      try discriminate;
      injection Hkey as <-; eexists; (split; [reflexivity |]); cbn;
      repeat split; try discriminate; reflexivity.
Qed.

(** X3 for the key "WARNING" and the message bytes of "ok". *)
Lemma log_level_round_trip_witness :
  exists n,
    level_number (StrLevel "WARNING") = Some n
    /\ match native_log [Byte.x02] (Some [Byte.x6f; Byte.x6b]) with
       | Some r => text r = "ok"%string /\ levelno r = Z.min n ERROR /\ n <> NOTSET
       | None => n = NOTSET
       end.
Proof.
  apply (log_level_round_trip (StrLevel "WARNING") 2 Byte.x02 []
           [Byte.x6f; Byte.x6b] "ok"); reflexivity.
Defined.

End NativeLog.

(** ** Conversions to the engine's structures *)

Section Conversions.

Context {E : Type}.

Lemma convert_features_inv features (w : world E) feature_array w' :
  convert_features_to_c features w = (inr feature_array, w') ->
  forallb recognized features = true
  /\ feature_array = map feature_to_c features /\ w' = w.
Proof.
  intros H. destruct (forallb recognized features) eqn:Hr.
  - rewrite (convert_features_recognized features w Hr) in H.
    inversion H; subst. repeat split.
  - rewrite (convert_features_unrecognized features w Hr) in H. discriminate.
Qed.

Lemma feature_to_c_inj f g :
  recognized f = true -> recognized g = true ->
  feature_to_c f = feature_to_c g -> f = g.
Proof.
  unfold recognized, feature_to_c. intros Hf Hg H.
  destruct f as [tf mf bf], g as [tg mg bg]. simpl in *.
  injection H as Ht Hm Hb. subst bg.
  assert (mf = mg) by (destruct mf, mg; simpl in Hm; congruence || lia).
  subst mg. f_equal.
  destruct (String.eqb_spec tf "categorical") as [-> | Hcf],
           (String.eqb_spec tg "categorical") as [-> | Hcg];
    try reflexivity; try discriminate.
  simpl in Hf, Hg. apply String.eqb_eq in Hf, Hg. congruence.
Qed.


Lemma split_by_counts_flat (lists : list (list Z)) :
  split_by_counts (map (fun l => Z.of_nat (List.length l)) lists) (List.concat lists)
  = lists.
Proof.
  induction lists as [| l rest IH]; simpl.
  - reflexivity.
  - rewrite Nat2Z.id, firstn_app, firstn_all, Nat.sub_diag. simpl.
    rewrite app_nil_r. f_equal.
    rewrite skipn_app, skipn_all, Nat.sub_diag. simpl. exact IH.
Qed.

(** X6: the two arrays [convert_feature_combinations_to_c] builds hold every
    combination: there is one count per combination, the flat index array is
    as long as the counts add up to, and cutting it by the successive counts
    gives back the attributes of each combination, in order. *)
Theorem converted_combinations_round_trip
    (feature_combinations : list feature_combination) :
  let converted := convert_feature_combinations_to_c feature_combinations in
  let counts := map countFeaturesInCombination (fst converted) in
  split_by_counts counts (snd converted) = map attributes feature_combinations
  /\ List.length (fst converted) = List.length feature_combinations
  /\ Z.of_nat (List.length (snd converted)) = fold_right Z.add 0 counts.
Proof.
  cbv zeta. unfold convert_feature_combinations_to_c. cbn [fst snd].
  rewrite map_map. cbn [countFeaturesInCombination].
  rewrite flat_map_concat_map.
  rewrite <- (map_map attributes (fun l => Z.of_nat (List.length l))).
  split; [apply split_by_counts_flat |]. split; [apply length_map |].
  induction feature_combinations as [| fc rest IH]; simpl.
  - reflexivity.
  - rewrite length_app, Nat2Z.inj_add, IH. reflexivity.
Qed.

End Conversions.


(** ** The engine calls of a construction and of a training step *)

Section SessionCalls.

Context {E : Type} (lib : native_lib E).


Lemma episodes_loop_calls (self : NativeEBMTraining) i lr mts mcs n :
  forall gain out (w : world E),
    match training_step_episodes_loop lib self i lr mts mcs n gain out w with
    | (inr _, w') =>
        exists tensors,
          List.length tensors = n /\ Forall (fun p => p <> 0) tensors
          /\ trace w' = trace w ++ update_calls self i lr mts mcs tensors
    | (inl e, w') =>
        exists tensors,
          (List.length tensors < n)%nat /\ Forall (fun p => p <> 0) tensors
          /\ ((e = MemoryError "Out of memory in GenerateModelFeatureCombinationUpdate"
               /\ trace w' =
                  trace w ++ update_calls self i lr mts mcs tensors
                  ++ [CallGenerateModelFeatureCombinationUpdate
                        (_model_pointer self) i lr mts mcs])
              \/ (exists p,
                     p <> 0
                     /\ e = Exception "Out of memory in ApplyModelFeatureCombinationUpdate"
                     /\ trace w' =
                        trace w ++ update_calls self i lr mts mcs tensors
                        ++ [CallGenerateModelFeatureCombinationUpdate
                              (_model_pointer self) i lr mts mcs;
                            CallApplyModelFeatureCombinationUpdate
                              (_model_pointer self) i p]))
    end.
Proof.
  induction n as [| n IH]; intros gain out w.
  - simpl. exists []. rewrite app_nil_r. repeat split. constructor.
  - cbn [training_step_episodes_loop]. unfold bind at 1. unfold lib_call at 1.
    destruct (GenerateModelFeatureCombinationUpdate lib _ _ _ _ _ _ _)
      as [[p gain'] e1].
    unfold is_null. destruct (Z.eqb_spec p 0) as [Hp | Hp].
    + exists []. split; [simpl; lia |]. split; [constructor |]. left.
      split; reflexivity.
    + unfold bind at 1. unfold lib_call at 1. cbn [eng trace].
      destruct (ApplyModelFeatureCombinationUpdate lib _ _ _ _ _)
        as [[rc out'] e2].
      destruct (Z.eqb_spec rc 0) as [Hrc | Hrc]; cbn [negb].
      * specialize (IH gain' out'
                      {| eng := e2;
                         trace := (trace w ++
                                   [CallGenerateModelFeatureCombinationUpdate
                                      (_model_pointer self) i lr mts mcs]) ++
                                  [CallApplyModelFeatureCombinationUpdate
                                     (_model_pointer self) i p] |}).
        destruct (training_step_episodes_loop lib self i lr mts mcs n gain' out' _)
          as [[e | m] w'].
        -- destruct IH as (tensors & Hlen & Hnn & Hcases).
           exists (p :: tensors). split; [simpl; lia |].
           split; [constructor; assumption |].
           cbn [trace] in Hcases. cbn [update_calls flat_map].
           destruct Hcases as [[He Ht] | (q & Hq & He & Ht)]; [left | right].
           ++ split; [exact He |]. rewrite Ht.
              unfold update_calls. rewrite <- !app_assoc. reflexivity.
           ++ exists q. split; [exact Hq |]. split; [exact He |]. rewrite Ht.
              unfold update_calls. rewrite <- !app_assoc. reflexivity.
        -- destruct IH as (tensors & Hlen & Hnn & Ht).
           exists (p :: tensors). split; [simpl; lia |].
           split; [constructor; assumption |].
           cbn [trace] in Ht. rewrite Ht. cbn [update_calls flat_map].
           unfold update_calls. rewrite <- !app_assoc. reflexivity.
      * exists []. split; [simpl; lia |]. split; [constructor |]. right.
        exists p. split; [exact Hp |]. split; [reflexivity |].
        unfold raise. cbn [trace update_calls flat_map app].
        rewrite <- app_assoc. reflexivity.
Qed.

(** X8: in a session whose training steps update the model, a training step
    asked for [n = training_step_episodes] episodes (none when the number is
    negative) that returns has made exactly [2n] engine calls: [n] times a
    proposal followed by the application of the tensor proposed, never a null
    one, all on the session's handle and the given combination.  A step that
    raises stopped at its first failing call: after fewer than [n] complete
    updates, the last call is the proposal that answered null
    ([MemoryError]) or the application that answered a nonzero status
    ([Exception]). *)
Theorem training_step_updates_in_pairs
    (self : NativeEBMTraining) i lr mts mcs training_step_episodes (w : world E) :
  updating self = true ->
  match training_step lib self i lr mts mcs training_step_episodes w with
  | (inr _, w') =>
      exists tensors,
        List.length tensors = Z.to_nat training_step_episodes
        /\ Forall (fun p => p <> 0) tensors
        /\ trace w' = trace w ++ update_calls self i lr mts mcs tensors
  | (inl e, w') =>
      exists tensors,
        (List.length tensors < Z.to_nat training_step_episodes)%nat
        /\ Forall (fun p => p <> 0) tensors
        /\ ((e = MemoryError "Out of memory in GenerateModelFeatureCombinationUpdate"
             /\ trace w' =
                trace w ++ update_calls self i lr mts mcs tensors
                ++ [CallGenerateModelFeatureCombinationUpdate
                      (_model_pointer self) i lr mts mcs])
            \/ (exists p,
                   p <> 0
                   /\ e = Exception "Out of memory in ApplyModelFeatureCombinationUpdate"
                   /\ trace w' =
                      trace w ++ update_calls self i lr mts mcs tensors
                      ++ [CallGenerateModelFeatureCombinationUpdate
                            (_model_pointer self) i lr mts mcs;
                          CallApplyModelFeatureCombinationUpdate
                            (_model_pointer self) i p]))
  end.
Proof.
  intros Hup. unfold training_step. unfold updating in Hup. rewrite Hup.
  apply episodes_loop_calls.
Qed.

End SessionCalls.

(** X8 on a regression session of the replaying engine, three episodes. *)
Lemma training_step_updates_in_pairs_witness :
  match training_step Replay.lib replay_session 0 0.01%float 2 2 3
          (Replay.start 1 (map Some [3; 2; 1]%float)) with
  | (inr _, w') =>
      exists tensors,
        List.length tensors = Z.to_nat 3
        /\ Forall (fun p => p <> 0) tensors
        /\ trace w' = trace (Replay.start 1 (map Some [3; 2; 1]%float))
                      ++ update_calls replay_session 0 0.01%float 2 2 tensors
  | (inl e, w') =>
      exists tensors,
        (List.length tensors < Z.to_nat 3)%nat
        /\ Forall (fun p => p <> 0) tensors
        /\ ((e = MemoryError "Out of memory in GenerateModelFeatureCombinationUpdate"
             /\ trace w' =
                trace (Replay.start 1 (map Some [3; 2; 1]%float))
                ++ update_calls replay_session 0 0.01%float 2 2 tensors
                ++ [CallGenerateModelFeatureCombinationUpdate
                      (_model_pointer replay_session) 0 0.01%float 2 2])
            \/ (exists p,
                   p <> 0
                   /\ e = Exception "Out of memory in ApplyModelFeatureCombinationUpdate"
                   /\ trace w' =
                      trace (Replay.start 1 (map Some [3; 2; 1]%float))
                      ++ update_calls replay_session 0 0.01%float 2 2 tensors
                      ++ [CallGenerateModelFeatureCombinationUpdate
                            (_model_pointer replay_session) 0 0.01%float 2 2;
                          CallApplyModelFeatureCombinationUpdate
                            (_model_pointer replay_session) 0 p]))
  end.
Proof.
  apply (training_step_updates_in_pairs Replay.lib replay_session 0 0.01%float 2 2 3
           (Replay.start 1 (map Some [3; 2; 1]%float))).
  reflexivity.
Defined.

(** ** Indexes, shapes and sizes *)

Section ShapeErrors.

Context {E : Type}.

Lemma py_getitem_in_range {A : Type} (l : list A) (i : Z) :
  in_range l i <-> exists x, py_getitem l i = Some x.
Proof.
  unfold in_range, py_getitem.
  destruct (Z.leb_spec 0 i) as [H0 | H0], (Z.ltb_spec i (Z.of_nat (List.length l)))
    as [Hn | Hn]; cbn [andb].
  - split; [intros _ | lia].
    destruct (nth_error l (Z.to_nat i)) as [x |] eqn:Hx; [exists x; reflexivity |].
    apply nth_error_None in Hx. lia.
  - destruct (Z.leb_spec (- Z.of_nat (List.length l)) i), (Z.ltb_spec i 0);
      cbn [andb]; try lia; split; try lia; intros [x Hx]; discriminate.
  - destruct (Z.leb_spec (- Z.of_nat (List.length l)) i) as [Hl | Hl],
             (Z.ltb_spec i 0) as [Hi | Hi]; cbn [andb]; try lia.
    + split; [intros _ | lia].
      destruct (nth_error l (Z.to_nat (Z.of_nat (List.length l) + i))) as [x |] eqn:Hx;
        [exists x; reflexivity |].
      apply nth_error_None in Hx. lia.
    + split; [lia | intros [x Hx]; discriminate].
  - destruct (Z.leb_spec (- Z.of_nat (List.length l)) i), (Z.ltb_spec i 0);
      cbn [andb]; try lia.
Qed.

Lemma py_getitem_out_of_range {A : Type} (l : list A) (i : Z) :
  ~ in_range l i <-> py_getitem l i = None.
Proof.
  rewrite py_getitem_in_range.
  destruct (py_getitem l i) as [x |]; split; intros H.
  - exfalso. apply H. exists x. reflexivity.
  - discriminate.
  - reflexivity.
  - intros [x Hx]. discriminate.
Qed.

Lemma shape_dimensions_outcome features attrs :
  forall dims (w : world E),
    snd (shape_dimensions features attrs dims w) = w
    /\ match fst (shape_dimensions features attrs dims w) with
       | inr dims' =>
           Forall (in_range features) attrs
           /\ exists fs,
                Forall2 (fun a f => py_getitem features a = Some f) attrs fs
                /\ dims' = dims ++ map n_bins fs
       | inl e =>
           e = IndexError "list index out of range"
           /\ Exists (fun a => ~ in_range features a) attrs
       end.
Proof.
  induction attrs as [| a rest IH]; intros dims w; cbn [shape_dimensions].
  - split; [reflexivity |]. simpl. split; [constructor |].
    exists []. split; [constructor | rewrite app_nil_r; reflexivity].
  - destruct (py_getitem features a) as [f |] eqn:Ha.
    + specialize (IH (dims ++ [n_bins f]) w). destruct IH as [Hw IH].
      split; [exact Hw |].
      destruct (fst (shape_dimensions features rest (dims ++ [n_bins f]) w))
        as [e | dims'].
      * destruct IH as [He Hex]. split; [exact He | right; exact Hex].
      * destruct IH as (Hall & fs & Hfs & Hd). split.
        -- constructor; [| exact Hall]. apply py_getitem_in_range. exists f. exact Ha.
        -- exists (f :: fs). split; [constructor; assumption |].
           rewrite Hd, <- app_assoc. reflexivity.
    + split; [reflexivity |]. simpl. split; [reflexivity |].
      left. apply py_getitem_out_of_range. exact Ha.
Qed.

Lemma shape_index_error (self : NativeEBMTraining) i (w : world E) e :
  fst (_get_feature_combination_shape self i w) = inl e ->
  e = IndexError "list index out of range".
Proof.
  unfold _get_feature_combination_shape.
  destruct (py_getitem (_feature_combinations self) i) as [fc |].
  - destruct (shape_dimensions_outcome (_features self) (attributes fc) [] w)
      as [_ Hout].
    unfold bind.
    destruct (shape_dimensions (_features self) (attributes fc) [] w)
      as [[e' | dims] w1]; cbn [fst] in *.
    + intros H. inversion H; subst. apply Hout.
    + destruct (_ && _); discriminate.
  - cbn [fst raise]. intros H. inversion H. reflexivity.
Qed.

(** X9: computing a shape never touches the engine, and it fails exactly on
    an index out of range: it returns a shape when the combination index is
    a valid index of the combination list ([-len <= i < len], a negative one
    counting from the end) and every feature index of that combination is a
    valid index of the feature table; otherwise it raises [IndexError]. *)
Theorem shape_raises_on_index_out_of_range
    (self : NativeEBMTraining) (feature_combination_index : Z) (w : world E) :
  let outcome := _get_feature_combination_shape self feature_combination_index w in
  snd outcome = w
  /\ ((exists shape, fst outcome = inr shape) <->
      in_range (_feature_combinations self) feature_combination_index
      /\ forall fc,
           py_getitem (_feature_combinations self) feature_combination_index = Some fc ->
           Forall (in_range (_features self)) (attributes fc))
  /\ (forall e, fst outcome = inl e -> e = IndexError "list index out of range").
Proof.
  cbv zeta. unfold _get_feature_combination_shape.
  destruct (py_getitem (_feature_combinations self) feature_combination_index)
    as [fc |] eqn:Hfc.
  - assert (Hin : in_range (_feature_combinations self) feature_combination_index)
      by (apply py_getitem_in_range; exists fc; exact Hfc).
    destruct (shape_dimensions_outcome (_features self) (attributes fc) [] w)
      as [Hw Hout].
    unfold bind.
    destruct (shape_dimensions (_features self) (attributes fc) [] w)
      as [[e | dims] w1]. 
    + cbn [fst snd] in *. destruct Hout as [He Hex].
      split; [exact Hw |]. split.
      * split; [intros [shape Hs]; discriminate |].
        intros [_ Hall]. specialize (Hall fc eq_refl).
        apply Exists_exists in Hex. destruct Hex as (a & Ha & Hna).
        exfalso. apply Hna. apply (proj1 (Forall_forall _ _) Hall a Ha).
      * intros e' He'. inversion He'; subst. reflexivity.
    + cbn [fst snd] in *. destruct Hout as (Hall & _).
      destruct (_ && _); cbn [fst snd ret].
      * split; [exact Hw |]. split.
        -- split; [intros _ | intros _; eexists; reflexivity].
           split; [exact Hin |]. intros fc' Hfc'. inversion Hfc'; subst. exact Hall.
        -- intros e He. discriminate.
      * split; [exact Hw |]. split.
        -- split; [intros _ | intros _; eexists; reflexivity].
           split; [exact Hin |]. intros fc' Hfc'. inversion Hfc'; subst. exact Hall.
        -- intros e He. discriminate.
  - cbn [fst snd raise]. split; [reflexivity |]. split.
    + split; [intros [shape Hs]; discriminate |].
      intros [Hin _]. apply py_getitem_out_of_range in Hfc. contradiction.
    + intros e He. inversion He; subst. reflexivity.
Qed.

Lemma size_of_app l1 l2 : size_of (l1 ++ l2) = size_of l1 * size_of l2.
Proof.
  unfold size_of. induction l1 as [| x l1 IH]; simpl.
  - destruct (fold_right Z.mul 1 l2); reflexivity.
  - rewrite IH. apply Z.mul_assoc.
Qed.

Lemma size_of_rev l : size_of (rev l) = size_of l.
Proof.
  induction l as [| x l IH]; simpl.
  - reflexivity.
  - rewrite size_of_app, IH. unfold size_of. simpl. lia.
Qed.

(** X10: the number of elements of a combination's model tensor, the
    product of its shape, is the product of the bin counts of the
    combination's features, times the number of classes for a classification
    with more than two classes; the order of the features in the combination
    does not matter for it.  The shape has one axis per feature, and one more
    in that multiclass case. *)
Theorem tensor_size_is_product_of_bin_counts
    (self : NativeEBMTraining) (feature_combination_index : Z)
    (feature_combination : feature_combination) (fs : list feature) (w : world E) :
  py_getitem (_feature_combinations self) feature_combination_index
  = Some feature_combination ->
  Forall2 (fun a f => py_getitem (_features self) a = Some f)
          (attributes feature_combination) fs ->
  let multiclass :=
    (_model_type self =? "classification")%string && (_n_classes self >? 2) in
  exists shape,
    fst (_get_feature_combination_shape self feature_combination_index w) = inr shape
    /\ size_of shape =
       size_of (map n_bins fs) * (if multiclass then _n_classes self else 1)
    /\ List.length shape =
       (List.length (attributes feature_combination)
        + (if multiclass then 1 else 0))%nat.
Proof.
  intros Hfc Hfs. cbv zeta.
  unfold _get_feature_combination_shape. rewrite Hfc.
  rewrite (bind_inr _ _ _ _ _ (shape_dimensions_lookup _ _ _ Hfs [] w)).
  cbn [app]. pose proof (Forall2_length Hfs) as Hlen.
  destruct (_ && _); cbn [fst ret]; eexists; (split; [reflexivity |]).
  - rewrite size_of_app, size_of_rev. split.
    + f_equal. unfold size_of. cbn [fold_right]. lia.
    + rewrite length_app, length_rev, length_map. cbn [List.length]. lia.
  - rewrite size_of_rev. split; [lia |].
    rewrite length_rev, length_map. lia.
Qed.

End ShapeErrors.

(** X10 on an interaction of two features with 3 and 4 bins and three
    classes: 36 elements on three axes. *)
Lemma tensor_size_is_product_of_bin_counts_witness :
  let self := Replay.session "classification" 3
                [Replay.continuous 3; Replay.continuous 4]
                [{| attributes := [0; 1] |}] in
  exists shape,
    fst (_get_feature_combination_shape self 0 (Replay.start 1 [])) = inr shape
    /\ size_of shape = size_of [3; 4] * 3
    /\ List.length shape = (2 + 1)%nat.
Proof.
  intros self.
  apply (tensor_size_is_product_of_bin_counts self 0 {| attributes := [0; 1] |}
           [Replay.continuous 3; Replay.continuous 4] (Replay.start 1 [])).
  - reflexivity.
  - repeat constructor.
Defined.

(** ** Reading models out of the engine *)

Section ModelRead.

Context {E : Type} (lib : native_lib E).

Lemma shape_dimensions_any_world features attrs :
  forall dims (w w0 : world E),
    shape_dimensions features attrs dims w =
    (fst (shape_dimensions features attrs dims w0), w).
Proof.
  induction attrs as [| a rest IH]; intros dims w w0; cbn [shape_dimensions].
  - reflexivity.
  - destruct (py_getitem features a); [apply IH | reflexivity].
Qed.

Lemma shape_any_world (self : NativeEBMTraining) i (w w0 : world E) :
  _get_feature_combination_shape self i w =
  (fst (_get_feature_combination_shape self i w0), w).
Proof.
  unfold _get_feature_combination_shape.
  destruct (py_getitem (_feature_combinations self) i) as [fc |]; [| reflexivity].
  unfold bind.
  rewrite (shape_dimensions_any_world (_features self) (attributes fc) [] w w0).
  destruct (shape_dimensions (_features self) (attributes fc) [] w0)
    as [[e | dims] w1]; cbn [fst]; [reflexivity |].
  destruct (_ && _); reflexivity.
Qed.

Lemma shape_error_kind (self : NativeEBMTraining) i (w : world E) e :
  fst (_get_feature_combination_shape self i w) = inl e ->
  kind_of e <> EngineFailure.
Proof.
  intros H. rewrite (shape_index_error self i w e H). discriminate.
Qed.

Lemma no_marker (self : NativeEBMTraining) :
  has_tensors self = true ->
  (_model_type self =? "classification")%string && (_n_classes self <=? 1) = false.
Proof. unfold has_tensors. apply negb_true_iff. Qed.

Lemma best_model_read (self : NativeEBMTraining) i (w : world E) :
  has_tensors self = true ->
  tensor_read lib self i w
    (CallGetBestModelFeatureCombination (_model_pointer self) i)
    (GetBestModelFeatureCombination lib (_model_pointer self) i (eng w))
    (_get_best_model_feature_combination lib self i w).
Proof.
  intros Hd. unfold tensor_read.
  remember (_get_best_model_feature_combination lib self i w) as outcome eqn:Ho.
  unfold _get_best_model_feature_combination in Ho.
  rewrite (no_marker self Hd) in Ho. unfold bind at 1 in Ho. unfold lib_call in Ho.
  destruct (GetBestModelFeatureCombination lib (_model_pointer self) i (eng w))
    as [p e']. cbn [fst snd].
  unfold is_null in Ho. destruct (Z.eqb_spec p 0) as [Hp | Hp].
  - subst outcome. cbn [raise fst snd]. split; [reflexivity |].
    split; [intros _; eexists; reflexivity | discriminate].
  - unfold bind at 1 in Ho.
    rewrite (shape_any_world self i _ w) in Ho.
    destruct (fst (_get_feature_combination_shape self i w)) as [e | shape] eqn:Hs.
    + subst outcome. cbn [fst snd]. split; [reflexivity |].
      split; [intros H; contradiction |].
      eapply shape_error_kind. exact Hs.
    + unfold bind, make_ndarray in Ho. cbn [eng] in Ho.
      fold (size_of shape) in Ho.
      destruct (read_doubles lib p (size_of shape) e') as [buffer |] eqn:Hr;
        subst outcome; cbn [raise ret fst snd].
      * split; [reflexivity |]. split; [intros H; contradiction |].
        cbn [tensor_shape tensor_data]. repeat split; assumption.
      * split; [reflexivity |]. split; [intros H; contradiction | discriminate].
Qed.

Lemma current_model_read (self : NativeEBMTraining) i (w : world E) :
  has_tensors self = true ->
  tensor_read lib self i w
    (CallGetCurrentModelFeatureCombination (_model_pointer self) i)
    (GetCurrentModelFeatureCombination lib (_model_pointer self) i (eng w))
    (_get_current_model_feature_combination lib self i w).
Proof.
  intros Hd. unfold tensor_read.
  remember (_get_current_model_feature_combination lib self i w) as outcome eqn:Ho.
  unfold _get_current_model_feature_combination in Ho.
  rewrite (no_marker self Hd) in Ho. unfold bind at 1 in Ho. unfold lib_call in Ho.
  destruct (GetCurrentModelFeatureCombination lib (_model_pointer self) i (eng w))
    as [p e']. cbn [fst snd].
  unfold is_null in Ho. destruct (Z.eqb_spec p 0) as [Hp | Hp].
  - subst outcome. cbn [raise fst snd]. split; [reflexivity |].
    split; [intros _; eexists; reflexivity | discriminate].
  - unfold bind at 1 in Ho.
    rewrite (shape_any_world self i _ w) in Ho.
    destruct (fst (_get_feature_combination_shape self i w)) as [e | shape] eqn:Hs.
    + subst outcome. cbn [fst snd]. split; [reflexivity |].
      split; [intros H; contradiction |].
      eapply shape_error_kind. exact Hs.
    + unfold bind, make_ndarray in Ho. cbn [eng] in Ho.
      fold (size_of shape) in Ho.
      destruct (read_doubles lib p (size_of shape) e') as [buffer |] eqn:Hr;
        subst outcome; cbn [raise ret fst snd].
      * split; [reflexivity |]. split; [intros H; contradiction |].
        cbn [tensor_shape tensor_data]. repeat split; assumption.
      * split; [reflexivity |]. split; [intros H; contradiction | discriminate].
Qed.

(** X11: outside the single-class case, reading the best (or the current)
    model of one combination asks the engine exactly once, whatever the
    outcome; a null answer is a [MemoryError]; the result is never the
    "no tensor" marker; and a tensor that is returned has the shape computed
    for the combination and holds the doubles read at the pointer the engine
    answered, as many as the product of that shape.  No failure is of the
    EngineFailure kind. *)
Theorem model_of_combination_is_read_once
    (self : NativeEBMTraining) (feature_combination_index : Z) (w : world E) :
  has_tensors self = true ->
  tensor_read lib self feature_combination_index w
    (CallGetBestModelFeatureCombination (_model_pointer self) feature_combination_index)
    (GetBestModelFeatureCombination lib (_model_pointer self)
       feature_combination_index (eng w))
    (_get_best_model_feature_combination lib self feature_combination_index w)
  /\ tensor_read lib self feature_combination_index w
       (CallGetCurrentModelFeatureCombination (_model_pointer self)
          feature_combination_index)
       (GetCurrentModelFeatureCombination lib (_model_pointer self)
          feature_combination_index (eng w))
       (_get_current_model_feature_combination lib self feature_combination_index w).
Proof.
  intros Hd. split; [apply best_model_read | apply current_model_read]; exact Hd.
Qed.

Lemma collect_model_read (self : NativeEBMTraining)
    (get : Z -> M E (option tensor)) (c : Z -> call) (answer : Z -> E -> pointer * E)
    (w0 : world E) :
  (forall i w, tensor_read lib self i w (c i) (answer i (eng w)) (get i w)) ->
  forall indexes model w,
    match collect_model get indexes model w with
    | (inr model', w') =>
        trace w' = trace w ++ map c indexes
        /\ exists new,
             model' = model ++ new
             /\ Forall2 (fun i t =>
                           exists array,
                             t = Some array
                             /\ fst (_get_feature_combination_shape self i w0)
                                = inr (tensor_shape array))
                        indexes new
    | (inl e, w') =>
        exists k,
          (k < List.length indexes)%nat
          /\ trace w' = trace w ++ map c (firstn (S k) indexes)
          /\ kind_of e <> EngineFailure
    end.
Proof.
  intros Hget. induction indexes as [| i rest IH]; intros model w;
    cbn [collect_model].
  - cbn [ret map]. rewrite app_nil_r. split; [reflexivity |].
    exists []. rewrite app_nil_r. split; [reflexivity | constructor].
  - unfold bind. destruct (Hget i w) as (Hw & _ & Hout).
    destruct (get i w) as [[e | t] w1]; cbn [fst snd] in *.
    + exists O. split; [simpl; lia |]. rewrite Hw. cbn [trace firstn map].
      split; [reflexivity | exact Hout].
    + specialize (IH (model ++ [t]) w1).
      destruct (collect_model get rest (model ++ [t]) w1) as [[e | model'] w'].
      * destruct IH as (k & Hk & Ht & He). exists (S k).
        split; [simpl; lia |]. rewrite Ht, Hw. cbn [trace].
        rewrite <- app_assoc. split; [reflexivity | exact He].
      * destruct IH as (Ht & new & Hm & Hall). split.
        -- rewrite Ht, Hw. cbn [trace map]. rewrite <- app_assoc. reflexivity.
        -- exists (t :: new). split; [rewrite Hm, <- app_assoc; reflexivity |].
           constructor; [| exact Hall].
           destruct t as [array |]; [| contradiction].
           exists array. split; [reflexivity |].
           destruct Hout as (_ & Hshape & _).
           rewrite (shape_any_world self i w0 w). exact Hshape.
Qed.

(** X12: outside the single-class case, [get_best_model] and
    [get_current_model] ask the engine once per feature combination, in the
    order of the combinations.  When they return, the model has one tensor
    per combination, none of them the "no tensor" marker, each of the shape
    computed for its combination; when they raise, the calls stop with the
    combination that failed. *)
Theorem model_is_read_combination_by_combination
    (self : NativeEBMTraining) (w : world E) :
  has_tensors self = true ->
  model_read self w (CallGetBestModelFeatureCombination (_model_pointer self))
    (get_best_model lib self w)
  /\ model_read self w (CallGetCurrentModelFeatureCombination (_model_pointer self))
       (get_current_model lib self w).
Proof.
  intros Hd. unfold model_read, get_best_model, get_current_model. cbv zeta. split.
  - pose proof (collect_model_read self (_get_best_model_feature_combination lib self)
                  (CallGetBestModelFeatureCombination (_model_pointer self))
                  (GetBestModelFeatureCombination lib (_model_pointer self)) w
                  (fun i w => best_model_read self i w Hd)
                  (range (Z.of_nat (List.length (_feature_combinations self)))) [] w)
      as H.
    destruct (collect_model _ _ _ _) as [[e | model] w']; [exact H |].
    destruct H as (Ht & new & Hm & Hall). cbn [app] in Hm. subst new.
    split; assumption.
  - pose proof (collect_model_read self (_get_current_model_feature_combination lib self)
                  (CallGetCurrentModelFeatureCombination (_model_pointer self))
                  (GetCurrentModelFeatureCombination lib (_model_pointer self)) w
                  (fun i w => current_model_read self i w Hd)
                  (range (Z.of_nat (List.length (_feature_combinations self)))) [] w)
      as H.
    destruct (collect_model _ _ _ _) as [[e | model] w']; [exact H |].
    destruct H as (Ht & new & Hm & Hall). cbn [app] in Hm. subst new.
    split; assumption.
Qed.

End ModelRead.

(** X11 on a regression session of the replaying engine with two main
    effects: the best model of the second one. *)
Lemma model_of_combination_is_read_once_witness :
  let self := Replay.session "regression" 0
                [Replay.continuous 3; Replay.continuous 4]
                [Replay.main_effect 0; Replay.main_effect 1] in
  let w := Replay.start 1 [] in
  tensor_read Replay.lib self 1 w
    (CallGetBestModelFeatureCombination 1 1) (3, eng w)
    (inr (Some {| tensor_shape := [4]; tensor_data := [0; 0; 0; 0]%float |}),
     {| eng := eng w; trace := [CallGetBestModelFeatureCombination 1 1] |}).
Proof.
  intros self w.
  exact (proj1 (model_of_combination_is_read_once Replay.lib self 1 w eq_refl)).
Defined.

(** X12 on the same session: the best model, one read per main effect. *)
Lemma model_is_read_combination_by_combination_witness :
  let self := Replay.session "regression" 0
                [Replay.continuous 3; Replay.continuous 4]
                [Replay.main_effect 0; Replay.main_effect 1] in
  let w := Replay.start 1 [] in
  model_read self w (CallGetBestModelFeatureCombination 1)
    (inr [Some {| tensor_shape := [3]; tensor_data := [0; 0; 0]%float |};
          Some {| tensor_shape := [4]; tensor_data := [0; 0; 0; 0]%float |}],
     {| eng := eng w;
        trace := [CallGetBestModelFeatureCombination 1 0;
                  CallGetBestModelFeatureCombination 1 1] |}).
Proof.
  intros self w.
  exact (proj1 (model_is_read_combination_by_combination Replay.lib self w eq_refl)).
Defined.

(** ** Rounds of a training run *)

Section Rounds.

Context {E : Type} (lib : native_lib E).

Lemma cyclic_gradient_boost_returns
    mt nc fs fcs Xt yt st Xv yv sv bags seed lr mts mcs tse episodes tol rl name
    (w : world E) model m index w' :
  cyclic_gradient_boost lib mt nc fs fcs Xt yt st Xv yv sv bags seed
    lr mts mcs tse episodes tol rl name w = (inr (model, m, index), w') ->
  exists s w1 last brk w2 w3,
    NativeEBMTraining_init lib mt nc fs fcs Xt yt st Xv yv sv bags seed w = (inr s, w1)
    /\ boost_loop lib s (Z.of_nat (List.length fcs)) lr mts mcs tse tol rl
         (range episodes) boost_start w1 = (inr (last, brk), w2)
    /\ get_best_model lib s w2 = (inr model, w3)
    /\ m = min_metric last /\ index = episode_index last
    /\ w' = released lib s w3.
Proof.
  unfold cyclic_gradient_boost, closing. intros H.
  apply bind_inv_inr in H. destruct H as (s & w1 & Hinit & H).
  unfold bind in H.
  destruct (boost_loop lib s _ lr mts mcs tse tol rl (range episodes) boost_start w1)
    as [[e | [last brk]] w2] eqn:Hloop.
  - cbn in H. inversion H.
  - destruct (get_best_model lib s w2) as [[e | model'] w3] eqn:Hbest.
    + cbn in H. inversion H.
    + cbn in H. inversion H; subst.
      exists s, w1, last, brk, w2, w3. repeat split; assumption.
Qed.

Lemma in_range_list x n : In x (range n) -> 0 <= x < n.
Proof.
  unfold range. intros H. apply in_map_iff in H. destruct H as (k & <- & Hk).
  apply in_seq in Hk. lia.
Qed.

(** X13: the round index a run returns is the index of the last round it
    ran, between 0 and [data_n_episodes - 1]; when [data_n_episodes] is not
    positive no round runs, the index returned is the initial 0 all the same
    and the metric is +infinity.  So the index 0 is returned both when the
    run stopped after its first round and when it ran none. *)
Theorem returned_round_is_last_round_run
    mt nc fs fcs Xt yt st Xv yv sv bags seed lr mts mcs tse data_n_episodes tol rl name
    (w : world E) model m index w' :
  cyclic_gradient_boost lib mt nc fs fcs Xt yt st Xv yv sv bags seed
    lr mts mcs tse data_n_episodes tol rl name w = (inr (model, m, index), w') ->
  (0 < data_n_episodes -> 0 <= index <= data_n_episodes - 1)
  /\ (data_n_episodes <= 0 -> index = 0 /\ m = infinity)
  /\ (rl < 0 -> 0 < data_n_episodes -> index = data_n_episodes - 1).
Proof.
  intros H. apply cyclic_gradient_boost_returns in H.
  destruct H as (s & w1 & last & brk & w2 & w3 & _ & Hloop & _ & -> & -> & _).
  destruct (boost_loop_outcome lib _ _ _ _ _ _ _ _ _ _ _ _ _ _ Hloop)
    as (Hbrk & Hlast & Hnil).
  split; [| split].
  - intros Hpos. destruct (Hlast (range_nonempty _ Hpos)) as [_ Hin].
    apply in_range_list in Hin. lia.
  - intros Hle. rewrite (Hnil (range_empty _ Hle)). split; reflexivity.
  - intros Hrl Hpos. destruct (Hlast (range_nonempty _ Hpos)) as [Hl _].
    rewrite Hl; [apply range_last; exact Hpos |].
    destruct brk; [| reflexivity].
    destruct (proj1 Hbrk eq_refl) as (_ & H0 & _). lia.
Qed.

Lemma early_stopping_counter tol rl m nc bp :
  fst (fst (early_stopping tol rl m nc bp)) = 0
  \/ fst (fst (early_stopping tol rl m nc bp)) = nc + 1.
Proof.
  unfold early_stopping. cbn [fst].
  destruct (_ <? _)%float; [left | right]; reflexivity.
Qed.

(** The stall counter through the loop: it starts from a value below the
    run length, moves by steps of one or back to 0, and the loop is left as
    soon as it reaches the run length. *)
Lemma stall_counter_bounds (self : NativeEBMTraining) nfc lr mts mcs tse tol rl :
  1 <= rl ->
  forall episodes st (w : world E) st' brk w',
    0 <= no_change_run_length st < rl ->
    boost_loop lib self nfc lr mts mcs tse tol rl episodes st w = (inr (st', brk), w') ->
    0 <= no_change_run_length st' <= rl
    /\ (brk = true -> no_change_run_length st' = rl)
    /\ (brk = false -> no_change_run_length st' < rl)
    /\ no_change_run_length st'
       <= no_change_run_length st + Z.of_nat (List.length episodes).
Proof.
  intros Hrl. induction episodes as [| i rest IH]; intros st w st' brk w' Hst H.
  - simpl in H. unfold ret in H. inversion H; subst.
    repeat split; try lia; discriminate.
  - apply boost_loop_inv_cons in H.
    destruct H as [[-> Hround] | (st1 & w1 & Hround & Hrest)].
    + apply boost_round_inv in Hround.
      destruct Hround as (_ & _ & Hnc & _ & Hb).
      symmetry in Hb. apply andb_true_iff in Hb. destruct Hb as [_ Hb].
      rewrite Z.geb_leb in Hb. apply Z.leb_le in Hb.
      destruct (early_stopping_counter tol rl (min_metric st')
                  (no_change_run_length st) (bp_metric st)) as [H0 | H1];
        rewrite <- Hnc in *; cbn [List.length]; repeat split; try lia; discriminate.
    + apply boost_round_inv in Hround.
      destruct Hround as (_ & _ & Hnc & _ & Hb).
      symmetry in Hb. apply andb_false_iff in Hb.
      assert (Hlt : no_change_run_length st1 < rl).
      { destruct Hb as [Hb | Hb]; rewrite Z.geb_leb in Hb; apply Z.leb_gt in Hb; lia. }
      assert (H01 : 0 <= no_change_run_length st1
                    /\ no_change_run_length st1 <= no_change_run_length st + 1).
      { destruct (early_stopping_counter tol rl (min_metric st1)
                    (no_change_run_length st) (bp_metric st)) as [H0 | H1];
          rewrite <- Hnc in *; lia. }
      destruct (IH st1 w1 st' brk w' ltac:(lia) Hrest) as (Ha & Hb' & Hc & Hd).
      cbn [List.length]. repeat split; try lia; auto.
Qed.

(** X14: with a run length of at least 1 the stall counter never exceeds
    the run length, and the loop is left through [break] exactly when the
    counter equals it; the counter is at most the number of rounds run, so a
    run never stops early before round index [early_stopping_run_length - 1]. *)
Theorem early_stop_needs_run_length_rounds
    (self : NativeEBMTraining) nfc lr mts mcs tse tol
    (early_stopping_run_length data_n_episodes : Z) (w : world E) st' brk w' :
  1 <= early_stopping_run_length ->
  boost_loop lib self nfc lr mts mcs tse tol early_stopping_run_length
    (range data_n_episodes) boost_start w = (inr (st', brk), w') ->
  0 <= no_change_run_length st' <= early_stopping_run_length
  /\ (brk = true <-> no_change_run_length st' = early_stopping_run_length)
  /\ (brk = true -> early_stopping_run_length - 1 <= episode_index st').
Proof.
  intros Hrl Hrun.
  assert (Hcount : forall k w1 st1 brk1,
             0 <= k ->
             boost_loop lib self nfc lr mts mcs tse tol early_stopping_run_length
               (range k) boost_start w = (inr (st1, brk1), w1) ->
             no_change_run_length st1 <= k).
  { intros k w1 st1 brk1 Hk H.
    assert (Hstart : 0 <= no_change_run_length boost_start < early_stopping_run_length)
      by (simpl; lia).
    destruct (stall_counter_bounds self nfc lr mts mcs tse tol _ Hrl _ _ _ _ _ _
                Hstart H) as (_ & _ & _ & Hd).
    unfold boost_start in Hd. cbn [no_change_run_length] in Hd.
    unfold range in Hd. rewrite length_map, length_seq in Hd. lia. }
  assert (Hstart : 0 <= no_change_run_length boost_start < early_stopping_run_length)
    by (simpl; lia).
  destruct (stall_counter_bounds self nfc lr mts mcs tse tol _ Hrl _ _ _ _ _ _
              Hstart Hrun) as (Ha & Hb & Hc & _).
  split; [exact Ha |]. split.
  - split; [exact Hb |]. intros Heq. destruct brk; [reflexivity |].
    specialize (Hc eq_refl). lia.
  - intros ->.
    destruct (boost_loop_outcome lib _ _ _ _ _ _ _ _ _ _ _ _ _ _ Hrun)
      as (Hbrk & Hlast & _).
    destruct (proj1 Hbrk eq_refl) as (Hne & _ & _).
    destruct (Hlast Hne) as [_ Hin]. apply in_range_list in Hin.
    (* the loop over the first [episode_index st' + 1] rounds gives the same
       outcome, and its counter is at most the number of its rounds *)
    destruct (boost_loop lib self nfc lr mts mcs tse tol early_stopping_run_length
                (range (episode_index st' + 1)) boost_start w)
      as [[e | [stk brkk]] wk] eqn:Hk.
    + exfalso.
      rewrite (range_split (episode_index st' + 1) data_n_episodes ltac:(lia)) in Hrun.
      rewrite boost_loop_app, Hk in Hrun. discriminate.
    + pose proof Hrun as Hrun'.
      rewrite (range_split (episode_index st' + 1) data_n_episodes ltac:(lia)) in Hrun'.
      rewrite boost_loop_app, Hk in Hrun'.
      destruct brkk.
      * inversion Hrun'; subst.
        assert (H0 : 0 <= episode_index st' + 1) by lia.
        specialize (Hcount _ _ _ _ H0 Hk). rewrite (Hb eq_refl) in Hcount. lia.
      * (* the prefix did not break: its last round is [episode_index st'],
           and the later rounds have larger indexes *)
        exfalso.
        destruct (boost_loop_outcome lib _ _ _ _ _ _ _ _ _ _ _ _ _ _ Hrun')
          as (Hbrk' & Hlast' & Hnil').
        destruct (proj1 Hbrk' eq_refl) as (Hne' & _ & _).
        destruct (Hlast' Hne') as [_ Hin'].
        unfold later_rounds in Hin'. apply in_map_iff in Hin'.
        destruct Hin' as (j & Hj & Hjin). apply in_seq in Hjin. lia.
Qed.

End Rounds.

(** X13 on the early-stopping scenario: four rounds allowed, round 1
    returned. *)
Lemma returned_round_is_last_round_run_witness :
  (0 < 4 -> 0 <= 1 <= 4 - 1)
  /\ (4 <= 0 -> 1 = 0 /\ 0.995%float = infinity)
  /\ (2 < 0 -> 0 < 4 -> 1 = 4 - 1).
Proof.
  apply (returned_round_is_last_round_run Replay.lib "regression" 0
           [Replay.continuous 3] [Replay.main_effect 0]
           Replay.no_data Replay.no_data None Replay.no_data Replay.no_data None 0 0
           0.01%float 2 2 1 4 0.01%float 2 "replay"%string
           (Replay.start 1 (map Some scenario_metrics))
           [Some {| tensor_shape := [3]; tensor_data := [0; 0; 0]%float |}]
           0.995%float 1
           (snd (Replay.boost "regression" 0 scenario_metrics 1 4 0.01 2))).
  reflexivity.
Defined.

(** X14 on the early-stopping scenario: the loop breaks at round 1 with the
    counter at the run length 2. *)
Lemma early_stop_needs_run_length_rounds_witness :
  let st := {| min_metric := 0.995; episode_index := 1;
               no_change_run_length := 2; bp_metric := 1 |} in
  0 <= no_change_run_length st <= 2
  /\ (true = true <-> no_change_run_length st = 2)
  /\ (true = true -> 2 - 1 <= episode_index st).
Proof.
  intros st.
  apply (early_stop_needs_run_length_rounds Replay.lib replay_session
           1 0.01%float 2 2 1 0.01%float 2 4
           (Replay.start 1 (map Some scenario_metrics)) st true
           (snd (replay_rounds scenario_metrics 0.01 2 (range 4) boost_start
                   (Replay.start 1 (map Some scenario_metrics))))).
  - lia.
  - reflexivity.
Defined.

Section OneRound.

Context {E : Type} (lib : native_lib E).

Lemma zero_run_length_breaks (self : NativeEBMTraining) nfc lr mts mcs tse tol
    i rest st (w : world E) :
  0 <= no_change_run_length st ->
  boost_loop lib self nfc lr mts mcs tse tol 0 (i :: rest) st w =
  boost_loop lib self nfc lr mts mcs tse tol 0 [i] st w.
Proof.
  intros Hst. cbn [boost_loop]. unfold bind.
  destruct (boost_round lib self nfc lr mts mcs tse tol 0 i st w)
    as [[e | [st1 b]] w1] eqn:Hround; [reflexivity |].
  apply boost_round_inv in Hround. destruct Hround as (_ & _ & Hnc & _ & Hb).
  assert (Htrue : b = true).
  { rewrite Hb. apply andb_true_iff. split; [reflexivity |].
    rewrite Z.geb_leb. apply Z.leb_le.
    destruct (early_stopping_counter tol 0 (min_metric st1)
                (no_change_run_length st) (bp_metric st)) as [H0 | H1];
      rewrite <- Hnc in *; lia. }
  rewrite Htrue. reflexivity.
Qed.

(** X15: a run length of 0 does not disable early stopping, it stops the
    run after its first round: with [early_stopping_run_length = 0] a run
    allowed any positive number of rounds is the run allowed one round, with
    the same result and the same engine calls. *)
Theorem zero_run_length_is_one_round
    mt nc fs fcs Xt yt st Xv yv sv bags seed lr mts mcs tse data_n_episodes tol name
    (w : world E) :
  0 < data_n_episodes ->
  cyclic_gradient_boost lib mt nc fs fcs Xt yt st Xv yv sv bags seed
    lr mts mcs tse data_n_episodes tol 0 name w =
  cyclic_gradient_boost lib mt nc fs fcs Xt yt st Xv yv sv bags seed
    lr mts mcs tse 1 tol 0 name w.
Proof.
  intros Hpos. unfold cyclic_gradient_boost, closing, bind.
  destruct (NativeEBMTraining_init lib mt nc fs fcs Xt yt st Xv yv sv bags seed w)
    as [[e | s] w1]; [reflexivity |].
  assert (Hloop : boost_loop lib s (Z.of_nat (List.length fcs)) lr mts mcs tse tol 0
                    (range data_n_episodes) boost_start w1 =
                  boost_loop lib s (Z.of_nat (List.length fcs)) lr mts mcs tse tol 0
                    (range 1) boost_start w1).
  { unfold range. replace (Z.to_nat data_n_episodes)
      with (S (Z.to_nat (data_n_episodes - 1))) by lia.
    cbn [seq map Z.to_nat Pos.to_nat Pos.iter_op Nat.add].
    apply zero_run_length_breaks. simpl. lia. }
  rewrite Hloop. reflexivity.
Qed.

End OneRound.

(** X15 on the early-stopping scenario with four rounds allowed. *)
Lemma zero_run_length_is_one_round_witness :
  Replay.boost "regression" 0 scenario_metrics 1 4 0.01 0 =
  Replay.boost "regression" 0 scenario_metrics 1 1 0.01 0.
Proof.
  apply (zero_run_length_is_one_round Replay.lib). lia.
Defined.

(** ** The running minimum *)

Section RunningMinimum.

Context {E : Type} (lib : native_lib E).

Lemma running_min_least metrics :
  forall m seen,
    least m seen ->
    no_nan seen = true -> no_nan metrics = true ->
    least (running_min metrics m) (seen ++ metrics).
Proof.
  induction metrics as [| c rest IH]; intros m seen Hleast Hseen Hnan.
  - simpl. rewrite app_nil_r. exact Hleast.
  - cbn [running_min fold_left]. fold (running_min rest (py_min c m)).
    replace (seen ++ c :: rest) with ((seen ++ [c]) ++ rest)
      by (rewrite <- app_assoc; reflexivity).
    simpl in Hnan. apply andb_true_iff in Hnan. destruct Hnan as [Hc Hrest].
    apply negb_true_iff in Hc.
    destruct Hleast as [Hin Hall].
    assert (Hm : is_nan m = false).
    { unfold no_nan in Hseen. rewrite forallb_forall in Hseen.
      apply negb_true_iff. apply Hseen. exact Hin. }
    apply IH.
    + unfold py_min. destruct (m <? c)%float eqn:Hmc.
      * split; [apply in_or_app; left; exact Hin |].
        apply Forall_app. split; [exact Hall |].
        constructor; [apply ltb_asym; exact Hmc | constructor].
      * split; [apply in_or_app; right; left; reflexivity |].
        apply Forall_app. split.
        -- apply (Forall_impl (P := fun x => (x <? m)%float = false)); [| exact Hall].
           intros x Hx. apply ltb_neg_trans with m; assumption.
        -- constructor; [apply ltb_irrefl | constructor].
    + unfold no_nan in *. rewrite forallb_app, Hseen. simpl. rewrite Hc. reflexivity.
    + exact Hrest.
Qed.

Lemma boost_sweep_metrics (self : NativeEBMTraining) lr mts mcs tse indexes :
  forall m (w : world E) m' w',
    boost_sweep lib self lr mts mcs tse indexes m w = (inr m', w') ->
    exists metrics,
      List.length metrics = List.length indexes
      /\ Forall (step_metric lib self lr mts mcs tse) metrics
      /\ m' = running_min metrics m.
Proof.
  induction indexes as [| i rest IH]; intros m w m' w' H; cbn [boost_sweep] in H.
  - unfold ret in H. inversion H; subst. exists []. repeat split. constructor.
  - apply bind_inv_inr in H. destruct H as (c & w1 & Hstep & H).
    destruct (IH _ _ _ _ H) as (metrics & Hlen & Hall & Hm).
    exists (c :: metrics). split; [simpl; lia |]. split.
    + constructor; [exists i, w, w1; exact Hstep | exact Hall].
    + exact Hm.
Qed.

Lemma running_min_app l1 l2 m :
  running_min (l1 ++ l2) m = running_min l2 (running_min l1 m).
Proof. unfold running_min. apply fold_left_app. Qed.

Lemma boost_loop_metrics (self : NativeEBMTraining) nfc lr mts mcs tse tol rl episodes :
  forall st (w : world E) st' brk w',
    boost_loop lib self nfc lr mts mcs tse tol rl episodes st w = (inr (st', brk), w') ->
    exists metrics,
      Forall (step_metric lib self lr mts mcs tse) metrics
      /\ min_metric st' = running_min metrics (min_metric st).
Proof.
  induction episodes as [| i rest IH]; intros st w st' brk w' H.
  - simpl in H. unfold ret in H. inversion H; subst. exists []. split; [constructor |].
    reflexivity.
  - apply boost_loop_inv_cons in H.
    destruct H as [[-> Hround] | (st1 & w1 & Hround & Hrest)].
    + apply boost_round_inv in Hround. destruct Hround as (_ & Hsweep & _).
      destruct (boost_sweep_metrics _ _ _ _ _ _ _ _ _ _ Hsweep)
        as (metrics & _ & Hall & Hm).
      exists metrics. split; assumption.
    + apply boost_round_inv in Hround. destruct Hround as (_ & Hsweep & _).
      destruct (boost_sweep_metrics _ _ _ _ _ _ _ _ _ _ Hsweep)
        as (metrics & _ & Hall & Hm).
      destruct (IH _ _ _ _ _ Hrest) as (later & Hlater & Hm').
      exists (metrics ++ later). split; [apply Forall_app; split; assumption |].
      rewrite running_min_app, <- Hm. exact Hm'.
Qed.


End RunningMinimum.


(** A NaN among the metrics makes the running minimum forget what came
    before it: after 1.0, NaN and 2.0 it is 2.0. *)
Example running_min_forgets_before_nan :
  running_min [1; nan; 2]%float infinity = 2%float.
Proof. reflexivity. Qed.

(** ** The updates of a whole run *)

Section Accounting.

Context {E : Type} (lib : native_lib E).

Lemma updates_refl (w : world E) : updates 0 w w.
Proof. exists []. rewrite app_nil_r. repeat split. Qed.

Lemma count_calls_app f l1 l2 :
  count_calls f (l1 ++ l2) = (count_calls f l1 + count_calls f l2)%nat.
Proof. unfold count_calls. rewrite filter_app, length_app. reflexivity. Qed.

Lemma updates_trans a b (w w1 w2 : world E) :
  updates a w w1 -> updates b w1 w2 -> updates (a + b) w w2.
Proof.
  intros (tr1 & Ht1 & Hg1 & Ha1) (tr2 & Ht2 & Hg2 & Ha2).
  exists (tr1 ++ tr2). rewrite Ht2, Ht1, <- app_assoc, !count_calls_app.
  repeat split; congruence.
Qed.

Lemma count_update_calls (self : NativeEBMTraining) i lr mts mcs tensors :
  count_calls is_generate (update_calls self i lr mts mcs tensors)
  = List.length tensors
  /\ count_calls is_apply (update_calls self i lr mts mcs tensors)
     = List.length tensors.
Proof.
  unfold count_calls, update_calls.
  induction tensors as [| t rest [IHg IHa]]; [split; reflexivity |].
  cbn [flat_map app filter is_generate is_apply List.length].
  rewrite IHg, IHa. split; reflexivity.
Qed.

Lemma training_step_updates (self : NativeEBMTraining) i lr mts mcs tse
    (w : world E) c w' :
  updating self = true ->
  training_step lib self i lr mts mcs tse w = (inr c, w') ->
  updates (Z.to_nat tse) w w'.
Proof.
  intros Hup H. unfold training_step in H. unfold updating in Hup.
  rewrite Hup in H.
  pose proof (episodes_loop_calls lib self i lr mts mcs (Z.to_nat tse)
                0%float 0%float w) as Hcalls.
  rewrite H in Hcalls. destruct Hcalls as (tensors & Hlen & _ & Ht).
  exists (update_calls self i lr mts mcs tensors).
  destruct (count_update_calls self i lr mts mcs tensors) as [Hg Ha].
  rewrite Hg, Ha. repeat split; assumption.
Qed.

Lemma boost_sweep_updates (self : NativeEBMTraining) lr mts mcs tse indexes :
  updating self = true ->
  forall m (w : world E) m' w',
    boost_sweep lib self lr mts mcs tse indexes m w = (inr m', w') ->
    updates (List.length indexes * Z.to_nat tse) w w'.
Proof.
  intros Hup. induction indexes as [| i rest IH]; intros m w m' w' H;
    cbn [boost_sweep] in H.
  - unfold ret in H. inversion H; subst. apply updates_refl.
  - apply bind_inv_inr in H. destruct H as (c & w1 & Hstep & H).
    cbn [List.length Nat.mul].
    apply updates_trans with w1.
    + eapply training_step_updates; eassumption.
    + eapply IH. exact H.
Qed.

Lemma boost_loop_updates (self : NativeEBMTraining) nfc lr mts mcs tse tol rl :
  updating self = true ->
  forall count a st (w : world E) st' brk w',
    boost_loop lib self nfc lr mts mcs tse tol rl
      (map Z.of_nat (seq a count)) st w = (inr (st', brk), w') ->
    exists rounds,
      (rounds <= count)%nat
      /\ updates (rounds * (Z.to_nat nfc * Z.to_nat tse)) w w'
      /\ (count = 0%nat -> st' = st)
      /\ (0 < count -> 0 < rounds /\ episode_index st' = Z.of_nat (a + rounds - 1))%nat.
Proof.
  intros Hup. induction count as [| count IH]; intros a st w st' brk w' H.
  - simpl in H. unfold ret in H. inversion H; subst. exists 0%nat.
    split; [lia |]. split; [apply updates_refl |]. split; [reflexivity | lia].
  - cbn [seq map] in H. apply boost_loop_inv_cons in H.
    assert (Hround : forall st1 b w1,
               boost_round lib self nfc lr mts mcs tse tol rl (Z.of_nat a) st w
               = (inr (st1, b), w1) ->
               episode_index st1 = Z.of_nat a
               /\ updates (Z.to_nat nfc * Z.to_nat tse) w w1).
    { intros st1 b w1 Hr. apply boost_round_inv in Hr.
      destruct Hr as (Hi & Hsweep & _). split; [exact Hi |].
      replace (Z.to_nat nfc) with (List.length (range nfc))
        by (unfold range; rewrite length_map, length_seq; reflexivity).
      eapply boost_sweep_updates; eassumption. }
    destruct H as [[-> Hr] | (st1 & w1 & Hr & Hrest)].
    + destruct (Hround _ _ _ Hr) as [Hi Hu]. exists 1%nat.
      split; [lia |]. split; [rewrite Nat.mul_1_l; exact Hu |].
      split; [discriminate |]. intros _. split; [lia |].
      rewrite Hi. f_equal. lia.
    + destruct (Hround _ _ _ Hr) as [Hi Hu].
      destruct (IH _ _ _ _ _ _ Hrest) as (rounds & Hle & Hu' & Hzero & Hpos).
      exists (S rounds). split; [lia |]. split.
      * cbn [Nat.mul]. apply updates_trans with w1; assumption.
      * split; [discriminate |]. intros _. split; [lia |].
        destruct count as [| count'].
        -- assert (rounds = 0%nat) by lia. subst rounds.
           rewrite (Hzero eq_refl), Hi. f_equal. lia.
        -- destruct Hpos as [Hr0 Hidx]; [lia |]. rewrite Hidx. f_equal. lia.
Qed.

Lemma init_updates mt nc fs fcs Xt yt st Xv yv sv bags seed (w : world E) s w1 :
  NativeEBMTraining_init lib mt nc fs fcs Xt yt st Xv yv sv bags seed w = (inr s, w1) ->
  updates 0 w w1.
Proof.
  unfold NativeEBMTraining_init. intros H.
  apply bind_inv_inr in H. destruct H as (fa & w0 & Hconv & H).
  apply convert_features_inv in Hconv. destruct Hconv as (_ & _ & ->).
  destruct (mt =? "classification")%string.
  - apply bind_inv_inr in H. destruct H as (p & w2 & Hcall & H).
    destruct (is_null p); [discriminate |]. inversion H; subst.
    unfold lib_call in Hcall.
    destruct (InitializeTrainingClassification lib _ _ _) as [p' e'].
    inversion Hcall; subst. eexists. split; [reflexivity |]. split; reflexivity.
  - destruct (mt =? "regression")%string; [| discriminate].
    apply bind_inv_inr in H. destruct H as (p & w2 & Hcall & H).
    destruct (is_null p); [discriminate |]. inversion H; subst.
    unfold lib_call in Hcall.
    destruct (InitializeTrainingRegression lib _ _) as [p' e'].
    inversion Hcall; subst. eexists. split; [reflexivity |]. split; reflexivity.
Qed.

Lemma count_reads f (c : Z -> call) indexes :
  (forall i, f (c i) = false) ->
  count_calls f (map c indexes) = 0%nat.
Proof.
  intros Hf. unfold count_calls.
  induction indexes as [| i rest IH]; [reflexivity |].
  cbn [map filter]. rewrite Hf. exact IH.
Qed.

Lemma get_best_model_updates (self : NativeEBMTraining) (w : world E) model w' :
  updating self = true ->
  get_best_model lib self w = (inr model, w') ->
  updates 0 w w'.
Proof.
  intros Hup H.
  assert (Hd : has_tensors self = true).
  { unfold updating in Hup. unfold has_tensors.
    destruct (_model_type self =? "classification")%string; [| reflexivity].
    cbn [negb orb andb] in *. apply Z.leb_le in Hup.
    apply negb_true_iff. apply Z.leb_gt. lia. }
  unfold get_best_model in H.
  pose proof (collect_model_read lib self (_get_best_model_feature_combination lib self)
                (CallGetBestModelFeatureCombination (_model_pointer self))
                (GetBestModelFeatureCombination lib (_model_pointer self)) w
                (fun i w => best_model_read lib self i w Hd)
                (range (Z.of_nat (List.length (_feature_combinations self)))) [] w)
    as Hread.
  rewrite H in Hread. destruct Hread as (Ht & _).
  eexists. split; [exact Ht |].
  split; apply count_reads; intros i; reflexivity.
Qed.

(** X17: the updates of a whole run.  Outside the single-class case, a run
    that returns round index [i] has asked the engine for exactly
    [(i + 1) * len(feature_combinations) * training_step_episodes] update
    proposals and has applied as many (a negative [training_step_episodes]
    counting as 0); a run allowed no round has made none. *)
Theorem run_updates_are_rounds_times_combinations_times_episodes
    mt nc fs fcs Xt yt st Xv yv sv bags seed lr mts mcs tse data_n_episodes tol rl name
    (w : world E) model m index w' :
  negb (mt =? "classification")%string || (2 <=? nc) = true ->
  cyclic_gradient_boost lib mt nc fs fcs Xt yt st Xv yv sv bags seed
    lr mts mcs tse data_n_episodes tol rl name w = (inr (model, m, index), w') ->
  let rounds := if 0 <? data_n_episodes then (Z.to_nat index + 1)%nat else 0%nat in
  updates (rounds * (List.length fcs * Z.to_nat tse)) w w'.
Proof.
  intros Hkind H. cbv zeta. apply cyclic_gradient_boost_returns in H.
  destruct H as (s & w1 & last & brk & w2 & w3 & Hinit & Hloop & Hmodel & _ & -> & ->).
  destruct (init_fields _ _ _ _ _ _ _ _ _ _ _ _ _ _ _ _ Hinit)
    as (Hmt & Hnc & _ & Hfcs & _).
  assert (Hup : updating s = true) by (unfold updating; rewrite Hmt, Hnc; exact Hkind).
  unfold range in Hloop.
  destruct (boost_loop_updates s _ lr mts mcs tse tol rl Hup _ _ _ _ _ _ _ Hloop)
    as (rounds & Hle & Hu & Hzero & Hpos).
  rewrite Nat2Z.id in Hu.
  assert (Hrounds : (if 0 <? data_n_episodes
                     then (Z.to_nat (episode_index last) + 1)%nat else 0%nat) = rounds).
  { destruct (Z.ltb_spec 0 data_n_episodes) as [Hn | Hn].
    - destruct Hpos as [Hr Hidx]; [lia |]. rewrite Hidx. lia.
    - lia. }
  rewrite Hrounds.
  replace (rounds * (List.length fcs * Z.to_nat tse))%nat
    with (0 + rounds * (List.length fcs * Z.to_nat tse) + 0 + 0)%nat by lia.
  apply updates_trans with w3.
  - apply updates_trans with w2.
    + apply updates_trans with w1; [eapply init_updates; exact Hinit | exact Hu].
    + eapply get_best_model_updates; eassumption.
  - unfold released. eexists. split; [reflexivity |]. split; reflexivity.
Qed.

End Accounting.

(** X17 on the early-stopping scenario: the run returns round 1, after two
    rounds of one combination and one episode. *)
Lemma run_updates_are_rounds_times_combinations_times_episodes_witness :
  updates 2 (Replay.start 1 (map Some scenario_metrics))
    (snd (Replay.boost "regression" 0 scenario_metrics 1 4 0.01 2)).
Proof.
  apply (run_updates_are_rounds_times_combinations_times_episodes
           Replay.lib "regression" 0
           [Replay.continuous 3] [Replay.main_effect 0]
           Replay.no_data Replay.no_data None Replay.no_data Replay.no_data None 0 0
           0.01%float 2 2 1 4 0.01%float 2 "replay"%string
           (Replay.start 1 (map Some scenario_metrics))
           [Some {| tensor_shape := [3]; tensor_data := [0; 0; 0]%float |}]
           0.995%float 1
           (snd (Replay.boost "regression" 0 scenario_metrics 1 4 0.01 2)));
    reflexivity.
Defined.

(** ** The interaction session of [get_interactions] *)

Section InteractionSession.

Context {E : Type} (lib : native_lib E).

Lemma closing_inv_inr {R A : Type} (acquire : M E R) (close : R -> M E unit)
    (body : R -> M E A) (w : world E) a w' :
  closing acquire close body w = (inr a, w') ->
  exists r w1 w2, acquire w = (inr r, w1) /\ body r w1 = (inr a, w2).
Proof.
  unfold closing. intros H. apply bind_inv_inr in H.
  destruct H as (r & w1 & Ha & H).
  destruct (body r w1) as [res w2] eqn:Hb.
  destruct (close r w2) as [[e | u] w3]; [discriminate |].
  inversion H; subst. exists r, w1, w2. split; [exact Ha | exact Hb].
Qed.

(** X18: [n_interactions] only cuts the ranking; it has no part in what the
    engine is asked or in whether the call fails.  [get_interactions] with
    any [n] is [get_interactions] asked for all the candidates, cut to its
    first [n] pairs when [n >= 0] and to all but its last [-n] pairs when [n]
    is negative (Python's [ranked_scores[0:n]]), with the same engine calls
    and the same exception. *)
Theorem interaction_count_only_cuts n candidates mt nc fs X y sc (w : world E) :
  let all := Z.of_nat (List.length candidates) in
  let kept := Z.to_nat (if 0 <=? n then n else all + n) in
  get_interactions lib n candidates mt nc fs X y sc w =
  match get_interactions lib all candidates mt nc fs X y sc w with
  | (inr (indices, scores), w') => (inr (firstn kept indices, firstn kept scores), w')
  | (inl e, w') => (inl e, w')
  end.
Proof.
  cbv zeta. unfold get_interactions, bind.
  destruct (closing _ _ _ w) as [[e | scored] w'] eqn:Hc; [reflexivity |].
  apply closing_inv_inr in Hc. destruct Hc as (s & w1 & w2 & _ & Hscore).
  pose proof (score_interactions_candidates _ _ _ _ _ _ _ Hscore) as Hfst.
  cbn [map app] in Hfst.
  assert (Hlen : List.length (sorted_reverse snd scored) = List.length candidates).
  { rewrite sorted_reverse_length, <- Hfst, length_map. reflexivity. }
  unfold ret. rewrite Hlen, Z.min_id.
  set (ranked := sorted_reverse snd scored) in *.
  rewrite !firstn_map.
  assert (Hall : py_slice_to ranked (Z.of_nat (List.length candidates)) = ranked).
  { unfold py_slice_to.
    destruct (Z.leb_spec 0 (Z.of_nat (List.length candidates))); [| lia].
    rewrite Nat2Z.id, <- Hlen. apply firstn_all. }
  rewrite Hall.
  assert (Hcut : py_slice_to ranked (Z.min (Z.of_nat (List.length candidates)) n)
                 = firstn (Z.to_nat (if 0 <=? n then n
                                     else Z.of_nat (List.length candidates) + n))
                     ranked).
  { unfold py_slice_to. rewrite Hlen.
    destruct (Z.leb_spec 0 n) as [Hn | Hn].
    - destruct (Z.leb_spec 0 (Z.min (Z.of_nat (List.length candidates)) n)); [| lia].
      destruct (Z.le_ge_cases (Z.of_nat (List.length candidates)) n) as [Hle | Hge].
      + rewrite Z.min_l by exact Hle. rewrite Nat2Z.id, <- Hlen.
        rewrite firstn_all. symmetry. apply firstn_all2. lia.
      + rewrite Z.min_r by exact Hge. reflexivity.
    - destruct (Z.leb_spec 0 (Z.min (Z.of_nat (List.length candidates)) n)); [lia |].
      rewrite Z.min_r by lia. reflexivity. }
  rewrite Hcut. reflexivity.
Qed.

Lemma score_interactions_calls (s : NativeEBMInteraction) candidates :
  forall acc (w : world E),
    match score_interactions lib s candidates acc w with
    | (inr _, w') =>
        trace w' =
        trace w ++ map (CallGetInteractionScore (_interaction_pointer s)) candidates
    | (inl e, w') =>
        exists k,
          (k < List.length candidates)%nat
          /\ trace w' =
             trace w ++ map (CallGetInteractionScore (_interaction_pointer s))
                          (firstn (S k) candidates)
          /\ e = Exception "Out of memory in GetInteractionScore"
    end.
Proof.
  induction candidates as [| c rest IH]; intros acc w; cbn [score_interactions].
  - cbn [ret map]. rewrite app_nil_r. reflexivity.
  - unfold bind at 1.
    destruct (get_interaction_score lib s c w) as [[e | score] w1] eqn:Hscore.
    + unfold get_interaction_score, bind, lib_call in Hscore.
      destruct (GetInteractionScore lib _ _ _ _) as [[rc score'] e1].
      destruct (negb (rc =? 0)); [| discriminate].
      inversion Hscore; subst. exists 0%nat. split; [simpl; lia |].
      split; [reflexivity |]. reflexivity.
    + assert (Hw1 : trace w1 = trace w ++ [CallGetInteractionScore
                                             (_interaction_pointer s) c]).
      { unfold get_interaction_score, bind, lib_call in Hscore.
        destruct (GetInteractionScore lib _ _ _ _) as [[rc score'] e1].
        destruct (negb (rc =? 0)); [discriminate |].
        inversion Hscore; subst. reflexivity. }
      specialize (IH (acc ++ [(c, score)]) w1).
      destruct (score_interactions lib s rest (acc ++ [(c, score)]) w1)
        as [[e | scored] w'].
      * destruct IH as (k & Hk & Ht & He). exists (S k).
        split; [simpl; lia |]. split; [| exact He].
        rewrite Ht, Hw1, <- app_assoc. reflexivity.
      * rewrite IH, Hw1, <- app_assoc. reflexivity.
Qed.


End InteractionSession.
